(** * ec_predict_flow: the pipeline configuration and recommendation core

    A shallow embedding of the pure logic of the front end:
    - [frontend/src/lib/recommendations.ts]: [parseIntervalToMinutes],
      [parseDateYmdUtc], [estimateTotalBars], [formatBarsToApproxDuration],
      [recommendLabelThreshold], [calcExpectedWindows],
      [recommendWalkForward];
    - [frontend/src/pages/HomePage.tsx]: [isPlainObject], [deepMerge], the
      default configuration, the memos [defaultTemplate], [selectedTemplate],
      [basePipelineConfig], [recommendedWalkForward], [expectedWindows] and
      the submit handler [onRun];
    - the run-detail page (stored as [composables/useModuleState.js]):
      [toNumber], [formatDatetimeCompact], [cloneJson], the memos
      [shapTopFeatures] and [backtestSummary], and the rerun handler
      [onRerun];
    - [useModuleState] with the save and reset functions of
      [stores/moduleStates.js].

    Conventions of the model.
    - A JavaScript number is a [Js.number]: [NaN], the two infinities, or a
      finite value held as a rational.  The operations of [Js] are exact:
      they are what IEEE doubles compute on whole numbers of magnitude
      below 2^53 (form fields, timestamps, the bar counts of the page).
      [Binary64] rounds every operation and every decimal text to the
      nearest double (ties to even, overflow to an infinity) and holds the
      arithmetic functions a second time, over the rounded operations;
      what depends on rounding (numbers beyond 2^53, quotients, decimal
      literals) is stated over [Binary64].  The sign of zero is outside
      the model.
    - A string is a sequence of bytes (UTF-8).  [trim] strips the ASCII
      white space characters.
    - A JSON object is a finite map from keys to values ([gmap]); every key
      is an ordinary own data property, and the order of the keys is not
      observed.  The accessor [__proto__] of [Object.prototype] is not
      modelled: a patch with the key [__proto__] is outside the model, and
      the properties that speak of every key of a patch assume there is
      none.
      is an ordinary own data property (the accessor [__proto__] is not
      modelled), and the order of the keys is not observed.
    - What the host decides is a parameter: [JSON.parse], the text of a
      number in a template literal, and the order in which [Object.entries]
      lists the properties. *)

From Stdlib Require Import ZArith QArith Qround Qreduction Qabs Qpower.
From Stdlib Require Import Lia Lqa Ascii String DecimalString SpecFloat.
From stdpp Require Import gmap strings list fin_maps sorting.

Set Warnings "-register-all".
#[local] Open Scope Z_scope.

(** ** Strings *)

Module Text.

#[local] Open Scope string_scope.

Definition code (c : ascii) : N := N_of_ascii c.

(** The white space that [String.prototype.trim] strips, within ASCII:
    tab, line feed, vertical tab, form feed, carriage return, space. *)
Definition isSpace (c : ascii) : bool :=
  let n := code c in ((9 <=? n) && (n <=? 13) || (n =? 32))%N.

Fixpoint trimStart (s : string) : string :=
  match s with
  | String c r => if isSpace c then trimStart r else s
  | EmptyString => EmptyString
  end.

Fixpoint trimEnd (s : string) : string :=
  match s with
  | EmptyString => EmptyString
  | String c r =>
      match trimEnd r with
      | EmptyString => if isSpace c then EmptyString else String c EmptyString
      | r' => String c r'
      end
  end.

Definition trim (s : string) : string := trimEnd (trimStart s).

(** The class [\d]. *)
Definition isDigit (c : ascii) : bool :=
  let n := code c in ((48 <=? n) && (n <=? 57))%N.

Definition digitVal (c : ascii) : Z := Z.of_N (code c) - 48.

(** The value of a run of decimal digits, most significant first. *)
Fixpoint decimalFrom (acc : Z) (s : string) : Z :=
  match s with
  | EmptyString => acc
  | String c r => decimalFrom (10 * acc + digitVal c) r
  end.

Definition decimal (s : string) : Z := decimalFrom 0 s.

Fixpoint allDigits (s : string) : bool :=
  match s with
  | EmptyString => true
  | String c r => isDigit c && allDigits r
  end.

(** ASCII lower-casing, enough for the one-letter units. *)
Definition toLower (c : ascii) : ascii :=
  let n := code c in
  if ((65 <=? n) && (n <=? 90))%N then ascii_of_N (n + 32) else c.

(** JavaScript truthiness of a string. *)
Definition truthy (s : string) : bool :=
  match s with EmptyString => false | _ => true end.

(** The longest prefix of digits, and what follows it. *)
Fixpoint spanDigits (s : string) : string * string :=
  match s with
  | String c r =>
      if isDigit c then let (d, t) := spanDigits r in (String c d, t)
      else (EmptyString, s)
  | EmptyString => (EmptyString, EmptyString)
  end.

Definition isEmpty (s : string) : bool := negb (truthy s).

End Text.

(** ** JavaScript numbers *)

Module Js.

Inductive number : Type :=
| NaN
| PosInf
| NegInf
| Fin (q : Q).

Definition ofZ (z : Z) : number := Fin (inject_Z z).

Definition toZ (x : number) : option Z :=
  match x with
  | Fin (Qmake z 1) => Some z
  | _ => None
  end.

(** Finite results are kept in lowest terms, so that equal numbers are equal
    terms. *)
Definition norm (q : Q) : number := Fin (Qred q).

(** [Number.isFinite] *)
Definition isFinite (x : number) : bool :=
  match x with Fin _ => true | _ => false end.

(** [Number.isInteger] *)
Definition isInteger (x : number) : bool :=
  match x with
  | Fin q => Qeq_bool q (inject_Z (Qfloor q))
  | _ => false
  end.

(** [Math.floor] *)
Definition floor (x : number) : number :=
  match x with
  | Fin q => ofZ (Qfloor q)
  | _ => x
  end.

(** The comparison underlying [<], [<=], [>], [>=] and [===]: undefined as
    soon as one side is [NaN]. *)
Definition cmp (x y : number) : option comparison :=
  match x, y with
  | NaN, _ | _, NaN => None
  | Fin a, Fin b => Some (a ?= b)%Q
  | PosInf, PosInf | NegInf, NegInf => Some Eq
  | PosInf, _ | _, NegInf => Some Gt
  | NegInf, _ | _, PosInf => Some Lt
  end.

Definition ltb (x y : number) : bool :=
  match cmp x y with Some Lt => true | _ => false end.
Definition leb (x y : number) : bool :=
  match cmp x y with Some Lt | Some Eq => true | _ => false end.
Definition gtb (x y : number) : bool := ltb y x.
Definition geb (x y : number) : bool := leb y x.
Definition eqb (x y : number) : bool :=
  match cmp x y with Some Eq => true | _ => false end.

(** [Math.max] of two arguments *)
Definition max (x y : number) : number :=
  match cmp x y with
  | None => NaN
  | Some Lt => y
  | Some _ => x
  end.

Definition neg (x : number) : number :=
  match x with
  | NaN => NaN
  | PosInf => NegInf
  | NegInf => PosInf
  | Fin q => norm (- q)
  end.

Definition add (x y : number) : number :=
  match x, y with
  | NaN, _ | _, NaN => NaN
  | Fin a, Fin b => norm (a + b)
  | PosInf, NegInf | NegInf, PosInf => NaN
  | PosInf, _ | _, PosInf => PosInf
  | NegInf, _ | _, NegInf => NegInf
  end.

Definition sub (x y : number) : number := add x (neg y).

(** An infinity of the sign of [c], a comparison with zero. *)
Definition signedInf (c : comparison) : number :=
  match c with
  | Gt => PosInf
  | Lt => NegInf
  | Eq => NaN
  end.

Definition flip (c : comparison) : comparison :=
  match c with Gt => Lt | Lt => Gt | Eq => Eq end.

Definition mul (x y : number) : number :=
  match x, y with
  | NaN, _ | _, NaN => NaN
  | Fin a, Fin b => norm (a * b)
  | PosInf, Fin b | Fin b, PosInf => signedInf (b ?= 0)%Q
  | NegInf, Fin b | Fin b, NegInf => signedInf (flip (b ?= 0)%Q)
  | PosInf, PosInf | NegInf, NegInf => PosInf
  | PosInf, NegInf | NegInf, PosInf => NegInf
  end.

Definition div (x y : number) : number :=
  match x, y with
  | NaN, _ | _, NaN => NaN
  | Fin a, Fin b =>
      if Qeq_bool b 0 then signedInf (a ?= 0)%Q else norm (a / b)
  | Fin _, _ => ofZ 0
  | PosInf, Fin b => match (b ?= 0)%Q with Lt => NegInf | _ => PosInf end
  | NegInf, Fin b => match (b ?= 0)%Q with Lt => PosInf | _ => NegInf end
  | _, _ => NaN
  end.

(** Truncation towards zero, as used by the remainder. *)
Definition Qtrunc (q : Q) : Z := Z.quot (Qnum q) (Zpos (Qden q)).

(** The [%] operator: the result takes the sign of the dividend. *)
Definition rem (x y : number) : number :=
  match x, y with
  | Fin a, Fin b =>
      if Qeq_bool b 0 then NaN
      else norm (a - b * inject_Z (Qtrunc (a / b)))
  | Fin a, PosInf | Fin a, NegInf => norm a
  | _, _ => NaN
  end.

(** *** [Number(text)]: the StringToNumber conversion

    White space is trimmed, the empty text is 0; a decimal literal may have
    a sign, a fraction and an exponent; [Infinity] may have a sign; the
    prefixes [0x], [0o] and [0b] introduce unsigned integers; any other text
    is [NaN]. *)

#[local] Open Scope string_scope.
#[local] Open Scope Z_scope.

Definition exponentPart (s : string) : option Z :=
  match s with
  | EmptyString => Some 0
  | String e r =>
      if (Ascii.eqb e "e" || Ascii.eqb e "E")%bool then
        let '(minus, ds) :=
          match r with
          | String "+" t => (false, t)
          | String "-" t => (true, t)
          | _ => (false, r)
          end in
        if (Text.truthy ds && Text.allDigits ds)%bool
        then Some (if minus then - Text.decimal ds else Text.decimal ds)
        else None
      else None
  end.

(** [m * 10^e] *)
Definition scale (m e : Z) : Q :=
  if 0 <=? e then inject_Z (m * 10 ^ e) else (m # Z.to_pos (10 ^ (- e)))%Q.

Definition unsignedDecimal (s : string) : option number :=
  if String.eqb s "Infinity" then Some PosInf else
  let (ip, r1) := Text.spanDigits s in
  let (fp, r2) :=
    match r1 with
    | String "." t => Text.spanDigits t
    | _ => (EmptyString, r1)
    end in
  if (Text.isEmpty ip && Text.isEmpty fp)%bool then None
  else match exponentPart r2 with
       | Some e =>
           Some (norm (scale (Text.decimal (ip ++ fp))
                             (e - Z.of_nat (String.length fp))))
       | None => None
       end.

Definition radixDigit (radix : Z) (c : ascii) : option Z :=
  let n := Z.of_N (Text.code c) in
  let v := if (48 <=? n) && (n <=? 57) then n - 48
           else if (97 <=? n) && (n <=? 102) then n - 87
           else if (65 <=? n) && (n <=? 70) then n - 55
           else radix in
  if v <? radix then Some v else None.

Fixpoint radixFrom (radix acc : Z) (s : string) : option Z :=
  match s with
  | EmptyString => Some acc
  | String c r =>
      match radixDigit radix c with
      | Some v => radixFrom radix (radix * acc + v) r
      | None => None
      end
  end.

Definition nonDecimal (s : string) : option number :=
  match s with
  | String "0" (String p (String c r)) =>
      let radix :=
        match Text.toLower p with
        | "x"%char => Some 16
        | "o"%char => Some 8
        | "b"%char => Some 2
        | _ => None
        end in
      match radix with
      | Some k => ofZ <$> radixFrom k 0 (String c r)
      | None => None
      end
  | _ => None
  end.

Definition Number (text : string) : number :=
  let t := Text.trim text in
  if Text.isEmpty t then ofZ 0 else
  match nonDecimal t with
  | Some n => n
  | None =>
      let r :=
        match t with
        | String "+" u => unsignedDecimal u
        | String "-" u => neg <$> unsignedDecimal u
        | _ => unsignedDecimal t
        end in
      match r with Some n => n | None => NaN end
  end.

End Js.

Declare Scope js_scope.
Delimit Scope js_scope with js.
Bind Scope js_scope with Js.number.
Infix "+" := Js.add : js_scope.
Infix "-" := Js.sub : js_scope.
Infix "*" := Js.mul : js_scope.
Infix "/" := Js.div : js_scope.
Infix "<?" := Js.ltb : js_scope.
Infix "<=?" := Js.leb : js_scope.
Infix ">?" := Js.gtb : js_scope.
Infix ">=?" := Js.geb : js_scope.
Infix "=?" := Js.eqb : js_scope.
Number Notation Js.number Js.ofZ Js.toZ : js_scope.


(** ** recommendations.ts *)

#[local] Open Scope string_scope.
#[local] Open Scope Z_scope.

(** The match of [/^(\d+)?(m|h|d)$/i]: the two capture groups, the first
    one absent when no digit was matched. *)
Definition matchInterval (text : string) : option (option string * string) :=
  let (ds, rest) := Text.spanDigits text in
  match rest with
  | String u EmptyString =>
      match Text.toLower u with
      | "m"%char | "h"%char | "d"%char =>
          Some (if Text.truthy ds then Some ds else None, String u EmptyString)
      | _ => None
      end
  | _ => None
  end.

Definition toLowerCase (s : string) : string :=
  string_of_list_ascii (Text.toLower <$> list_ascii_of_string s).

Definition parseIntervalToMinutes (interval : string) : option Js.number :=
  let text := Text.trim interval in
  match matchInterval text with
  | None => None
  | Some (g1, g2) =>
      let n := Js.Number (default "1" g1) in
      if (negb (Js.isFinite n) || (n <=? 0)%js)%bool then None
      else
        let unit := toLowerCase g2 in
        if String.eqb unit "m" then Some n
        else if String.eqb unit "h" then Some (n * 60)%js
        else if String.eqb unit "d" then Some (n * 24 * 60)%js
        else None
  end.

(** *** [Date.UTC(year, monthIndex, day)]

    The day arithmetic of the language standard: [DayFromYear], the leap
    year rule, [MakeDay], [MakeDate] with a zero time of day and
    [TimeClip]. *)

Module JsDate.

Definition msPerDay : Z := 86400000.

Definition DayFromYear (y : Z) : Z :=
  365 * (y - 1970) + (y - 1969) / 4 - (y - 1901) / 100 + (y - 1601) / 400.

Definition InLeapYear (y : Z) : bool :=
  ((y mod 4 =? 0) && negb (y mod 100 =? 0) || (y mod 400 =? 0))%bool.

(** Days before the first of month [mn] (0 = January) in a common year. *)
Definition monthStart (mn : Z) : Z :=
  match mn with
  | 0 => 0 | 1 => 31 | 2 => 59 | 3 => 90 | 4 => 120 | 5 => 151
  | 6 => 181 | 7 => 212 | 8 => 243 | 9 => 273 | 10 => 304 | _ => 334
  end.

Definition MakeDay (year month date : Z) : Z :=
  let ym := year + month / 12 in
  let mn := month mod 12 in
  let leap := if (InLeapYear ym && (2 <=? mn))%bool then 1 else 0 in
  DayFromYear ym + monthStart mn + leap + date - 1.

Definition MakeFullYear (y : Z) : Z :=
  if ((0 <=? y) && (y <=? 99))%bool then 1900 + y else y.

Definition TimeClip (t : Z) : Js.number :=
  if Z.abs t >? 8640000000000000 then Js.NaN else Js.ofZ t.

Definition UTC (year month date : Js.number) : Js.number :=
  match year, month, date with
  | Js.Fin y, Js.Fin m, Js.Fin d =>
      TimeClip (MakeDay (MakeFullYear (Js.Qtrunc y)) (Js.Qtrunc m) (Js.Qtrunc d)
                * msPerDay)
  | _, _, _ => Js.NaN
  end.

End JsDate.

(** The match of [/^(\d{4})-(\d{2})-(\d{2})$/]: the three capture groups. *)
Definition matchYmd (text : string) : option (string * string * string) :=
  match text with
  | String y1 (String y2 (String y3 (String y4 (String s1
      (String m1 (String m2 (String s2
        (String d1 (String d2 EmptyString))))))))) =>
      let y := String y1 (String y2 (String y3 (String y4 EmptyString))) in
      let m := String m1 (String m2 EmptyString) in
      let d := String d1 (String d2 EmptyString) in
      if (Text.allDigits y && Ascii.eqb s1 "-" && Text.allDigits m
          && Ascii.eqb s2 "-" && Text.allDigits d)%bool
      then Some (y, m, d) else None
  | _ => None
  end.

Definition parseDateYmdUtc (dateStr : string) : option Js.number :=
  match matchYmd (Text.trim dateStr) with
  | None => None
  | Some (g1, g2, g3) =>
      let year := Js.Number g1 in
      let month := Js.Number g2 in
      let day := Js.Number g3 in
      if (negb (Js.isFinite year) || negb (Js.isFinite month)
          || negb (Js.isFinite day))%bool then None
      else if ((month <? 1) || (month >? 12))%js%bool then None
      else if ((day <? 1) || (day >? 31))%js%bool then None
      else Some (JsDate.UTC year (month - 1)%js day)
  end.

Definition estimateTotalBars (startDate endDate interval : string)
  : option Js.number :=
  let start := parseDateYmdUtc startDate in
  let end_ := parseDateYmdUtc endDate in
  let minutesPerBar := parseIntervalToMinutes interval in
  match start, end_, minutesPerBar with
  | Some start, Some end_, Some minutesPerBar =>
      let diffMinutes := Js.max 0 (Js.floor ((end_ - start) / 60000))%js in
      Some (Js.max 0 (Js.floor (diffMinutes / minutesPerBar)))%js
  | _, _, _ => None
  end.

Definition calcExpectedWindows (totalBars trainBars testBars stepBars : Js.number)
  : option Js.number :=
  let n := Js.max 0 (Js.floor totalBars) in
  let train := Js.max 0 (Js.floor trainBars) in
  let test := Js.max 0 (Js.floor testBars) in
  let step := Js.max 0 (Js.floor stepBars) in
  if ((train <=? 0) || (test <=? 0) || (step <=? 0))%js%bool then None
  else if (n <? train + test)%js then Some 0%js
  else Some (Js.floor ((n - train - test) / step) + 1)%js.

Record WindowPlan : Type := {
  train_bars : Js.number;
  test_bars : Js.number;
  step_bars : Js.number;
  max_windows : Js.number;
  expected_windows : option Js.number
}.

(** The rounding granularity [test >= 2000 ? 100 : test >= 500 ? 50 : 10]. *)
Definition roundingStep (test : Js.number) : Js.number :=
  if (test >=? 2000)%js then 100%js
  else if (test >=? 500)%js then 50%js else 10%js.

Definition recommendWalkForward (totalBars : Js.number) : WindowPlan :=
  let n := Js.max 0 (Js.floor totalBars) in
  let trainRatio := 4%js in
  let targetWindows := 6%js in
  let maxWindows := 10%js in
  let minTest := 200%js in
  let test := Js.floor (n / (trainRatio + targetWindows))%js in
  let test := if (negb (Js.isFinite test) || (test <=? 0)%js)%bool
              then minTest else test in
  let roundTo := roundingStep test in
  let test := Js.max minTest (Js.floor (test / roundTo) * roundTo)%js in
  let train := (trainRatio * test)%js in
  let train := Js.max 200 train in
  let '(test, train) :=
    if ((n >? 0) && (n <? train + 2 * test))%js%bool then
      let test := Js.max minTest (Js.floor (n / (trainRatio + 2)))%js in
      let roundTo2 := roundingStep test in
      let test := Js.max minTest (Js.floor (test / roundTo2) * roundTo2)%js in
      let train := Js.max 200 (trainRatio * test)%js in
      (test, train)
    else (test, train) in
  let step := test in
  let expected := calcExpectedWindows n train test step in
  {| train_bars := train;
     test_bars := test;
     step_bars := step;
     max_windows := maxWindows;
     expected_windows := expected |}.

(** ** JSON values and [deepMerge] (HomePage.tsx) *)

Inductive JsonValue : Type :=
| JNull
| JBool (b : bool)
| JNum (n : Js.number)
| JStr (s : string)
| JArr (items : list JsonValue)
| JObj (fields : gmap string JsonValue).

(** A record [Record<string, JsonValue>]. *)
Abbreviation JsonObject := (gmap string JsonValue).

(** The property name of an array index. *)
Definition indexKey (i : nat) : string :=
  NilEmpty.string_of_uint (Nat.to_uint i).

Definition indexed (items : list JsonValue) : JsonObject :=
  list_to_map (imap (fun i v => (indexKey i, v)) items).

Definition charValues (s : string) : list JsonValue :=
  (fun c => JStr (String c EmptyString)) <$> list_ascii_of_string s.

(** The own enumerable properties that [{ ...(value || {}) }] copies and
    that [Object.entries(value || {})] lists: the fields of an object, the
    elements of an array and the characters of a string under their
    indices, nothing for null, booleans and numbers. *)
Definition ownProperties (value : JsonValue) : JsonObject :=
  match value with
  | JObj fields => fields
  | JArr items => indexed items
  | JStr s => indexed (charValues s)
  | JNull | JBool _ | JNum _ => ∅
  end.

(** [isPlainObject]: truthy, of type "object", not an array.  An absent
    property ([undefined]) is [None]. *)
Definition isPlainObject (value : option JsonValue) : bool :=
  match value with
  | Some (JObj _) => true
  | _ => false
  end.

Fixpoint deepMerge (base patch : JsonValue) {struct patch} : JsonObject :=
  let assign := fun (k : string) (v : JsonValue) (merged : JsonObject) =>
    match merged !! k, v with
    | Some (JObj prev), JObj _ => <[k := JObj (deepMerge (JObj prev) v)]> merged
    | _, _ => <[k := v]> merged
    end in
  let merged := ownProperties base in
  match patch with
  | JObj fields => map_fold assign merged fields
  | JArr items =>
      (fix each (i : nat) (items : list JsonValue) (merged : JsonObject) :=
         match items with
         | [] => merged
         | v :: rest => each (S i) rest (assign (indexKey i) v merged)
         end) 0%nat items merged
  | JStr s =>
      foldl (fun merged kv => <[kv.1 := kv.2]> merged) merged
            (imap (fun i v => (indexKey i, v)) (charValues s))
  | JNull | JBool _ | JNum _ => merged
  end.

(** ** The submit handler [onRun] (HomePage.tsx) *)

Definition TEMPLATE_AUTO : string := "__auto__".
Definition TEMPLATE_NONE : string := "__none__".

(** The component state that [onRun] reads. *)
Record FormState : Type := {
  symbol : string;
  startDate : string;
  endDate : string;
  interval : string;
  templateChoice : string;
  (** [defaultTemplate?.template_id] *)
  defaultTemplateId : option string;
  overridesText : string;

  useFeatureOverrides : bool;
  alphaTypes : list string;
  instrumentName : string;

  useLabelOverrides : bool;
  labelWindow : string;
  labelLookForward : string;
  labelType : string;
  labelFilterType : string;
  labelThreshold : string;

  useTrainingOverrides : bool;
  numBoostRound : string;
  numThreads : string;

  useInterpretationOverrides : bool;
  shapMaxSamples : string;
  shapMaxDisplay : string;

  useAnalysisOverrides : bool;
  selectedFeaturesText : string;
  maxFeatures : string;
  maxDepth : string;
  minSamplesSplit : string;
  minSamplesLeaf : string;
  minRuleSamples : string;
  analysisLabelThreshold : string;

  useBacktestOverrides : bool;
  positionFraction : string;
  positionNotional : string;
  orderIntervalMinutes : string;
  lookForwardBars : string;
  pnlMode : string;
  backtestType : string;
  backtestFilterType : string;
  minRuleConfidence : string;
  winProfit : string;
  lossCost : string;
  initialBalance : string;
  feeRate : string;
  slippageBps : string;

  useWalkForwardOverrides : bool;
  walkForwardEnabled : bool;
  trainBars : string;
  testBars : string;
  stepBars : string;
  maxWindows : string
}.

(** What stops a submission: [JSON.parse] rejected the override text, or a
    validation threw [new Error(message)]. *)
Inductive SubmitError : Type :=
| SyntaxError
| Invalid (message : string).

(** The body of the request handed to [api.runPipeline]. *)
Record PipelineRunRequest : Type := {
  workflow_name : string;
  template_id : option string;
  req_symbol : string;
  start_date : string;
  end_date : string;
  req_interval : string;
  config_overrides : JsonObject
}.

Definition throwIf {A : Type} (bad : bool) (message : string)
  (k : SubmitError + A) : SubmitError + A :=
  if bad then inl (Invalid message) else k.

Notation "'throw_if' bad 'error' message ;; k" := (throwIf bad message k)
  (at level 10, bad at level 9, message at level 9, k at level 200,
   format "'[v' 'throw_if'  bad  'error'  message ;; '/' k ']'").

(** [!Number.isFinite(x) || x < least || !Number.isInteger(x)] *)
Definition notIntegerAtLeast (least x : Js.number) : bool :=
  (negb (Js.isFinite x) || (x <? least)%js || negb (Js.isInteger x))%bool.

(** An optional number field: [text ? Number(text) : null]. *)
Definition optionalNumber (text : string) : option Js.number :=
  if Text.truthy text then Some (Js.Number text) else None.

Definition jsonOfOptional (x : option Js.number) : JsonValue :=
  match x with
  | Some n => JNum n
  | None => JNull
  end.

(** [text && (!Number.isFinite(x) || x === null)] *)
Definition optionalNotFinite (text : string) (x : option Js.number) : bool :=
  (Text.truthy text
   && match x with Some n => negb (Js.isFinite n) | None => true end)%bool.

(** [text.split(/\r?\n|,/g)] *)
Fixpoint splitLines (cur : string) (s : string) : list string :=
  match s with
  | EmptyString => [String.rev cur]
  | String c r =>
      if Ascii.eqb c "010" then String.rev cur :: splitLines EmptyString r
      else if Ascii.eqb c "," then String.rev cur :: splitLines EmptyString r
      else match r with
           | String c' r' =>
               if (Ascii.eqb c "013" && Ascii.eqb c' "010")%bool
               then String.rev cur :: splitLines EmptyString r'
               else splitLines (String c cur) r
           | EmptyString => splitLines (String c cur) r
           end
  end.

(** [.map((s) => s.trim()).filter(Boolean)] *)
Definition cleanList (items : list string) : list string :=
  filter (fun s => Is_true (Text.truthy s)) (Text.trim <$> items).

Definition jsonStrings (items : list string) : JsonValue :=
  JArr (JStr <$> items).

Definition featureOverrides (f : FormState) (form_overrides : JsonObject)
  : SubmitError + JsonObject :=
  if useFeatureOverrides f then
    let cleaned := cleanList (alphaTypes f) in
    throw_if (length cleaned =? 0)%nat
      error "特征参数：alpha_types 至少选择 1 个。" ;;
    inr (<["feature_calculation" := JObj (
           <["alpha_types" := jsonStrings cleaned]> (
           <["instrument_name" :=
               if Text.truthy (Text.trim (instrumentName f))
               then JStr (Text.trim (instrumentName f)) else JNull]> ∅))]>
         form_overrides)
  else inr form_overrides.

Definition labelOverrides (f : FormState) (form_overrides : JsonObject)
  : SubmitError + JsonObject :=
  if useLabelOverrides f then
    let window := Js.Number (labelWindow f) in
    let lookForward := Js.Number (labelLookForward f) in
    throw_if (notIntegerAtLeast 3 window)
      error "标签参数：window 需要是 >= 3 的整数。" ;;
    throw_if (Js.rem window 2 =? 0)%js
      error "标签参数：window 建议为奇数（例如 29）。" ;;
    throw_if (notIntegerAtLeast 1 lookForward)
      error "标签参数：look_forward 需要是 >= 1 的整数。" ;;
    let t := Text.trim (labelType f) in
    let ft := Text.trim (labelFilterType f) in
    let thText := Text.trim (labelThreshold f) in
    let th := optionalNumber thText in
    throw_if (optionalNotFinite thText th)
      error "标签参数：threshold 需要是数字，或留空使用默认值。" ;;
    inr (<["label_calculation" := JObj (
           <["window" := JNum window]> (
           <["look_forward" := JNum lookForward]> (
           <["label_type" := JStr t]> (
           <["filter_type" := JStr ft]> (
           <["threshold" := jsonOfOptional th]> ∅)))))]>
         form_overrides)
  else inr form_overrides.

Definition trainingOverrides (f : FormState) (form_overrides : JsonObject)
  : SubmitError + JsonObject :=
  if useTrainingOverrides f then
    let rounds := Js.Number (numBoostRound f) in
    let threads := Js.Number (numThreads f) in
    throw_if (notIntegerAtLeast 1 rounds)
      error "训练参数：num_boost_round 需要是 >= 1 的整数。" ;;
    throw_if (notIntegerAtLeast 1 threads)
      error "训练参数：num_threads 需要是 >= 1 的整数。" ;;
    inr (<["model_training" := JObj (
           <["num_boost_round" := JNum rounds]> (
           <["num_threads" := JNum threads]> ∅))]>
         form_overrides)
  else inr form_overrides.

Definition interpretationOverrides (f : FormState) (form_overrides : JsonObject)
  : SubmitError + JsonObject :=
  if useInterpretationOverrides f then
    let ms := Js.Number (shapMaxSamples f) in
    let md := Js.Number (shapMaxDisplay f) in
    throw_if (notIntegerAtLeast 1 ms)
      error "解释参数：max_samples 需要是 >= 1 的整数。" ;;
    throw_if (notIntegerAtLeast 1 md)
      error "解释参数：max_display 需要是 >= 1 的整数。" ;;
    inr (<["model_interpretation" := JObj (
           <["max_samples" := JNum ms]> (
           <["max_display" := JNum md]> ∅))]>
         form_overrides)
  else inr form_overrides.

Definition analysisOverrides (f : FormState) (form_overrides : JsonObject)
  : SubmitError + JsonObject :=
  if useAnalysisOverrides f then
    let mf := Js.Number (maxFeatures f) in
    let md := Js.Number (maxDepth f) in
    let mss := Js.Number (minSamplesSplit f) in
    let msl := Js.Number (minSamplesLeaf f) in
    let mrs := Js.Number (minRuleSamples f) in
    throw_if (notIntegerAtLeast 1 mf)
      error "规则参数：max_features 需要是 >= 1 的整数。" ;;
    throw_if (notIntegerAtLeast 1 md)
      error "规则参数：max_depth 需要是 >= 1 的整数。" ;;
    throw_if (notIntegerAtLeast 2 mss)
      error "规则参数：min_samples_split 需要是 >= 2 的整数。" ;;
    throw_if (notIntegerAtLeast 1 msl)
      error "规则参数：min_samples_leaf 需要是 >= 1 的整数。" ;;
    throw_if (notIntegerAtLeast 1 mrs)
      error "规则参数：min_rule_samples 需要是 >= 1 的整数。" ;;
    let thText := Text.trim (analysisLabelThreshold f) in
    let th := optionalNumber thText in
    throw_if (optionalNotFinite thText th)
      error "规则参数：label_threshold 需要是数字，或留空使用自动值。" ;;
    let selected := cleanList (splitLines EmptyString (selectedFeaturesText f)) in
    inr (<["model_analysis" := JObj (
           <["selected_features" :=
               if (0 <? length selected)%nat then jsonStrings selected
               else JNull]> (
           <["max_features" := JNum mf]> (
           <["max_depth" := JNum md]> (
           <["min_samples_split" := JNum mss]> (
           <["min_samples_leaf" := JNum msl]> (
           <["min_rule_samples" := JNum mrs]> (
           <["label_threshold" := jsonOfOptional th]> ∅)))))))]>
         form_overrides)
  else inr form_overrides.

Definition backtestOverrides (f : FormState) (form_overrides : JsonObject)
  : SubmitError + JsonObject :=
  if useBacktestOverrides f then
    let pf := Js.Number (positionFraction f) in
    throw_if (negb (Js.isFinite pf) || (pf <=? 0)%js || (pf >? 1)%js)%bool
      error "回测参数：仓位比例需要在 (0, 1] 范围内。" ;;
    let pnText := Text.trim (positionNotional f) in
    let pn := optionalNumber pnText in
    throw_if (Text.truthy pnText
            && match pn with
               | Some n => negb (Js.isFinite n) || (n <=? 0)%js
               | None => true
               end)%bool
      error "回测参数：position_notional 需要是 > 0 的数字，或留空。" ;;
    let oi := Js.Number (orderIntervalMinutes f) in
    throw_if (notIntegerAtLeast 0 oi)
      error "回测参数：下单间隔需要是 >= 0 的整数（分钟）。" ;;
    let fr := Js.Number (feeRate f) in
    throw_if (negb (Js.isFinite fr) || (fr <? 0)%js)%bool
      error "回测参数：手续费费率需要是 >= 0 的数字。" ;;
    let sb := Js.Number (slippageBps f) in
    throw_if (negb (Js.isFinite sb) || (sb <? 0)%js)%bool
      error "回测参数：滑点需要是 >= 0 的数字（bps）。" ;;
    let lf := Js.Number (lookForwardBars f) in
    throw_if (notIntegerAtLeast 1 lf)
      error "回测参数：look_forward_bars 需要是 >= 1 的整数。" ;;
    let mrc := Js.Number (minRuleConfidence f) in
    throw_if (negb (Js.isFinite mrc) || (mrc <? 0)%js || (mrc >? 1)%js)%bool
      error "回测参数：min_rule_confidence 需要在 [0, 1] 范围内。" ;;
    let wp := Js.Number (winProfit f) in
    let lc := Js.Number (lossCost f) in
    let ib := Js.Number (initialBalance f) in
    throw_if (negb (Js.isFinite wp) || (wp <=? 0)%js)%bool
      error "回测参数：win_profit 需要是 > 0 的数字。" ;;
    throw_if (negb (Js.isFinite lc) || (lc <=? 0)%js)%bool
      error "回测参数：loss_cost 需要是 > 0 的数字。" ;;
    throw_if (negb (Js.isFinite ib) || (ib <=? 0)%js)%bool
      error "回测参数：initial_balance 需要是 > 0 的数字。" ;;
    inr (<["backtest_construction" := JObj (
           <["look_forward_bars" := JNum lf]> (
           <["pnl_mode" := JStr (pnlMode f)]> (
           <["backtest_type" := JStr (backtestType f)]> (
           <["filter_type" := JStr (backtestFilterType f)]> (
           <["position_fraction" := JNum pf]> (
           <["position_notional" := jsonOfOptional pn]> (
           <["order_interval_minutes" := JNum oi]> (
           <["fee_rate" := JNum fr]> (
           <["slippage_bps" := JNum sb]> (
           <["min_rule_confidence" := JNum mrc]> (
           <["win_profit" := JNum wp]> (
           <["loss_cost" := JNum lc]> (
           <["initial_balance" := JNum ib]> ∅)))))))))))))]>
         form_overrides)
  else inr form_overrides.

Definition walkForwardOverrides (f : FormState) (form_overrides : JsonObject)
  : SubmitError + JsonObject :=
  if useWalkForwardOverrides f then
    let train := Js.Number (trainBars f) in
    let test := Js.Number (testBars f) in
    let step := Js.Number (stepBars f) in
    let maxW := Js.Number (maxWindows f) in
    throw_if (notIntegerAtLeast 1 train)
      error "滚动验证参数：train_bars 需要是 >= 1 的整数。" ;;
    throw_if (notIntegerAtLeast 1 test)
      error "滚动验证参数：test_bars 需要是 >= 1 的整数。" ;;
    throw_if (notIntegerAtLeast 1 step)
      error "滚动验证参数：step_bars 需要是 >= 1 的整数。" ;;
    throw_if (notIntegerAtLeast 1 maxW)
      error "滚动验证参数：max_windows 需要是 >= 1 的整数。" ;;
    inr (<["walk_forward_evaluation" := JObj (
           <["enabled" := JBool (walkForwardEnabled f)]> (
           <["train_bars" := JNum train]> (
           <["test_bars" := JNum test]> (
           <["step_bars" := JNum step]> (
           <["max_windows" := JNum maxW]> ∅)))))]>
         form_overrides)
  else inr form_overrides.

Definition andThen {A B : Type} (x : SubmitError + A) (k : A -> SubmitError + B)
  : SubmitError + B :=
  match x with
  | inl e => inl e
  | inr a => k a
  end.

Notation "x >>= k" := (andThen x k) (at level 50, left associativity).

(** The per-stage form overrides, stage after stage in the order of the
    handler; the first failing check aborts. *)
Definition buildFormOverrides (f : FormState) : SubmitError + JsonObject :=
  featureOverrides f ∅
  >>= labelOverrides f
  >>= trainingOverrides f
  >>= interpretationOverrides f
  >>= analysisOverrides f
  >>= backtestOverrides f
  >>= walkForwardOverrides f.

Section Submit.

(** [JSON.parse] is the host's: its result on a text is taken as given,
    [None] when it throws. *)
Variable JSON_parse : string -> option JsonValue.

(** The free-form override box: [{}] when blank, else the parsed text. *)
Definition parseRawOverrides (f : FormState) : SubmitError + JsonValue :=
  if Text.truthy (Text.trim (overridesText f)) then
    match JSON_parse (overridesText f) with
    | Some v => inr v
    | None => inl SyntaxError
    end
  else inr (JObj ∅).

(** [onRun] up to the call of [api.runPipeline]: the request it sends, or
    the error it shows instead. *)
Definition onRun (f : FormState) : SubmitError + PipelineRunRequest :=
  parseRawOverrides f >>= fun config_overrides =>
  buildFormOverrides f >>= fun form_overrides =>
  let config_overrides := deepMerge config_overrides (JObj form_overrides) in
  inr {| workflow_name := "default";
         template_id :=
           if String.eqb (templateChoice f) TEMPLATE_NONE then None
           else if String.eqb (templateChoice f) TEMPLATE_AUTO then
             match defaultTemplateId f with
             | Some id => if Text.truthy id then Some id else None
             | None => None
             end
           else Some (templateChoice f);
         req_symbol := symbol f;
         start_date := startDate f;
         end_date := endDate f;
         req_interval := interval f;
         config_overrides := config_overrides |}.

End Submit.

(** The label checks of [onRerun] on the run-detail page, which validates
    every stage unconditionally. *)
Definition rerunLabelChecks (labelWindowInput labelLookForwardInput : string)
  : SubmitError + (Js.number * Js.number) :=
  let labelWindow := Js.Number labelWindowInput in
  let labelLookForward := Js.Number labelLookForwardInput in
  throw_if (notIntegerAtLeast 3 labelWindow)
    error "标签参数：window 需要是 >= 3 的整数。" ;;
  throw_if (Js.rem labelWindow 2 =? 0)%js
    error "标签参数：window 建议为奇数（例如 29）。" ;;
  throw_if (notIntegerAtLeast 1 labelLookForward)
    error "标签参数：look_forward 需要是 >= 1 的整数。" ;;
  inr (labelWindow, labelLookForward).

(** The initial state of the page. *)
Definition initialForm : FormState := {|
  symbol := "BTCUSDT"; startDate := "2025-01-01"; endDate := "2025-02-01";
  interval := "1m"; templateChoice := TEMPLATE_AUTO;
  defaultTemplateId := None; overridesText := "";
  useFeatureOverrides := false; alphaTypes := ["alpha158"];
  instrumentName := "";
  useLabelOverrides := false; labelWindow := "29"; labelLookForward := "10";
  labelType := "up"; labelFilterType := "rsi"; labelThreshold := "";
  useTrainingOverrides := false; numBoostRound := "500"; numThreads := "4";
  useInterpretationOverrides := false; shapMaxSamples := "5000";
  shapMaxDisplay := "20";
  useAnalysisOverrides := false; selectedFeaturesText := "";
  maxFeatures := "8"; maxDepth := "3"; minSamplesSplit := "100";
  minSamplesLeaf := "50"; minRuleSamples := "50";
  analysisLabelThreshold := "";
  useBacktestOverrides := false; positionFraction := "1.0";
  positionNotional := ""; orderIntervalMinutes := "30";
  lookForwardBars := "10"; pnlMode := "price"; backtestType := "long";
  backtestFilterType := "rsi"; minRuleConfidence := "0.0";
  winProfit := "4.0"; lossCost := "5.0"; initialBalance := "1000.0";
  feeRate := "0.0004"; slippageBps := "0";
  useWalkForwardOverrides := false; walkForwardEnabled := true;
  trainBars := "20000"; testBars := "5000"; stepBars := "5000";
  maxWindows := "10"
|}.

(** ** The backtest assessment (run-detail page) *)

(** JavaScript truthiness. *)
Definition numberTruthy (n : Js.number) : bool :=
  match n with
  | Js.NaN => false
  | Js.Fin q => negb (Qeq_bool q 0)
  | _ => true
  end.

Definition jsonTruthy (v : JsonValue) : bool :=
  match v with
  | JNull => false
  | JBool b => b
  | JNum n => numberTruthy n
  | JStr s => Text.truthy s
  | JArr _ | JObj _ => true
  end.

(** [value?.name] for a named (non-index) property: only objects have
    one. *)
Definition getField (value : JsonValue) (name : string) : option JsonValue :=
  match value with
  | JObj fields => fields !! name
  | _ => None
  end.

Definition toNumber (value : option JsonValue) : option Js.number :=
  match value with
  | Some (JNum n) => if Js.isFinite n then Some n else None
  | Some (JStr s) =>
      let n := Js.Number s in
      if Js.isFinite n then Some n else None
  | _ => None
  end.

Inductive BadgeVariant : Type := secondary | success | destructive.

Record Verdict : Type := {
  label : string;
  variant : BadgeVariant
}.

(** The summary shown above the backtest charts.  Its [lines], which only
    format the numbers for display, are not part of the model. *)
Record Assessment : Type := {
  tips : list string;
  warnings : list string;
  verdict : Verdict;
  headline : string;
  next : list string
}.

(** [cond ? [message] : []], for the conditional [push]es. *)
Definition pushIf (cond : bool) (message : string) : list string :=
  if cond then [message] else [].

Definition feeRatioOf (initialBalance feesPaid : option Js.number)
  : option Js.number :=
  match initialBalance, feesPaid with
  | Some ib, Some fp =>
      if (numberTruthy ib && Js.isFinite ib && (ib >? 0)%js)%bool
      then Some (fp / ib)%js else None
  | _, _ => None
  end.

(** The additive score of the verdict. *)
Definition score (profitRate maxDrawdown totalTrades feeRatio : option Js.number)
  : Z :=
  let s := 0 in
  let s := match profitRate with
           | Some p => s + (if (p >? 0)%js then 2 else -2)
           | None => s
           end in
  let s := match maxDrawdown with
           | Some d =>
               if (d <? Js.norm (1 # 10))%js then s + 2
               else if (d <? Js.norm (2 # 10))%js then s + 1
               else if (d >? Js.norm (3 # 10))%js then s - 2
               else s - 1
           | None => s
           end in
  let s := match totalTrades with
           | Some t =>
               if (t >=? 100)%js then s + 2
               else if (t >=? 30)%js then s + 1
               else if (t <? 10)%js then s - 2
               else s - 1
           | None => s
           end in
  let s := match feeRatio with
           | Some r =>
               if (r <? Js.norm (2 # 100))%js then s + 1
               else if (r >? Js.norm (1 # 10))%js then s - 2
               else if (r >? Js.norm (3 # 100))%js then s - 1
               else s
           | None => s
           end in
  s.

Definition verdictOf (profitRate : option Js.number) (score : Z) : Verdict :=
  match profitRate with
  | None => {| label := "暂无结果"; variant := secondary |}
  | Some _ =>
      if 3 <=? score then {| label := "看起来不错"; variant := success |}
      else if 0 <=? score
           then {| label := "一般（建议继续验证）"; variant := secondary |}
      else {| label := "偏弱（建议先优化）"; variant := destructive |}
  end.

Definition ltOpt (x : option Js.number) (bound : Js.number) : bool :=
  match x with Some v => (v <? bound)%js | None => false end.
Definition gtOpt (x : option Js.number) (bound : Js.number) : bool :=
  match x with Some v => (v >? bound)%js | None => false end.

(** [walkForwardStatus && String(walkForwardStatus) !== "success"]; the
    status and the reason are strings when present. *)
Definition walkForwardFailed (walkForwardStatus : option string) : bool :=
  match walkForwardStatus with
  | Some st => (Text.truthy st && negb (String.eqb st "success"))%bool
  | None => false
  end.

Definition backtestSummary (backtestStats walkForwardOverall : option JsonValue)
  (walkForwardReason walkForwardStatus : option string) : option Assessment :=
  match backtestStats with
  | None => None
  | Some stats =>
    if negb (jsonTruthy stats) then None else
    let profitRate := toNumber (getField stats "profit_rate") in
    let maxDrawdown := toNumber (getField stats "max_drawdown") in
    let totalTrades := toNumber (getField stats "total_trades") in
    let initialBalance := toNumber (getField stats "initial_balance") in
    let feesPaid := toNumber (getField stats "fees_paid") in
    let feeRatio := feeRatioOf initialBalance feesPaid in
    let tips :=
      match profitRate with
      | Some p =>
          [if (p >? 0)%js then "这段时间内回测结果是盈利的（不代表未来）。"
           else "这段时间内回测结果是亏损的（不代表一定不可用）。"]
      | None => []
      end in
    let warnings :=
     (match maxDrawdown with
      | Some d =>
          if (d >? Js.norm (3 # 10))%js then ["回撤很大：波动/风险偏高。"]
          else pushIf (d >? Js.norm (2 # 10))%js "回撤偏大：风险不低。"
      | None => []
      end
      ++ match totalTrades with
         | Some t =>
             if (t <? 10)%js then ["交易次数很少：结论很不稳定。"]
             else pushIf (t <? 30)%js "交易次数偏少：建议拉长时间再看。"
         | None => []
         end
      ++ match feeRatio with
         | Some r =>
             if (r >? Js.norm (1 # 10))%js
             then ["手续费占比很高：可能被成本吃掉收益。"]
             else pushIf (r >? Js.norm (3 # 100))%js
                    "手续费占比偏高：需要关注交易频率与成本假设。"
         | None => []
         end)%list in
    let '(warnings, tips) :=
      if walkForwardFailed walkForwardStatus then
        ((warnings ++
            ["滚动验证未产出：" +:+
               match walkForwardReason with
               | Some r => if Text.truthy r then r else "已跳过"
               | None => "已跳过"
               end])%list,
         tips)
      else
        match walkForwardOverall with
        | Some overall =>
            if jsonTruthy overall then
              let windows := toNumber (getField overall "windows") in
              let profitableWindows :=
                toNumber (getField overall "profitable_windows") in
              match windows, profitableWindows with
              | Some w, Some pw =>
                  if (numberTruthy w && (w >? 0)%js)%bool then
                    let ratio := (pw / w)%js in
                    (warnings,
                     (tips ++
                        [if (ratio >=? Js.norm (7 # 10))%js
                         then "滚动验证大多数窗口盈利：稳定性相对更好。"
                         else "滚动验证盈利窗口不多：稳定性一般。"])%list)
                  else (warnings, tips)
              | _, _ => (warnings, tips)
              end
            else (warnings, tips)
        | None => (warnings, tips)
        end in
    let score := score profitRate maxDrawdown totalTrades feeRatio in
    let verdict := verdictOf profitRate score in
    let headlineParts :=
     (match profitRate with
      | Some p => [if (p >? 0)%js then "赚钱" else "亏钱"]
      | None => []
      end
      ++ match maxDrawdown with
         | Some d => [if (d >? Js.norm (2 # 10))%js then "回撤偏大" else "回撤可控"]
         | None => []
         end
      ++ match totalTrades with
         | Some t => [if (t <? 30)%js then "样本偏少" else "样本量还行"]
         | None => []
         end)%list in
    let headline :=
      if (0 <? length headlineParts)%nat
      then "一句话：这次回测 " +:+ String.concat " · " headlineParts +:+ "。"
      else "一句话：回测已完成。" in
    let next :=
     (pushIf (ltOpt totalTrades 30)
        "把时间范围拉长（例如 3~6 个月）再回测一次，先把样本做大。"
      ++ pushIf (gtOpt maxDrawdown (Js.norm (2 # 10)))
           "先把仓位比例调小（例如 50% 或更低），观察回撤是否明显改善。"
      ++ pushIf (gtOpt feeRatio (Js.norm (3 # 100)))
           "如果手续费占比高：尝试减少交易频率（加大 order_interval 或提高过滤阈值）。"
      ++ pushIf (walkForwardFailed walkForwardStatus)
           "滚动验证提示数据不足：要么拉长时间范围，要么把窗口参数调小再试。")%list in
    Some {| tips := tips; warnings := warnings; verdict := verdict;
            headline := headline; next := next |}
  end.

(** ** recommendations.ts, the remaining functions *)

(** [Math.round]: the nearest integer, a half rounding up. *)
Definition Math_round (x : Js.number) : Js.number :=
  Js.floor (x + Js.Fin (1 # 2))%js.

Section DurationText.

(** The text of a number in a template literal is the host's
    [Number::toString], taken as given. *)
Variable numberText : Js.number -> string.

Definition formatBarsToApproxDuration (bars : Js.number) (interval : string)
  : string :=
  match parseIntervalToMinutes interval with
  | None => numberText (Math_round bars) ++ " bars"
  | Some minutesPerBar =>
      let totalMinutes := (Js.max 0 bars * minutesPerBar)%js in
      let days := (totalMinutes / (24 * 60))%js in
      if (days >=? 2)%js then "≈ " ++ numberText (Math_round days) ++ " 天"
      else
        let hours := (totalMinutes / 60)%js in
        if (hours >=? 2)%js
        then "≈ " ++ numberText (Math_round hours) ++ " 小时"
        else "≈ " ++ numberText (Math_round totalMinutes) ++ " 分钟"
  end.

End DurationText.

(** The texts are compared after [toLowerCase]; only ASCII letters can
    become one of the letters of ["rsi"], ["cti"] or ["down"]. *)
Definition recommendLabelThreshold (filterType labelType : string)
  : option Js.number :=
  let f := toLowerCase filterType in
  let t := toLowerCase labelType in
  if String.eqb f "rsi" then Some (if String.eqb t "down" then 70 else 30)%js
  else if String.eqb f "cti"
  then Some (if String.eqb t "down" then Js.Fin (1 # 2) else Js.Fin (-1 # 2))
  else None.

(** ** The base configuration of the home page (HomePage.tsx) *)

Definition DEFAULT_PIPELINE_CONFIG : JsonObject :=
  list_to_map [
    ("steps", jsonStrings [
       "data_download"; "feature_calculation"; "label_calculation";
       "model_training"; "model_interpretation"; "model_analysis";
       "backtest_construction"; "walk_forward_evaluation"]);
    ("data_download", JObj (list_to_map [
       ("symbol", JStr ""); ("start_date", JStr ""); ("end_date", JStr "");
       ("interval", JStr "1m"); ("proxy", JNull)]));
    ("feature_calculation", JObj (list_to_map [
       ("alpha_types", jsonStrings ["alpha158"]);
       ("instrument_name", JNull)]));
    ("label_calculation", JObj (list_to_map [
       ("window", JNum 29); ("look_forward", JNum 10);
       ("label_type", JStr "up"); ("filter_type", JStr "rsi");
       ("threshold", JNull)]));
    ("model_training", JObj (list_to_map [
       ("num_boost_round", JNum 500); ("num_threads", JNum 4)]));
    ("model_interpretation", JObj (list_to_map [
       ("max_samples", JNum 5000); ("max_display", JNum 20)]));
    ("model_analysis", JObj (list_to_map [
       ("selected_features", JNull); ("max_features", JNum 8);
       ("max_depth", JNum 3); ("min_samples_split", JNum 100);
       ("min_samples_leaf", JNum 50); ("min_rule_samples", JNum 50);
       ("label_threshold", JNull)]));
    ("backtest_construction", JObj (list_to_map [
       ("look_forward_bars", JNum 10); ("win_profit", JNum 4);
       ("loss_cost", JNum 5); ("initial_balance", JNum 1000);
       ("pnl_mode", JStr "price"); ("fee_rate", JNum (Js.Fin (1 # 2500)));
       ("slippage_bps", JNum 0); ("position_fraction", JNum 1);
       ("position_notional", JNull); ("backtest_type", JStr "long");
       ("filter_type", JStr "rsi"); ("order_interval_minutes", JNum 30);
       ("min_rule_confidence", JNum 0)]));
    ("walk_forward_evaluation", JObj (list_to_map [
       ("enabled", JBool true); ("train_bars", JNum 20000);
       ("test_bars", JNum 5000); ("step_bars", JNum 5000);
       ("max_windows", JNum 10)]))
  ].

Module Template.

(** [PipelineTemplateResponse] (types.ts). *)
Record response : Type := {
  template_id : string;
  name : string;
  config : JsonObject;
  is_default : bool;
  created_at : string;
  updated_at : string
}.

End Template.

(** [templates.find((t) => t.is_default)] *)
Definition defaultTemplate (templates : list Template.response) : option Template.response :=
  head (List.filter Template.is_default templates).

Definition selectedTemplate (templateChoice : string)
  (templates : list Template.response) : option Template.response :=
  if String.eqb templateChoice TEMPLATE_NONE then None
  else if String.eqb templateChoice TEMPLATE_AUTO then defaultTemplate templates
  else head (List.filter
               (fun t => String.eqb (Template.template_id t) templateChoice)
               templates).

(** The properties a spread [...value] copies, nothing when the value is
    absent. *)
Definition spread (value : option JsonValue) : JsonObject :=
  match value with
  | Some v => ownProperties v
  | None => ∅
  end.

Definition basePipelineConfig (selectedTemplate : option Template.response)
  (symbol startDate endDate interval : string) : JsonObject :=
  let merged :=
    deepMerge (JObj DEFAULT_PIPELINE_CONFIG)
              (JObj (match selectedTemplate with
                     | Some t => Template.config t
                     | None => ∅
                     end)) in
  deepMerge (JObj merged)
    (JObj {[ "data_download" :=
               JObj (<["interval" := JStr interval]> (
                     <["end_date" := JStr endDate]> (
                     <["start_date" := JStr startDate]> (
                     <["symbol" := JStr symbol]> (
                     spread (merged !! "data_download")))))) ]}).

(** ** The derived values of the home page (HomePage.tsx) *)

(** The memo [recommendedWalkForward]: no plan without bars. *)
Definition recommendedWalkForward (estimatedTotalBars : option Js.number)
  : option WindowPlan :=
  match estimatedTotalBars with
  | None => None
  | Some n => if (n <=? 0)%js then None else Some (recommendWalkForward n)
  end.

(** The memo [expectedWindows], from the estimate and the three texts of
    the walk-forward form. *)
Definition expectedWindows (estimatedTotalBars : option Js.number)
  (trainBars testBars stepBars : string) : option Js.number :=
  let totalBars := estimatedTotalBars in
  let train := Js.Number trainBars in
  let test := Js.Number testBars in
  let step := Js.Number stepBars in
  match totalBars with
  | None => None
  | Some totalBars =>
      if (negb (Js.isFinite train) || negb (Js.isFinite test)
          || negb (Js.isFinite step))%bool then None
      else calcExpectedWindows totalBars train test step
  end.

(** ** The run-detail page: helpers *)

(** [text.replace("T", " ")]: the first occurrence only. *)
Fixpoint replaceFirstT (text : string) : string :=
  match text with
  | EmptyString => EmptyString
  | String c rest =>
      if Ascii.eqb c "T" then String " " rest
      else String c (replaceFirstT rest)
  end.

(** Lengths and positions count bytes, which are the characters of a
    timestamp. *)
Definition formatDatetimeCompact (value : option string) : string :=
  let text := replaceFirstT (default "" value) in
  if (16 <=? String.length text)%nat then String.substring 5 11 text
  else text.

(** [Array.prototype.sort] with a comparator: the sort is stable, so on a
    consistent comparator its result is that of inserting the elements one
    after the other, each behind the elements it does not precede. *)
Section Sort.

Context {A : Type} (compare : A -> A -> Js.number).

Fixpoint insertSorted (x : A) (sorted : list A) : list A :=
  match sorted with
  | [] => [x]
  | y :: rest =>
      if (compare y x >? 0)%js then x :: sorted
      else y :: insertSorted x rest
  end.

Definition sortWith (items : list A) : list A :=
  foldl (fun sorted x => insertSorted x sorted) [] items.

End Sort.

(** [typeof value === "object"] for a truthy value. *)
Definition isObjectType (value : JsonValue) : bool :=
  match value with
  | JObj _ | JArr _ => true
  | _ => false
  end.

Section Shap.

(** [Object.entries] lists the properties in the order the host keeps
    them; the order is the host's. *)
Variable Object_entries : JsonValue -> list (string * JsonValue).

Definition shapTopFeatures (shapMeta : option JsonValue)
  : list (string * Js.number) :=
  let top :=
    match shapMeta with
    | Some meta =>
        if (jsonTruthy meta && isObjectType meta)%bool
        then getField meta "top20_importance" else None
    | None => None
    end in
  match top with
  | Some top =>
      if (negb (jsonTruthy top) || negb (isObjectType top))%bool then []
      else
        take 10
          (sortWith (fun a b => (b.2 - a.2)%js)
             (omap (fun kv => pair kv.1 <$> toNumber (Some kv.2))
                   (Object_entries top)))
  | None => []
  end.

End Shap.

(** ** Module state persistence (useModuleState.js, stores/moduleStates.js) *)

(** [JSON.parse(JSON.stringify(value))] on a JSON value: a number that is
    not finite is written as [null], everything else comes back as it
    was. *)
Fixpoint cloneJson (value : JsonValue) : JsonValue :=
  match value with
  | JNum n => if Js.isFinite n then JNum n else JNull
  | JArr items => JArr (cloneJson <$> items)
  | JObj fields => JObj (cloneJson <$> fields)
  | JNull | JBool _ | JStr _ => value
  end.

Module ModuleStates.

(** The seven state refs of the store. *)
Record store : Type := {
  dataDownloadState : JsonObject;
  featureCalculationState : JsonObject;
  modelTrainingState : JsonObject;
  modelInterpretationState : JsonObject;
  modelAnalysisState : JsonObject;
  backtestConstructionState : JsonObject;
  backtestExecutionState : JsonObject
}.

(** [{ ...old, ...state }]: the saved keys replace the old ones, the other
    keys stay. *)
Definition merged (old state : JsonObject) : JsonObject := state ∪ old.

Definition saveDataDownloadState (state : JsonObject) (s : store) : store :=
  {| dataDownloadState := merged (dataDownloadState s) state;
     featureCalculationState := featureCalculationState s;
     modelTrainingState := modelTrainingState s;
     modelInterpretationState := modelInterpretationState s;
     modelAnalysisState := modelAnalysisState s;
     backtestConstructionState := backtestConstructionState s;
     backtestExecutionState := backtestExecutionState s |}.

Definition saveFeatureCalculationState (state : JsonObject) (s : store) : store :=
  {| dataDownloadState := dataDownloadState s;
     featureCalculationState := merged (featureCalculationState s) state;
     modelTrainingState := modelTrainingState s;
     modelInterpretationState := modelInterpretationState s;
     modelAnalysisState := modelAnalysisState s;
     backtestConstructionState := backtestConstructionState s;
     backtestExecutionState := backtestExecutionState s |}.

Definition saveModelTrainingState (state : JsonObject) (s : store) : store :=
  {| dataDownloadState := dataDownloadState s;
     featureCalculationState := featureCalculationState s;
     modelTrainingState := merged (modelTrainingState s) state;
     modelInterpretationState := modelInterpretationState s;
     modelAnalysisState := modelAnalysisState s;
     backtestConstructionState := backtestConstructionState s;
     backtestExecutionState := backtestExecutionState s |}.

Definition saveModelInterpretationState (state : JsonObject) (s : store) : store :=
  {| dataDownloadState := dataDownloadState s;
     featureCalculationState := featureCalculationState s;
     modelTrainingState := modelTrainingState s;
     modelInterpretationState := merged (modelInterpretationState s) state;
     modelAnalysisState := modelAnalysisState s;
     backtestConstructionState := backtestConstructionState s;
     backtestExecutionState := backtestExecutionState s |}.

Definition saveModelAnalysisState (state : JsonObject) (s : store) : store :=
  {| dataDownloadState := dataDownloadState s;
     featureCalculationState := featureCalculationState s;
     modelTrainingState := modelTrainingState s;
     modelInterpretationState := modelInterpretationState s;
     modelAnalysisState := merged (modelAnalysisState s) state;
     backtestConstructionState := backtestConstructionState s;
     backtestExecutionState := backtestExecutionState s |}.

Definition saveBacktestConstructionState (state : JsonObject) (s : store) : store :=
  {| dataDownloadState := dataDownloadState s;
     featureCalculationState := featureCalculationState s;
     modelTrainingState := modelTrainingState s;
     modelInterpretationState := modelInterpretationState s;
     modelAnalysisState := modelAnalysisState s;
     backtestConstructionState := merged (backtestConstructionState s) state;
     backtestExecutionState := backtestExecutionState s |}.

Definition saveBacktestExecutionState (state : JsonObject) (s : store) : store :=
  {| dataDownloadState := dataDownloadState s;
     featureCalculationState := featureCalculationState s;
     modelTrainingState := modelTrainingState s;
     modelInterpretationState := modelInterpretationState s;
     modelAnalysisState := modelAnalysisState s;
     backtestConstructionState := backtestConstructionState s;
     backtestExecutionState := merged (backtestExecutionState s) state |}.

Definition resetDataDownloadState (s : store) : store :=
  {| dataDownloadState :=
       list_to_map [
         ("form", JObj (list_to_map [
            ("symbol", JStr "ETHUSDT"); ("startDate", JStr "");
            ("endDate", JStr ""); ("interval", JStr "1m");
            ("proxy", JStr "http://127.0.0.1:10808")]));
         ("taskId", JStr ""); ("taskStatus", JStr ""); ("progress", JNull);
         ("statusMessage", JStr ""); ("result", JNull); ("files", JArr []);
         ("previewDialogVisible", JBool false); ("previewData", JNull)];
     featureCalculationState := featureCalculationState s;
     modelTrainingState := modelTrainingState s;
     modelInterpretationState := modelInterpretationState s;
     modelAnalysisState := modelAnalysisState s;
     backtestConstructionState := backtestConstructionState s;
     backtestExecutionState := backtestExecutionState s |}.

Definition resetAllStates (s : store) : store := resetDataDownloadState s.

(** A member of the store read by name: one of the states, one of the
    functions, or nothing.  The members the store library adds have names
    that start with [$] or [_]; the names read here end in [State] or
    start with [save]. *)
Inductive member : Type :=
| State (state : JsonObject)
| Method (call : JsonObject -> store -> store)
| Undefined.

Definition get (s : store) (key : string) : member :=
  if String.eqb key "dataDownloadState" then State (dataDownloadState s)
  else if String.eqb key "featureCalculationState"
  then State (featureCalculationState s)
  else if String.eqb key "modelTrainingState" then State (modelTrainingState s)
  else if String.eqb key "modelInterpretationState"
  then State (modelInterpretationState s)
  else if String.eqb key "modelAnalysisState" then State (modelAnalysisState s)
  else if String.eqb key "backtestConstructionState"
  then State (backtestConstructionState s)
  else if String.eqb key "backtestExecutionState"
  then State (backtestExecutionState s)
  else if String.eqb key "saveDataDownloadState"
  then Method saveDataDownloadState
  else if String.eqb key "saveFeatureCalculationState"
  then Method saveFeatureCalculationState
  else if String.eqb key "saveModelTrainingState"
  then Method saveModelTrainingState
  else if String.eqb key "saveModelInterpretationState"
  then Method saveModelInterpretationState
  else if String.eqb key "saveModelAnalysisState"
  then Method saveModelAnalysisState
  else if String.eqb key "saveBacktestConstructionState"
  then Method saveBacktestConstructionState
  else if String.eqb key "saveBacktestExecutionState"
  then Method saveBacktestExecutionState
  else if String.eqb key "resetDataDownloadState"
  then Method (fun _ => resetDataDownloadState)
  else if String.eqb key "resetAllStates" then Method (fun _ => resetAllStates)
  else Undefined.

End ModuleStates.

(** [text.charAt(0).toUpperCase() + text.slice(1)] *)
Definition toUpper (c : ascii) : ascii :=
  let n := Text.code c in
  if ((97 <=? n) && (n <=? 122))%N then ascii_of_N (n - 32) else c.

Definition capitalize (text : string) : string :=
  match text with
  | EmptyString => EmptyString
  | String c rest => String (toUpper c) rest
  end.

(** The refs handed to [useModuleState], by key, each with its value, a
    JSON value. *)
Abbreviation StateRefs := (gmap string JsonValue).

(** [saveState]: the store afterwards. *)
Definition saveState (moduleName : string) (stateRefs : StateRefs)
  (moduleStore : ModuleStates.store) : ModuleStates.store :=
  let state := cloneJson <$> stateRefs in
  let saveMethod := "save" ++ capitalize moduleName ++ "State" in
  match ModuleStates.get moduleStore saveMethod with
  | ModuleStates.Method save => save state moduleStore
  | _ => moduleStore
  end.

(** [restoreState]: the refs afterwards.  When the state key names a
    function of the store, what the function object holds under the keys of
    the refs is the host's, and there is no result. *)
Definition restoreState (moduleName : string) (stateRefs : StateRefs)
  (moduleStore : ModuleStates.store) : option StateRefs :=
  let stateKey := moduleName ++ "State" in
  match ModuleStates.get moduleStore stateKey with
  | ModuleStates.State savedState =>
      Some (map_imap (fun key value =>
                        Some (match savedState !! key with
                              | Some saved => cloneJson saved
                              | None => value
                              end)) stateRefs)
  | ModuleStates.Method _ => None
  | ModuleStates.Undefined => Some stateRefs
  end.

(** ** The rerun handler [onRerun] (run-detail page) *)

(** The inputs of the rerun form. *)
Record RerunForm : Type := {
  rerunSymbol : string;
  rerunStartDate : string;
  rerunEndDate : string;
  rerunInterval : string;

  alphaTypesInput : list string;
  instrumentNameInput : string;

  labelWindowInput : string;
  labelLookForwardInput : string;
  labelTypeInput : string;
  labelFilterTypeInput : string;
  labelThresholdInput : string;

  numBoostRoundInput : string;
  numThreadsInput : string;

  shapMaxSamplesInput : string;
  shapMaxDisplayInput : string;

  selectedFeaturesTextInput : string;
  maxFeaturesInput : string;
  maxDepthInput : string;
  minSamplesSplitInput : string;
  minSamplesLeafInput : string;
  minRuleSamplesInput : string;
  analysisLabelThresholdInput : string;

  lookForwardBarsInput : string;
  pnlModeInput : string;
  backtestTypeInput : string;
  backtestFilterTypeInput : string;
  minRuleConfidenceInput : string;
  winProfitInput : string;
  lossCostInput : string;
  initialBalanceInput : string;
  positionFractionInput : string;
  positionNotionalInput : string;
  orderIntervalMinutesInput : string;
  feeRateInput : string;
  slippageBpsInput : string;

  walkForwardEnabledInput : bool;
  trainBarsInput : string;
  testBarsInput : string;
  stepBarsInput : string;
  maxWindowsInput : string
}.

(** [config.key = { ...(config.key ?? {}), fields }]: the stage object is
    rebuilt from what it held, with the given fields on top. *)
Definition assignStage (key : string) (fields : JsonObject -> JsonObject)
  (config_overrides : JsonObject) : JsonObject :=
  <[key := JObj (fields (spread (config_overrides !! key)))]> config_overrides.

(** [onRerun] up to the call of [api.runPipeline].  The configuration of
    the run is [pipeline?.config], absent when there is none.  The two
    dates are compared by [>] as sequences of bytes; this is the order of
    the code points, which is the order of [>] on every text without
    characters beyond the Basic Multilingual Plane, dates among them.  The
    request carries the own properties of the object that is sent. *)
Definition onRerun (cfg : option JsonValue) (f : RerunForm)
  : SubmitError + PipelineRunRequest :=
  throw_if (match cfg with
            | Some c => (negb (jsonTruthy c) || negb (isObjectType c))%bool
            | None => true
            end)
    error "当前 run 缺少 pipeline.config，无法重跑。" ;;
  let symbol := Text.trim (rerunSymbol f) in
  let startDate := Text.trim (rerunStartDate f) in
  let endDate := Text.trim (rerunEndDate f) in
  let interval := Text.trim (rerunInterval f) in
  throw_if (Text.isEmpty symbol) error "币种不能为空。" ;;
  throw_if (Text.isEmpty startDate) error "开始日期不能为空。" ;;
  throw_if (Text.isEmpty endDate) error "结束日期不能为空。" ;;
  throw_if (String.ltb endDate startDate) error "开始日期不能晚于结束日期。" ;;
  throw_if (Text.isEmpty interval) error "周期不能为空。" ;;
  let alphaTypes := cleanList (alphaTypesInput f) in
  throw_if (length alphaTypes =? 0)%nat error "alpha_types 至少选择 1 个。" ;;
  let instrumentName :=
    if Text.truthy (Text.trim (instrumentNameInput f))
    then JStr (Text.trim (instrumentNameInput f)) else JNull in
  rerunLabelChecks (labelWindowInput f) (labelLookForwardInput f)
  >>= fun '(labelWindow, labelLookForward) =>
  let labelType := Text.trim (labelTypeInput f) in
  let labelFilterType := Text.trim (labelFilterTypeInput f) in
  let labelThresholdText := Text.trim (labelThresholdInput f) in
  let labelThreshold := optionalNumber labelThresholdText in
  throw_if (optionalNotFinite labelThresholdText labelThreshold)
    error "标签参数：threshold 需要是数字，或留空使用默认值。" ;;
  let numBoostRound := Js.Number (numBoostRoundInput f) in
  let numThreads := Js.Number (numThreadsInput f) in
  throw_if (notIntegerAtLeast 1 numBoostRound)
    error "训练参数：num_boost_round 需要是 >= 1 的整数。" ;;
  throw_if (notIntegerAtLeast 1 numThreads)
    error "训练参数：num_threads 需要是 >= 1 的整数。" ;;
  let shapMaxSamples := Js.Number (shapMaxSamplesInput f) in
  let shapMaxDisplay := Js.Number (shapMaxDisplayInput f) in
  throw_if (notIntegerAtLeast 1 shapMaxSamples)
    error "解释参数：max_samples 需要是 >= 1 的整数。" ;;
  throw_if (notIntegerAtLeast 1 shapMaxDisplay)
    error "解释参数：max_display 需要是 >= 1 的整数。" ;;
  let maxFeatures := Js.Number (maxFeaturesInput f) in
  let maxDepth := Js.Number (maxDepthInput f) in
  let minSamplesSplit := Js.Number (minSamplesSplitInput f) in
  let minSamplesLeaf := Js.Number (minSamplesLeafInput f) in
  let minRuleSamples := Js.Number (minRuleSamplesInput f) in
  throw_if (notIntegerAtLeast 1 maxFeatures)
    error "规则参数：max_features 需要是 >= 1 的整数。" ;;
  throw_if (notIntegerAtLeast 1 maxDepth)
    error "规则参数：max_depth 需要是 >= 1 的整数。" ;;
  throw_if (notIntegerAtLeast 2 minSamplesSplit)
    error "规则参数：min_samples_split 需要是 >= 2 的整数。" ;;
  throw_if (notIntegerAtLeast 1 minSamplesLeaf)
    error "规则参数：min_samples_leaf 需要是 >= 1 的整数。" ;;
  throw_if (notIntegerAtLeast 1 minRuleSamples)
    error "规则参数：min_rule_samples 需要是 >= 1 的整数。" ;;
  let analysisLabelThresholdText := Text.trim (analysisLabelThresholdInput f) in
  let analysisLabelThreshold := optionalNumber analysisLabelThresholdText in
  throw_if (optionalNotFinite analysisLabelThresholdText analysisLabelThreshold)
    error "规则参数：label_threshold 需要是数字，或留空使用自动值。" ;;
  let selectedFeatures :=
    cleanList (splitLines EmptyString (selectedFeaturesTextInput f)) in
  let positionFraction := Js.Number (positionFractionInput f) in
  throw_if (negb (Js.isFinite positionFraction) || (positionFraction <=? 0)%js
            || (positionFraction >? 1)%js)%bool
    error "仓位比例需要在 (0, 1] 范围内。" ;;
  let positionNotionalText := Text.trim (positionNotionalInput f) in
  let positionNotional := optionalNumber positionNotionalText in
  throw_if (Text.truthy positionNotionalText
            && match positionNotional with
               | Some n => negb (Js.isFinite n) || (n <=? 0)%js
               | None => true
               end)%bool
    error "固定名义仓位需要是 > 0 的数字，或留空。" ;;
  let orderIntervalMinutes := Js.Number (orderIntervalMinutesInput f) in
  throw_if (notIntegerAtLeast 0 orderIntervalMinutes)
    error "下单间隔需要是 >= 0 的整数（分钟）。" ;;
  let feeRate := Js.Number (feeRateInput f) in
  throw_if (negb (Js.isFinite feeRate) || (feeRate <? 0)%js)%bool
    error "手续费费率需要是 >= 0 的数字。" ;;
  let slippageBps := Js.Number (slippageBpsInput f) in
  throw_if (negb (Js.isFinite slippageBps) || (slippageBps <? 0)%js)%bool
    error "滑点需要是 >= 0 的数字（bps）。" ;;
  let lookForwardBars := Js.Number (lookForwardBarsInput f) in
  throw_if (notIntegerAtLeast 1 lookForwardBars)
    error "look_forward_bars 需要是 >= 1 的整数。" ;;
  let minRuleConfidence := Js.Number (minRuleConfidenceInput f) in
  throw_if (negb (Js.isFinite minRuleConfidence) || (minRuleConfidence <? 0)%js
            || (minRuleConfidence >? 1)%js)%bool
    error "min_rule_confidence 需要在 [0, 1] 范围内。" ;;
  let winProfit := Js.Number (winProfitInput f) in
  let lossCost := Js.Number (lossCostInput f) in
  let initialBalance := Js.Number (initialBalanceInput f) in
  throw_if (negb (Js.isFinite winProfit) || (winProfit <=? 0)%js)%bool
    error "win_profit 需要是 > 0 的数字。" ;;
  throw_if (negb (Js.isFinite lossCost) || (lossCost <=? 0)%js)%bool
    error "loss_cost 需要是 > 0 的数字。" ;;
  throw_if (negb (Js.isFinite initialBalance) || (initialBalance <=? 0)%js)%bool
    error "initial_balance 需要是 > 0 的数字。" ;;
  let trainBars := Js.Number (trainBarsInput f) in
  let testBars := Js.Number (testBarsInput f) in
  let stepBars := Js.Number (stepBarsInput f) in
  let maxWindows := Js.Number (maxWindowsInput f) in
  throw_if (notIntegerAtLeast 1 trainBars)
    error "train_bars 需要是 >= 1 的整数。" ;;
  throw_if (notIntegerAtLeast 1 testBars)
    error "test_bars 需要是 >= 1 的整数。" ;;
  throw_if (notIntegerAtLeast 1 stepBars)
    error "step_bars 需要是 >= 1 的整数。" ;;
  throw_if (notIntegerAtLeast 1 maxWindows)
    error "max_windows 需要是 >= 1 的整数。" ;;
  let config_overrides := spread (cloneJson <$> cfg) in
  let config_overrides :=
    assignStage "data_download" (fun rest =>
        <["symbol" := JStr symbol]> (
        <["start_date" := JStr startDate]> (
        <["end_date" := JStr endDate]> (
        <["interval" := JStr interval]> (
        rest)))))
      config_overrides in
  let config_overrides :=
    assignStage "feature_calculation" (fun rest =>
        <["alpha_types" := jsonStrings alphaTypes]> (
        <["instrument_name" := instrumentName]> (
        rest)))
      config_overrides in
  let config_overrides :=
    assignStage "label_calculation" (fun rest =>
        <["window" := JNum labelWindow]> (
        <["look_forward" := JNum labelLookForward]> (
        <["label_type" := JStr labelType]> (
        <["filter_type" := JStr labelFilterType]> (
        <["threshold" := jsonOfOptional labelThreshold]> (
        rest))))))
      config_overrides in
  let config_overrides :=
    assignStage "model_training" (fun rest =>
        <["num_boost_round" := JNum numBoostRound]> (
        <["num_threads" := JNum numThreads]> (
        rest)))
      config_overrides in
  let config_overrides :=
    assignStage "model_interpretation" (fun rest =>
        <["max_samples" := JNum shapMaxSamples]> (
        <["max_display" := JNum shapMaxDisplay]> (
        rest)))
      config_overrides in
  let config_overrides :=
    assignStage "model_analysis" (fun rest =>
        <["selected_features" :=
            if (0 <? length selectedFeatures)%nat
            then jsonStrings selectedFeatures else JNull]> (
        <["max_features" := JNum maxFeatures]> (
        <["max_depth" := JNum maxDepth]> (
        <["min_samples_split" := JNum minSamplesSplit]> (
        <["min_samples_leaf" := JNum minSamplesLeaf]> (
        <["min_rule_samples" := JNum minRuleSamples]> (
        <["label_threshold" := jsonOfOptional analysisLabelThreshold]> (
        rest))))))))
      config_overrides in
  let config_overrides :=
    assignStage "backtest_construction" (fun rest =>
        <["look_forward_bars" := JNum lookForwardBars]> (
        <["pnl_mode" := JStr (pnlModeInput f)]> (
        <["backtest_type" := JStr (backtestTypeInput f)]> (
        <["filter_type" := JStr (backtestFilterTypeInput f)]> (
        <["min_rule_confidence" := JNum minRuleConfidence]> (
        <["win_profit" := JNum winProfit]> (
        <["loss_cost" := JNum lossCost]> (
        <["initial_balance" := JNum initialBalance]> (
        <["position_fraction" := JNum positionFraction]> (
        <["position_notional" := jsonOfOptional positionNotional]> (
        <["order_interval_minutes" := JNum orderIntervalMinutes]> (
        <["fee_rate" := JNum feeRate]> (
        <["slippage_bps" := JNum slippageBps]> (
        rest))))))))))))))
      config_overrides in
  let config_overrides :=
    assignStage "walk_forward_evaluation" (fun rest =>
        <["enabled" := JBool (walkForwardEnabledInput f)]> (
        <["train_bars" := JNum trainBars]> (
        <["test_bars" := JNum testBars]> (
        <["step_bars" := JNum stepBars]> (
        <["max_windows" := JNum maxWindows]> (
        rest))))))
      config_overrides in
  inr {| workflow_name := "default";
         template_id := None;
         req_symbol := symbol;
         start_date := startDate;
         end_date := endDate;
         req_interval := interval;
         config_overrides := config_overrides |}.

(** The initial state of the rerun form. *)
Definition initialRerunForm : RerunForm := {|
  rerunSymbol := "BTCUSDT"; rerunStartDate := "2025-01-01";
  rerunEndDate := "2025-02-01"; rerunInterval := "15m";
  alphaTypesInput := ["alpha158"]; instrumentNameInput := "";
  labelWindowInput := "29"; labelLookForwardInput := "10";
  labelTypeInput := "up"; labelFilterTypeInput := "rsi";
  labelThresholdInput := "";
  numBoostRoundInput := "500"; numThreadsInput := "4";
  shapMaxSamplesInput := "5000"; shapMaxDisplayInput := "20";
  selectedFeaturesTextInput := ""; maxFeaturesInput := "8";
  maxDepthInput := "3"; minSamplesSplitInput := "100";
  minSamplesLeafInput := "50"; minRuleSamplesInput := "50";
  analysisLabelThresholdInput := "";
  lookForwardBarsInput := "10"; pnlModeInput := "price";
  backtestTypeInput := "long"; backtestFilterTypeInput := "rsi";
  minRuleConfidenceInput := "0.0"; winProfitInput := "4.0";
  lossCostInput := "5.0"; initialBalanceInput := "1000.0";
  positionFractionInput := "1.0"; positionNotionalInput := "";
  orderIntervalMinutesInput := "30"; feeRateInput := "0.0004";
  slippageBpsInput := "0";
  walkForwardEnabledInput := true; trainBarsInput := "20000";
  testBarsInput := "5000"; stepBarsInput := "5000"; maxWindowsInput := "10"
|}.

(** ** Double precision

    The arithmetic functions once more, every operation rounded as IEEE 754
    binary64 rounds it.  Comparisons, [floor], [max] and [Math.round] are
    exact on doubles and are those of [Js]. *)

Module Binary64.
Import Js.

(** [2^e], for an exponent of either sign. *)
Definition pow2 (e : Z) : Q := (2 ^ e)%Q.

(** The binary exponent of a positive rational [q]: the [e] with
    [2^e <= q < 2^(e+1)]. *)
Definition exponent (q : Q) : Z :=
  let d := Z.log2 (Qnum q) - Z.log2 (Zpos (Qden q)) in
  if Qle_bool (pow2 d) q then d else d - 1.

(** The nearest integer, a tie going to the even neighbour. *)
Definition nearestEven (q : Q) : Z :=
  let f := Qfloor q in
  match (q - inject_Z f ?= 1 # 2)%Q with
  | Lt => f
  | Gt => f + 1
  | Eq => if Z.even f then f else f + 1
  end.

(** The exponent of the last place of the doubles around [a > 0]. *)
Definition lastPlace (a : Q) : Z := Z.max (exponent a - 52) (-1074).

(** [a > 0] rounded to a multiple of its last place. *)
Definition nearest (a : Q) : Q :=
  (inject_Z (nearestEven (a / pow2 (lastPlace a))) * pow2 (lastPlace a))%Q.

(** The double nearest to [q]: zero stays zero; otherwise the magnitude
    is rounded at its last place, 52 places below its exponent and never
    below [2^-1074], a tie going to the even neighbour, and a magnitude
    that reaches [2^1024] becomes an infinity. *)
Definition round64 (q : Q) : number :=
  match (q ?= 0)%Q with
  | Eq => ofZ 0
  | sign =>
      let r := nearest (Qabs (Qred q)) in
      if Qle_bool (pow2 1024) r then signedInf sign
      else norm (match sign with Lt => - r | _ => r end)
  end.

(** An exact result, rounded. *)
Definition rounded (x : number) : number :=
  match x with
  | Fin q => round64 q
  | _ => x
  end.

(** The four operations of IEEE 754: the exact result, rounded. *)
Definition add (x y : number) : number := rounded (Js.add x y).
Definition sub (x y : number) : number := rounded (Js.sub x y).
Definition mul (x y : number) : number := rounded (Js.mul x y).
Definition div (x y : number) : number := rounded (Js.div x y).

(** [Number(text)]: the double nearest to the decimal value. *)
Definition Number (text : string) : number := rounded (Js.Number text).

(** The value of a decimal literal of the source, such as [0.1]: the double
    nearest to it. *)
Definition literal (text : string) : number := Number text.

(** *** recommendations.ts *)

Definition parseIntervalToMinutes (interval : string) : option number :=
  let text := Text.trim interval in
  match matchInterval text with
  | None => None
  | Some (g1, g2) =>
      let n := Number (default "1" g1) in
      if (negb (isFinite n) || leb n 0)%bool then None
      else
        let unit := toLowerCase g2 in
        if String.eqb unit "m" then Some n
        else if String.eqb unit "h" then Some (mul n 60)
        else if String.eqb unit "d" then Some (mul (mul n 24) 60)
        else None
  end.

Definition parseDateYmdUtc (dateStr : string) : option number :=
  match matchYmd (Text.trim dateStr) with
  | None => None
  | Some (g1, g2, g3) =>
      let year := Number g1 in
      let month := Number g2 in
      let day := Number g3 in
      if (negb (isFinite year) || negb (isFinite month)
          || negb (isFinite day))%bool then None
      else if (ltb month 1 || gtb month 12)%bool then None
      else if (ltb day 1 || gtb day 31)%bool then None
      else Some (JsDate.UTC year (sub month 1) day)
  end.

Definition estimateTotalBars (startDate endDate interval : string)
  : option number :=
  let start := parseDateYmdUtc startDate in
  let end_ := parseDateYmdUtc endDate in
  let minutesPerBar := parseIntervalToMinutes interval in
  match start, end_, minutesPerBar with
  | Some start, Some end_, Some minutesPerBar =>
      let diffMinutes := max 0 (floor (div (sub end_ start) 60000)) in
      Some (max 0 (floor (div diffMinutes minutesPerBar)))
  | _, _, _ => None
  end.

Section DurationText.

(** [Math.round] is exact: the floor of [x + 0.5] as a real number. *)
Variable numberText : number -> string.

Definition formatBarsToApproxDuration (bars : number) (interval : string)
  : string :=
  match parseIntervalToMinutes interval with
  | None => numberText (Math_round bars) ++ " bars"
  | Some minutesPerBar =>
      let totalMinutes := mul (max 0 bars) minutesPerBar in
      let days := div totalMinutes (mul 24 60) in
      if geb days 2 then "≈ " ++ numberText (Math_round days) ++ " 天"
      else
        let hours := div totalMinutes 60 in
        if geb hours 2
        then "≈ " ++ numberText (Math_round hours) ++ " 小时"
        else "≈ " ++ numberText (Math_round totalMinutes) ++ " 分钟"
  end.

End DurationText.

Definition calcExpectedWindows (totalBars trainBars testBars stepBars : number)
  : option number :=
  let n := max 0 (floor totalBars) in
  let train := max 0 (floor trainBars) in
  let test := max 0 (floor testBars) in
  let step := max 0 (floor stepBars) in
  if (leb train 0 || leb test 0 || leb step 0)%bool then None
  else if ltb n (add train test) then Some 0%js
  else Some (add (floor (div (sub (sub n train) test) step)) 1).

Definition recommendWalkForward (totalBars : number) : WindowPlan :=
  let n := max 0 (floor totalBars) in
  let trainRatio := 4%js in
  let targetWindows := 6%js in
  let maxWindows := 10%js in
  let minTest := 200%js in
  let test := floor (div n (add trainRatio targetWindows)) in
  let test := if (negb (isFinite test) || leb test 0)%bool
              then minTest else test in
  let roundTo := roundingStep test in
  let test := max minTest (mul (floor (div test roundTo)) roundTo) in
  let train := mul trainRatio test in
  let train := max 200 train in
  let '(test, train) :=
    if (gtb n 0 && ltb n (add train (mul 2 test)))%bool then
      let test := max minTest (floor (div n (add trainRatio 2))) in
      let roundTo2 := roundingStep test in
      let test := max minTest (mul (floor (div test roundTo2)) roundTo2) in
      let train := max 200 (mul trainRatio test) in
      (test, train)
    else (test, train) in
  let step := test in
  let expected := calcExpectedWindows n train test step in
  {| train_bars := train;
     test_bars := test;
     step_bars := step;
     max_windows := maxWindows;
     expected_windows := expected |}.

(** *** The backtest assessment *)

Definition feeRatioOf (initialBalance feesPaid : option number)
  : option number :=
  match initialBalance, feesPaid with
  | Some ib, Some fp =>
      if (numberTruthy ib && isFinite ib && gtb ib 0)%bool
      then Some (div fp ib) else None
  | _, _ => None
  end.

Definition score (profitRate maxDrawdown totalTrades feeRatio : option number)
  : Z :=
  let s := 0 in
  let s := match profitRate with
           | Some p => s + (if gtb p 0 then 2 else -2)
           | None => s
           end in
  let s := match maxDrawdown with
           | Some d =>
               if ltb d (literal "0.1") then s + 2
               else if ltb d (literal "0.2") then s + 1
               else if gtb d (literal "0.3") then s - 2
               else s - 1
           | None => s
           end in
  let s := match totalTrades with
           | Some t =>
               if geb t 100 then s + 2
               else if geb t 30 then s + 1
               else if ltb t 10 then s - 2
               else s - 1
           | None => s
           end in
  let s := match feeRatio with
           | Some r =>
               if ltb r (literal "0.02") then s + 1
               else if gtb r (literal "0.1") then s - 2
               else if gtb r (literal "0.03") then s - 1
               else s
           | None => s
           end in
  s.

Definition toNumber (value : option JsonValue) : option number :=
  match value with
  | Some (JNum n) => if isFinite n then Some n else None
  | Some (JStr s) =>
      let n := Number s in
      if isFinite n then Some n else None
  | _ => None
  end.

Definition backtestSummary (backtestStats walkForwardOverall : option JsonValue)
  (walkForwardReason walkForwardStatus : option string) : option Assessment :=
  match backtestStats with
  | None => None
  | Some stats =>
    if negb (jsonTruthy stats) then None else
    let profitRate := toNumber (getField stats "profit_rate") in
    let maxDrawdown := toNumber (getField stats "max_drawdown") in
    let totalTrades := toNumber (getField stats "total_trades") in
    let initialBalance := toNumber (getField stats "initial_balance") in
    let feesPaid := toNumber (getField stats "fees_paid") in
    let feeRatio := feeRatioOf initialBalance feesPaid in
    let tips :=
      match profitRate with
      | Some p =>
          [if (gtb p 0) then "这段时间内回测结果是盈利的（不代表未来）。"
           else "这段时间内回测结果是亏损的（不代表一定不可用）。"]
      | None => []
      end in
    let warnings :=
     (match maxDrawdown with
      | Some d =>
          if (gtb d (literal "0.3")) then ["回撤很大：波动/风险偏高。"]
          else pushIf (gtb d (literal "0.2")) "回撤偏大：风险不低。"
      | None => []
      end
      ++ match totalTrades with
         | Some t =>
             if (ltb t 10) then ["交易次数很少：结论很不稳定。"]
             else pushIf (ltb t 30) "交易次数偏少：建议拉长时间再看。"
         | None => []
         end
      ++ match feeRatio with
         | Some r =>
             if (gtb r (literal "0.1"))
             then ["手续费占比很高：可能被成本吃掉收益。"]
             else pushIf (gtb r (literal "0.03"))
                    "手续费占比偏高：需要关注交易频率与成本假设。"
         | None => []
         end)%list in
    let '(warnings, tips) :=
      if walkForwardFailed walkForwardStatus then
        ((warnings ++
            ["滚动验证未产出：" +:+
               match walkForwardReason with
               | Some r => if Text.truthy r then r else "已跳过"
               | None => "已跳过"
               end])%list,
         tips)
      else
        match walkForwardOverall with
        | Some overall =>
            if jsonTruthy overall then
              let windows := toNumber (getField overall "windows") in
              let profitableWindows :=
                toNumber (getField overall "profitable_windows") in
              match windows, profitableWindows with
              | Some w, Some pw =>
                  if (numberTruthy w && gtb w 0)%bool then
                    let ratio := div pw w in
                    (warnings,
                     (tips ++
                        [if (geb ratio (literal "0.7"))
                         then "滚动验证大多数窗口盈利：稳定性相对更好。"
                         else "滚动验证盈利窗口不多：稳定性一般。"])%list)
                  else (warnings, tips)
              | _, _ => (warnings, tips)
              end
            else (warnings, tips)
        | None => (warnings, tips)
        end in
    let score := score profitRate maxDrawdown totalTrades feeRatio in
    let verdict := verdictOf profitRate score in
    let headlineParts :=
     (match profitRate with
      | Some p => [if (gtb p 0) then "赚钱" else "亏钱"]
      | None => []
      end
      ++ match maxDrawdown with
         | Some d => [if (gtb d (literal "0.2")) then "回撤偏大" else "回撤可控"]
         | None => []
         end
      ++ match totalTrades with
         | Some t => [if (ltb t 30) then "样本偏少" else "样本量还行"]
         | None => []
         end)%list in
    let headline :=
      if (0 <? length headlineParts)%nat
      then "一句话：这次回测 " +:+ String.concat " · " headlineParts +:+ "。"
      else "一句话：回测已完成。" in
    let next :=
     (pushIf (ltOpt totalTrades 30)
        "把时间范围拉长（例如 3~6 个月）再回测一次，先把样本做大。"
      ++ pushIf (gtOpt maxDrawdown (literal "0.2"))
           "先把仓位比例调小（例如 50% 或更低），观察回撤是否明显改善。"
      ++ pushIf (gtOpt feeRatio (literal "0.03"))
           "如果手续费占比高：尝试减少交易频率（加大 order_interval 或提高过滤阈值）。"
      ++ pushIf (walkForwardFailed walkForwardStatus)
           "滚动验证提示数据不足：要么拉长时间范围，要么把窗口参数调小再试。")%list in
    Some {| tips := tips; warnings := warnings; verdict := verdict;
            headline := headline; next := next |}
  end.

End Binary64.

(** The doubles of the Standard Library's [SpecFloat] (precision 53,
    largest exponent 1024), read as numbers of the model. *)
Definition ofSpec (x : spec_float) : Js.number :=
  match x with
  | S754_zero _ => Js.ofZ 0
  | S754_infinity s => if s then Js.NegInf else Js.PosInf
  | S754_nan => Js.NaN
  | S754_finite s m e =>
      Js.norm ((if s then -1 else 1) * inject_Z (Z.pos m) * Binary64.pow2 e)
  end.

(** The double nearest to a whole number, by [SpecFloat]. *)
Definition whole (z : Z) : spec_float := binary_normalize 53 1024 z 0 false.

(** ** Sanity checks of the embedding *)

Example ex_interval : parseIntervalToMinutes " 15M " = Some 15%js.
Proof. reflexivity. Qed.

Example ex_number_decimal : Js.Number " -1.5e1 " = Js.Fin (-15 # 1)%Q.
Proof. vm_compute. reflexivity. Qed.

Example ex_number_forms :
  Js.Number "" = 0%js /\ Js.Number "0x1F" = 31%js /\ Js.Number ".5" = Js.Fin (1 # 2)
  /\ Js.Number "1." = 1%js /\ Js.Number "12px" = Js.NaN
  /\ Js.Number "-Infinity" = Js.NegInf /\ Js.Number "1e" = Js.NaN.
Proof. vm_compute. repeat split. Qed.

(** Time values of [Date.UTC]: a leap day, a two-digit year (read as
    19xx), a day past the end of its month, and the last day of 9999. *)
Example ex_utc :
  JsDate.UTC 2025 0 1 = 1735689600000%js
  /\ JsDate.UTC 2000 1 29 = 951782400000%js
  /\ JsDate.UTC 50 0 1 = Js.ofZ (-631152000000)
  /\ JsDate.UTC 2025 1 31 = 1740960000000%js
  /\ JsDate.UTC 1600 11 31 = Js.ofZ (-11644560000000)
  /\ JsDate.UTC 9999 11 31 = 253402214400000%js.
Proof. vm_compute. repeat split. Qed.

Example ex_date_loose :
  parseDateYmdUtc "2025-02-31" = Some 1740960000000%js
  /\ parseDateYmdUtc "2025-13-01" = None
  /\ parseDateYmdUtc "2025-1-01" = None.
Proof. vm_compute. repeat split. Qed.

Example ex_bars : estimateTotalBars "2025-01-01" "2025-02-01" "1m" = Some 44640%js.
Proof. vm_compute. reflexivity. Qed.

Example ex_plan : recommendWalkForward 100000 =
  {| train_bars := 40000; test_bars := 10000; step_bars := 10000;
     max_windows := 10; expected_windows := Some 6%js |}.
Proof. vm_compute. reflexivity. Qed.

Example ex_plan_small : recommendWalkForward 1100 =
  {| train_bars := 800; test_bars := 200; step_bars := 200;
     max_windows := 10; expected_windows := Some 1%js |}.
Proof. vm_compute. reflexivity. Qed.

Example ex_form_defaults : buildFormOverrides initialForm = inr ∅.
Proof. vm_compute. reflexivity. Qed.

(** Doubles: the literal 0.1, a whole number beyond 2^53, a sum that is
    absorbed, an overflow, an underflow, and the quotient 300.3 / 10010,
    which lies above the literal 0.03. *)
Example ex_round64 :
  Binary64.Number "0.1" = Js.Fin (3602879701896397 # 36028797018963968)
  /\ Binary64.Number "9007199254740993" = 9007199254740992%js
  /\ Binary64.add 9007199254740992 1 = 9007199254740992%js
  /\ Binary64.add 9007199254740992 3 = 9007199254740996%js
  /\ Binary64.mul (Binary64.Number "1e308") 10 = Js.PosInf
  /\ Binary64.Number "1e400" = Js.PosInf
  /\ Binary64.Number "1e-324" = 0%js
  /\ Binary64.div (Binary64.literal "300.3") 10010
     = Js.Fin (8646911284551353 # 288230376151711744)
  /\ Binary64.literal "0.03" = Js.Fin (1080863910568919 # 36028797018963968)
  /\ Js.ltb (Binary64.literal "0.03")
             (Binary64.div (Binary64.literal "300.3") 10010) = true.
Proof. vm_compute. repeat split. Qed.

(** The rounded operations agree with the Standard Library's IEEE 754
    operations of [SpecFloat] on operands from the very small to the very
    large. *)
Example ex_round64_SpecFloat :
  let pairs :=
    [(1, 10); (3003, 100100); (2 ^ 55, 3); (2 ^ 60, 1); (10 ^ 300, 10 ^ 10);
     (1, 10 ^ 308); (-7, 3); (9007199254740993, 1);
     (720575940379279360, 10); (1, 3 * 10 ^ 307); (5, 2 ^ 1023);
     (10 ^ 400, 7); (820121408762 * 1000003, 1440)] in
  List.map (fun '(a, b) =>
      let x := Binary64.rounded (Js.ofZ a) in
      let y := Binary64.rounded (Js.ofZ b) in
      [x; y; Binary64.add x y; Binary64.sub x y; Binary64.mul x y;
       Binary64.div x y; Binary64.div (Binary64.div x y) y]) pairs
  = List.map (fun '(a, b) =>
      let x := whole a in
      let y := whole b in
      List.map ofSpec
        [x; y; SFadd 53 1024 x y; SFsub 53 1024 x y; SFmul 53 1024 x y;
         SFdiv 53 1024 x y; SFdiv 53 1024 (SFdiv 53 1024 x y) y]) pairs.
Proof. vm_compute. reflexivity. Qed.

Example ex_plan_double : Binary64.recommendWalkForward 100000 =
  {| train_bars := 40000; test_bars := 10000; step_bars := 10000;
     max_windows := 10; expected_windows := Some 6%js |}.
Proof. vm_compute. reflexivity. Qed.

(** * Properties *)

(** ** Arithmetic of integer-valued numbers *)

Module JsFacts.
Import Js.

Lemma Qred_inject_Z (z : Z) : Qred (inject_Z z) = inject_Z z.
Proof.
  unfold Qred, inject_Z.
  pose proof (Z.ggcd_correct_divisors z 1) as Hd.
  pose proof (Z.ggcd_gcd z 1) as Hg.
  destruct (Z.ggcd z 1) as [g [aa bb]]. simpl in *.
  rewrite Z.gcd_1_r in Hg. subst g. destruct Hd as [Ha Hb].
  rewrite Z.mul_1_l in Ha, Hb. now subst.
Qed.

Lemma norm_inject_Z (q : Q) (z : Z) : (q == inject_Z z)%Q -> norm q = ofZ z.
Proof.
  intros H. unfold norm, ofZ. f_equal.
  rewrite <- (Qred_inject_Z z). now apply Qred_complete.
Qed.

Lemma floor_Fin (q : Q) : floor (Fin q) = ofZ (Qfloor q).
Proof. reflexivity. Qed.

Lemma floor_ofZ (z : Z) : floor (ofZ z) = ofZ z.
Proof. unfold ofZ, floor. now rewrite Qfloor_Z. Qed.

Lemma floor_norm (q : Q) : floor (norm q) = ofZ (Qfloor q).
Proof. unfold norm, floor. now rewrite (Qfloor_comp _ _ (Qred_correct q)). Qed.

Lemma cmp_ofZ (a b : Z) : cmp (ofZ a) (ofZ b) = Some (a ?= b).
Proof. unfold cmp, ofZ, Qcompare. simpl. now rewrite !Z.mul_1_r. Qed.

Lemma ltb_ofZ (a b : Z) : ltb (ofZ a) (ofZ b) = (a <? b).
Proof. unfold ltb. rewrite cmp_ofZ. unfold Z.ltb. now destruct (a ?= b). Qed.

Lemma leb_ofZ (a b : Z) : leb (ofZ a) (ofZ b) = (a <=? b).
Proof. unfold leb. rewrite cmp_ofZ. unfold Z.leb. now destruct (a ?= b). Qed.

Lemma gtb_ofZ (a b : Z) : gtb (ofZ a) (ofZ b) = (b <? a).
Proof. apply ltb_ofZ. Qed.

Lemma geb_ofZ (a b : Z) : geb (ofZ a) (ofZ b) = (b <=? a).
Proof. apply leb_ofZ. Qed.

Lemma max_ofZ (a b : Z) : max (ofZ a) (ofZ b) = ofZ (Z.max a b).
Proof.
  unfold max. rewrite cmp_ofZ. unfold Z.max.
  now destruct (a ?= b).
Qed.

Lemma add_ofZ (a b : Z) : add (ofZ a) (ofZ b) = ofZ (a + b).
Proof. unfold add, ofZ at 1 2. apply norm_inject_Z. now rewrite inject_Z_plus. Qed.

Lemma neg_ofZ (a : Z) : neg (ofZ a) = ofZ (- a).
Proof. unfold neg, ofZ at 1. apply norm_inject_Z. now rewrite inject_Z_opp. Qed.

Lemma sub_ofZ (a b : Z) : sub (ofZ a) (ofZ b) = ofZ (a - b).
Proof. unfold sub. now rewrite neg_ofZ, add_ofZ. Qed.

Lemma mul_ofZ (a b : Z) : mul (ofZ a) (ofZ b) = ofZ (a * b).
Proof. unfold mul, ofZ at 1 2. apply norm_inject_Z. now rewrite inject_Z_mult. Qed.

Lemma Qeq_bool_inject_Z_0 (b : Z) : Qeq_bool (inject_Z b) 0 = (b =? 0).
Proof. unfold Qeq_bool. simpl. now rewrite Z.mul_1_r. Qed.

Lemma div_Fin (a b : Q) :
  div (Fin a) (Fin b) =
  if Qeq_bool b 0 then signedInf (a ?= 0)%Q else norm (a / b).
Proof. reflexivity. Qed.

(** Flooring a quotient of integers is integer division. *)
Lemma floor_div_ofZ (a b : Z) :
  b <> 0 -> floor (div (ofZ a) (ofZ b)) = ofZ (a / b).
Proof.
  intros Hb. unfold ofZ at 1 2. rewrite div_Fin, Qeq_bool_inject_Z_0.
  destruct (Z.eqb_spec b 0) as [->|_]; [congruence|].
  rewrite floor_norm. now rewrite <- Zdiv_Qdiv.
Qed.

(** Dividing by a positive integer commutes with flooring. *)
Lemma floor_div_Fin_ofZ (q : Q) (k : Z) :
  0 < k -> floor (div (Fin q) (ofZ k)) = ofZ (Qfloor q / k).
Proof.
  intros Hk. unfold ofZ at 1. rewrite div_Fin, Qeq_bool_inject_Z_0.
  destruct (Z.eqb_spec k 0) as [->|_]; [lia|].
  rewrite floor_norm. f_equal.
  destruct q as [a d]. destruct k as [|p|p]; try lia.
  unfold Qdiv, Qinv, Qmult, Qfloor, inject_Z. cbn [Qnum Qden].
  rewrite Z.mul_1_r, Pos2Z.inj_mul.
  now rewrite Z.div_div by lia.
Qed.

(** Against an integer, a number compares like its floor. *)
Lemma ltb_Fin_ofZ (q : Q) (m : Z) : ltb (Fin q) (ofZ m) = (Qfloor q <? m).
Proof.
  unfold ltb, cmp, ofZ.
  pose proof (Qfloor_le q) as Hlo. pose proof (Qlt_floor q) as Hhi.
  destruct (Qcompare_spec q (inject_Z m)) as [E|E|E];
    destruct (Z.ltb_spec (Qfloor q) m) as [H|H]; try reflexivity; exfalso.
  - rewrite E, Qfloor_Z in H. lia.
  - apply (Qlt_irrefl q). apply Qlt_le_trans with (inject_Z m); [assumption|].
    apply Qle_trans with (inject_Z (Qfloor q)); [|assumption].
    now rewrite <- Zle_Qle.
  - apply (Qlt_irrefl q).
    apply Qlt_le_trans with (inject_Z (Qfloor q + 1)); [assumption|].
    apply Qle_trans with (inject_Z m); [|now apply Qlt_le_weak].
    rewrite <- Zle_Qle. lia.
Qed.

Lemma isFinite_ofZ (z : Z) : isFinite (ofZ z) = true.
Proof. reflexivity. Qed.

Lemma ofZ_inj (a b : Z) : ofZ a = ofZ b -> a = b.
Proof. unfold ofZ. intros H. now injection H. Qed.

End JsFacts.

(** Read numeric literals as integers. *)
Ltac js_lits :=
  repeat match goal with
         | |- context [Js.Fin (Qmake ?z 1)] =>
             change (Js.Fin (Qmake z 1)) with (Js.ofZ z)
         end.

(** Push integer-valued numbers through the operations. *)
Ltac js_int :=
  repeat (progress rewrite ?JsFacts.floor_Fin, ?JsFacts.floor_ofZ,
            ?JsFacts.max_ofZ, ?JsFacts.add_ofZ, ?JsFacts.sub_ofZ,
            ?JsFacts.mul_ofZ, ?JsFacts.ltb_ofZ, ?JsFacts.leb_ofZ,
            ?JsFacts.gtb_ofZ, ?JsFacts.geb_ofZ, ?JsFacts.isFinite_ofZ).

(** ** WindowCounter *)

Section WindowCounter.
Import Js JsFacts.

(** The window count on integers: the three cases of the contract. *)
Definition windowCount (n train test step : Z) : option number :=
  if ((train <=? 0) || (test <=? 0) || (step <=? 0))%bool then None
  else if n <? train + test then Some (ofZ 0)
  else Some (ofZ ((n - train - test) / step + 1)).

Lemma calcExpectedWindows_ofZ (n train test step : Z) :
  calcExpectedWindows (ofZ n) (ofZ train) (ofZ test) (ofZ step) =
  windowCount (Z.max 0 n) (Z.max 0 train) (Z.max 0 test) (Z.max 0 step).
Proof.
  unfold calcExpectedWindows, windowCount.
  js_lits. js_int.
  destruct (_ || _ || _)%bool eqn:Hbad; [reflexivity|].
  destruct (_ <? _) eqn:Hfit; [reflexivity|].
  rewrite floor_div_ofZ by lia.
  now js_int.
Qed.

Lemma calcExpectedWindows_Fin (totalBars trainBars testBars stepBars : Q) :
  calcExpectedWindows (Fin totalBars) (Fin trainBars) (Fin testBars) (Fin stepBars) =
  windowCount (Z.max 0 (Qfloor totalBars)) (Z.max 0 (Qfloor trainBars))
              (Z.max 0 (Qfloor testBars)) (Z.max 0 (Qfloor stepBars)).
Proof.
  rewrite <- calcExpectedWindows_ofZ.
  unfold calcExpectedWindows. now rewrite !floor_Fin, !floor_ofZ.
Qed.

End WindowCounter.

(** ** WindowRecommender *)

Section WindowRecommender.
Import Js JsFacts.

(** The granularity rule and the rounding step on integers. *)
Definition roundingStepZ (test : Z) : Z :=
  if 2000 <=? test then 100 else if 500 <=? test then 50 else 10.

Definition roundTestZ (test : Z) : Z :=
  Z.max 200 (test / roundingStepZ test * roundingStepZ test).

Lemma roundingStepZ_cases (t : Z) :
  roundingStepZ t = 100 \/ roundingStepZ t = 50 \/ roundingStepZ t = 10.
Proof. unfold roundingStepZ. destruct (2000 <=? t), (500 <=? t); auto. Qed.

Lemma roundingStep_ofZ (t : Z) : roundingStep (ofZ t) = ofZ (roundingStepZ t).
Proof.
  unfold roundingStep, roundingStepZ.
  js_lits. js_int. now destruct (2000 <=? t), (500 <=? t).
Qed.

Lemma roundTest_ofZ (t : Z) :
  max (ofZ 200) (floor (ofZ t / roundingStep (ofZ t)) * roundingStep (ofZ t))%js =
  ofZ (roundTestZ t).
Proof.
  rewrite roundingStep_ofZ, floor_div_ofZ.
  - now js_int.
  - destruct (roundingStepZ_cases t) as [-> | [-> | ->]]; lia.
Qed.

Lemma roundTestZ_ge (t : Z) : 200 <= roundTestZ t.
Proof. unfold roundTestZ. lia. Qed.

Lemma roundTestZ_mod10 (t : Z) : roundTestZ t mod 10 = 0.
Proof.
  unfold roundTestZ.
  destruct (Z.max_spec 200 (t / roundingStepZ t * roundingStepZ t))
    as [[_ ->] | [_ ->]]; [|reflexivity].
  destruct (roundingStepZ_cases t) as [-> | [-> | ->]].
  - replace (t / 100 * 100) with (t / 100 * 10 * 10) by ring. apply Z.mod_mul; lia.
  - replace (t / 50 * 50) with (t / 50 * 5 * 10) by ring. apply Z.mod_mul; lia.
  - apply Z.mod_mul; lia.
Qed.

Lemma roundTestZ_le (t : Z) : 0 <= t -> roundTestZ t <= Z.max 200 t.
Proof.
  intros Ht. unfold roundTestZ.
  destruct (roundingStepZ_cases t) as [-> | [-> | ->]];
    Z.div_mod_to_equations; lia.
Qed.

Lemma roundTestZ_small (t : Z) : t < 210 -> roundTestZ t = 200.
Proof.
  intros Ht. unfold roundTestZ, roundingStepZ.
  destruct (2000 <=? t) eqn:E1; [lia|].
  destruct (500 <=? t) eqn:E2; [lia|].
  Z.div_mod_to_equations; lia.
Qed.

(** The plan on a bar count that is already a non-negative integer. *)
Definition initialTestZ (n : Z) : Z :=
  let test := n / 10 in
  roundTestZ (if test <=? 0 then 200 else test).

Definition planTestZ (n : Z) : Z :=
  let test := initialTestZ n in
  let train := Z.max 200 (4 * test) in
  if ((0 <? n) && (n <? train + 2 * test))%bool
  then roundTestZ (Z.max 200 (n / 6)) else test.

Lemma recommendWalkForward_ofZ (n : Z) :
  0 <= n ->
  recommendWalkForward (ofZ n) =
  let test := planTestZ n in
  let train := Z.max 200 (4 * test) in
  {| train_bars := ofZ train;
     test_bars := ofZ test;
     step_bars := ofZ test;
     max_windows := ofZ 10;
     expected_windows :=
       calcExpectedWindows (ofZ n) (ofZ train) (ofZ test) (ofZ test) |}.
Proof.
  intros Hn. unfold recommendWalkForward, planTestZ, initialTestZ.
  cbv zeta. js_lits.
  js_int. rewrite (Z.max_r 0 n) by lia.
  rewrite floor_div_ofZ by lia. js_int. cbn [negb orb].
  change (4 + 6) with 10.
  assert (Hsel : (if n / 10 <=? 0 then ofZ 200 else ofZ (n / 10)) =
                 ofZ (if n / 10 <=? 0 then 200 else n / 10))
    by now destruct (n / 10 <=? 0).
  rewrite Hsel, roundTest_ofZ. js_int.
  destruct ((0 <? n) && _)%bool; [|reflexivity].
  rewrite floor_div_ofZ by lia. js_int. rewrite roundTest_ofZ. now js_int.
Qed.

(** Only the floored, clamped bar count matters. *)
Lemma recommendWalkForward_Fin (q : Q) :
  recommendWalkForward (Fin q) = recommendWalkForward (ofZ (Z.max 0 (Qfloor q))).
Proof.
  unfold recommendWalkForward. js_lits. js_int.
  rewrite (Z.max_r 0 (Z.max 0 _)) by lia. reflexivity.
Qed.

(** The feasibility shrink never changes the test size: it is entered only
    below 1200 bars, where both phases give the 200-bar minimum. *)
Lemma planTestZ_initial (n : Z) : 0 <= n -> planTestZ n = initialTestZ n.
Proof.
  intros Hn. unfold planTestZ.
  destruct ((0 <? n) && _)%bool eqn:Hc; [|reflexivity].
  apply andb_true_iff in Hc as [_ Hc]. apply Z.ltb_lt in Hc.
  pose proof (roundTestZ_ge (if n / 10 <=? 0 then 200 else n / 10)) as Hge.
  fold (initialTestZ n) in Hge.
  assert (Hsmall : n < 2100).
  { destruct (Z_lt_le_dec n 2100) as [|Hbig]; [assumption|exfalso].
    unfold initialTestZ in Hc, Hge. cbv zeta in Hc.
    destruct (Z.leb_spec (n / 10) 0) as [H0|H0];
      [Z.div_mod_to_equations; lia|].
    pose proof (roundTestZ_le (n / 10) ltac:(lia)).
    Z.div_mod_to_equations; lia. }
  assert (Ht : initialTestZ n = 200).
  { unfold initialTestZ. cbv zeta. apply roundTestZ_small.
    destruct (n / 10 <=? 0); [lia|]. Z.div_mod_to_equations; lia. }
  rewrite Ht in *. apply roundTestZ_small.
  Z.div_mod_to_equations; lia.
Qed.

(** The algorithm as the specification words it: the bar count is used as
    given, the shrink is guarded by the feasibility test alone, and the
    shrunk size is rounded before the minimum is applied again. *)
Definition recommendWalkForward_spec (totalBars : number) : WindowPlan :=
  let trainRatio := 4%js in
  let targetWindows := 6%js in
  let minTest := 200%js in
  let round := fun test : number =>
    max minTest (floor (test / roundingStep test) * roundingStep test)%js in
  let test := floor (totalBars / (trainRatio + targetWindows))%js in
  let test := if (negb (isFinite test) || (test <=? 0)%js)%bool
              then minTest else test in
  let test := round test in
  let train := max 200 (trainRatio * test)%js in
  let '(test, train) :=
    if (totalBars <? train + 2 * test)%js then
      let test := round (floor (totalBars / (trainRatio + 2))%js) in
      (test, max 200 (trainRatio * test)%js)
    else (test, train) in
  let step := test in
  {| train_bars := train;
     test_bars := test;
     step_bars := step;
     max_windows := 10%js;
     expected_windows := calcExpectedWindows totalBars train test step |}.

Lemma recommendWalkForward_refines (totalBars : number) :
  recommendWalkForward totalBars = recommendWalkForward_spec totalBars.
Proof.
  destruct totalBars as [| | |q].
  1-3: vm_compute; reflexivity.
  rewrite recommendWalkForward_Fin, recommendWalkForward_ofZ by lia.
  set (m := Qfloor q). set (n := Z.max 0 m).
  rewrite (planTestZ_initial n) by lia.
  unfold recommendWalkForward_spec. cbv zeta. js_lits. js_int.
  rewrite floor_div_Fin_ofZ by lia. js_int. cbn [negb orb].
  change (4 + 6) with 10. fold m.
  assert (Hsel : (if m / 10 <=? 0 then ofZ 200 else ofZ (m / 10)) =
                 ofZ (if n / 10 <=? 0 then 200 else n / 10)).
  { subst n. destruct (Z.leb_spec (m / 10) 0), (Z.leb_spec (Z.max 0 m / 10) 0);
      try reflexivity; f_equal; Z.div_mod_to_equations; lia. }
  rewrite Hsel, roundTest_ofZ. fold (initialTestZ n). js_int.
  rewrite ltb_Fin_ofZ. fold m.
  pose proof (roundTestZ_ge (if n / 10 <=? 0 then 200 else n / 10)) as Hge.
  fold (initialTestZ n) in Hge.
  assert (Hexp : forall a b c : Z,
             calcExpectedWindows (Fin q) (ofZ a) (ofZ b) (ofZ c) =
             calcExpectedWindows (ofZ n) (ofZ a) (ofZ b) (ofZ c)).
  { intros a b c. unfold calcExpectedWindows. js_lits. js_int.
    fold m. fold n. now rewrite (Z.max_r 0 n) by lia. }
  destruct (Z.ltb_spec m (Z.max 200 (4 * initialTestZ n) + 2 * initialTestZ n))
    as [Hc|Hc].
  - rewrite floor_div_Fin_ofZ by lia. fold m. rewrite roundTest_ofZ. js_int.
    assert (Ht : roundTestZ (m / (4 + 2)) = initialTestZ n).
    { assert (Hc' : n < Z.max 200 (4 * initialTestZ n) + 2 * initialTestZ n)
        by (destruct (Z.max_spec 0 m); lia).
      assert (Hn : n < 2100).
      { destruct (Z_lt_le_dec n 2100) as [|Hbig]; [assumption|exfalso].
        unfold initialTestZ in Hc', Hge. cbv zeta in Hc', Hge.
        destruct (Z.leb_spec (n / 10) 0) as [H0|H0];
          [Z.div_mod_to_equations; lia|].
        pose proof (roundTestZ_le (n / 10) ltac:(lia)).
        Z.div_mod_to_equations; lia. }
      assert (H200 : initialTestZ n = 200).
      { unfold initialTestZ. cbv zeta. apply roundTestZ_small.
        destruct (n / 10 <=? 0); [lia|]. Z.div_mod_to_equations; lia. }
      rewrite H200 in *. apply roundTestZ_small.
      Z.div_mod_to_equations; lia. }
    rewrite Ht, Hexp. reflexivity.
  - rewrite Hexp. reflexivity.
Qed.


End WindowRecommender.

(** ** IntervalParser *)

Module TextFacts.
Import Text.

Ltac each_char c := destruct c as [[] [] [] [] [] [] [] []].

Lemma digit_not_space (c : ascii) : isDigit c = true -> isSpace c = false.
Proof. each_char c; vm_compute; congruence. Qed.

Lemma append_cons (c : ascii) (s t : string) :
  String c s ++ t = String c (s ++ t).
Proof. reflexivity. Qed.

Lemma allDigits_app (s t : string) :
  allDigits (s ++ t) = (allDigits s && allDigits t)%bool.
Proof.
  induction s as [|c s IH]; [reflexivity|].
  rewrite append_cons. cbn [allDigits]. now rewrite IH, andb_assoc.
Qed.

Lemma append_empty_r (s : string) : s ++ "" = s.
Proof.
  induction s as [|c s IH]; [reflexivity|]. now rewrite append_cons, IH.
Qed.

Lemma trimEnd_digits (s : string) : allDigits s = true -> trimEnd s = s.
Proof.
  induction s as [|c s IH]; cbn; [reflexivity|].
  intros [Hc Hs]%andb_true_iff. rewrite (IH Hs).
  destruct s; [now rewrite (digit_not_space c Hc)|reflexivity].
Qed.

Lemma trim_digits (s : string) : allDigits s = true -> trim s = s.
Proof.
  intros H. unfold trim. destruct s as [|c s]; [reflexivity|].
  cbn [trimStart]. cbn in H. apply andb_true_iff in H as [Hc Hs].
  rewrite (digit_not_space c Hc). apply trimEnd_digits. cbn. now rewrite Hc.
Qed.

Lemma spanDigits_digits (s : string) :
  allDigits s = true -> spanDigits s = (s, "").
Proof.
  induction s as [|c s IH]; cbn; [reflexivity|].
  intros [Hc Hs]%andb_true_iff. now rewrite Hc, (IH Hs).
Qed.

(** [spanDigits] splits the text into a run of digits and a rest that does
    not start with a digit. *)
Lemma spanDigits_spec (s ds rest : string) :
  spanDigits s = (ds, rest) ->
  s = ds ++ rest /\ allDigits ds = true.
Proof.
  revert ds rest. induction s as [|c s IH]; cbn; intros ds rest H.
  - now inversion H.
  - destruct (isDigit c) eqn:Hc.
    + destruct (spanDigits s) as [d t]. inversion H; subst.
      destruct (IH d rest eq_refl) as [-> Hd]. cbn [allDigits].
      now rewrite Hc.
    + now inversion H.
Qed.

Lemma spanDigits_app (ds : string) (u : ascii) (rest : string) :
  allDigits ds = true -> isDigit u = false ->
  spanDigits (ds ++ String u rest) = (ds, String u rest).
Proof.
  intros Hds Hu. induction ds as [|c ds IH].
  - change ("" ++ String u rest) with (String u rest). cbn [spanDigits].
    now rewrite Hu.
  - cbn in Hds. apply andb_true_iff in Hds as [Hc Hds].
    rewrite append_cons. cbn [spanDigits]. now rewrite Hc, (IH Hds).
Qed.

End TextFacts.

Module NumberFacts.
Import Text TextFacts Js JsFacts.

Lemma nonDecimal_digits (s : string) : allDigits s = true -> nonDecimal s = None.
Proof.
  intros H. destruct s as [|c0 [|p [|c r]]].
  1-3: now destruct c0 as [[] [] [] [] [] [] [] []] || reflexivity.
  cbn [allDigits] in H. apply andb_true_iff in H as [_ H].
  apply andb_true_iff in H as [Hp _].
  each_char c0; try reflexivity.
  each_char p; try reflexivity; discriminate Hp.
Qed.

Lemma unsignedDecimal_digits (s : string) :
  truthy s = true -> allDigits s = true ->
  unsignedDecimal s = Some (ofZ (decimal s)).
Proof.
  intros Hne Hs. unfold unsignedDecimal.
  assert (HI : String.eqb s "Infinity" = false).
  { destruct s as [|c s]; [reflexivity|]. cbn in Hs.
    apply andb_true_iff in Hs as [Hc _].
    each_char c; try reflexivity; discriminate Hc. }
  rewrite HI, (spanDigits_digits s Hs).
  destruct s as [|c s]; [discriminate|]. cbn [isEmpty truthy negb andb].
  cbn [exponentPart String.length Z.of_nat]. rewrite append_empty_r.
  f_equal. apply norm_inject_Z. unfold scale. cbn.
  now rewrite Z.mul_1_r.
Qed.

(** On a non-empty run of digits [Number] is its decimal value. *)
Lemma Number_digits (s : string) :
  truthy s = true -> allDigits s = true -> Number s = ofZ (decimal s).
Proof.
  intros Hne Hs. unfold Number. rewrite (trim_digits s Hs).
  unfold isEmpty. rewrite Hne. cbn [negb].
  rewrite (nonDecimal_digits s Hs).
  assert (Hsign : match s with
                  | String "+" u => unsignedDecimal u
                  | String "-" u => neg <$> unsignedDecimal u
                  | _ => unsignedDecimal s
                  end = unsignedDecimal s).
  { destruct s as [|c s]; [reflexivity|]. cbn in Hs.
    apply andb_true_iff in Hs as [Hc _].
    each_char c; try reflexivity; discriminate Hc. }
  rewrite Hsign, (unsignedDecimal_digits s Hne Hs). reflexivity.
Qed.

End NumberFacts.

Section IntervalParser.
Import Text TextFacts Js JsFacts NumberFacts.

(** Minutes per unit letter, in either case. *)
Definition unitFactor (u : ascii) : option Z :=
  match u with
  | "m" | "M" => Some 1
  | "h" | "H" => Some 60
  | "d" | "D" => Some 1440
  | _ => None
  end%char.

(** [text] is, as a whole, an optional run of digits followed by one unit
    letter; [n] is the magnitude (1 when there is no digit) and [f] the
    minutes per unit. *)
Definition intervalToken (text : string) (n f : Z) : Prop :=
  exists (ds : string) (u : ascii),
    text = ds ++ String u "" /\ allDigits ds = true
    /\ unitFactor u = Some f
    /\ n = (if truthy ds then decimal ds else 1).

Lemma unit_not_digit (u : ascii) (f : Z) :
  unitFactor u = Some f -> isDigit u = false.
Proof. each_char u; try discriminate; reflexivity. Qed.

Lemma matchInterval_Some (text : string) (g1 : option string) (g2 : string) :
  matchInterval text = Some (g1, g2) <->
  exists (ds : string) (u : ascii) (f : Z),
    text = ds ++ String u "" /\ allDigits ds = true
    /\ unitFactor u = Some f
    /\ g1 = (if truthy ds then Some ds else None) /\ g2 = String u "".
Proof.
  unfold matchInterval. split.
  - destruct (spanDigits text) as [ds rest] eqn:Hspan.
    apply spanDigits_spec in Hspan as [-> Hds].
    destruct rest as [|u [|? ?]]; try discriminate.
    intros H. exists ds, u.
    each_char u; try discriminate H; injection H as <- <-;
      eexists; repeat split; (assumption || reflexivity).
  - intros (ds & u & f & -> & Hds & Hu & -> & ->).
    rewrite (spanDigits_app ds u "" Hds (unit_not_digit u f Hu)).
    each_char u; try discriminate Hu; reflexivity.
Qed.

Lemma unit_minutes (u : ascii) (f k : Z) :
  unitFactor u = Some f ->
  (if String.eqb (toLowerCase (String u "")) "m" then Some (ofZ k)
   else if String.eqb (toLowerCase (String u "")) "h" then Some (ofZ (k * 60))
   else if String.eqb (toLowerCase (String u "")) "d"
        then Some (ofZ (k * 24 * 60))
   else None) = Some (ofZ (k * f)).
Proof.
  intros Hu.
  each_char u; try discriminate Hu; injection Hu as <-;
    cbn -[ofZ Z.mul]; do 2 f_equal; lia.
Qed.

Lemma magnitude_Number (ds : string) :
  allDigits ds = true ->
  Number (default "1" (if truthy ds then Some ds else None)) =
  ofZ (if truthy ds then decimal ds else 1).
Proof.
  intros Hds. destruct (truthy ds) eqn:Hne; [|reflexivity].
  now apply Number_digits.
Qed.

Lemma parseIntervalToMinutes_token (interval : string) (n f : Z) :
  intervalToken (trim interval) n f ->
  parseIntervalToMinutes interval =
  if 0 <? n then Some (ofZ (n * f)) else None.
Proof.
  intros (ds & u & Ht & Hds & Hu & ->). unfold parseIntervalToMinutes.
  assert (Hm : matchInterval (trim interval) =
               Some (if truthy ds then Some ds else None, String u ""))
    by (apply matchInterval_Some; exists ds, u, f; auto).
  rewrite Hm, (magnitude_Number ds Hds). js_lits. js_int. cbn [negb orb].
  set (n := if truthy ds then decimal ds else 1).
  rewrite Z.leb_antisym. destruct (0 <? n); cbn [negb]; [|reflexivity].
  now apply unit_minutes.
Qed.

Lemma parseIntervalToMinutes_no_token (interval : string) :
  (forall n f, ~ intervalToken (trim interval) n f) ->
  parseIntervalToMinutes interval = None.
Proof.
  intros Hno. unfold parseIntervalToMinutes.
  destruct (matchInterval (trim interval)) as [[g1 g2]|] eqn:Hm;
    [|reflexivity].
  apply matchInterval_Some in Hm as (ds & u & f & Ht & Hds & Hu & _ & _).
  exfalso. apply (Hno (if truthy ds then decimal ds else 1) f).
  exists ds, u. auto.
Qed.

Lemma intervalToken_dec (text : string) :
  (exists n f, intervalToken text n f) \/ (forall n f, ~ intervalToken text n f).
Proof.
  destruct (matchInterval text) as [[g1 g2]|] eqn:Hm.
  - left. apply matchInterval_Some in Hm as (ds & u & f & Ht & Hds & Hu & _ & _).
    exists (if truthy ds then decimal ds else 1), f, ds, u. auto.
  - right. intros n f (ds & u & Ht & Hds & Hu & _).
    assert (Hs : matchInterval text =
                 Some (if truthy ds then Some ds else None, String u ""))
      by (apply matchInterval_Some; exists ds, u, f; auto).
    congruence.
Qed.

Lemma parseIntervalToMinutes_Some (interval : string) (x : number) :
  parseIntervalToMinutes interval = Some x <->
  exists n f : Z,
    intervalToken (trim interval) n f /\ 0 < n /\ x = ofZ (n * f).
Proof.
  split.
  - intros Hx. destruct (intervalToken_dec (trim interval)) as [(n & f & Htok)|Hno].
    + rewrite (parseIntervalToMinutes_token _ _ _ Htok) in Hx.
      destruct (Z.ltb_spec 0 n); [|discriminate].
      injection Hx as <-. eauto.
    + rewrite (parseIntervalToMinutes_no_token _ Hno) in Hx. discriminate.
  - intros (n & f & Htok & Hn & ->).
    rewrite (parseIntervalToMinutes_token _ _ _ Htok).
    now destruct (Z.ltb_spec 0 n); [|lia].
Qed.

Lemma unitFactor_pos (u : ascii) (f : Z) : unitFactor u = Some f -> 0 < f.
Proof. each_char u; try discriminate; intros [= <-]; lia. Qed.

(** A parsed interval is a positive whole number of minutes. *)
Lemma parseIntervalToMinutes_pos (interval : string) (x : number) :
  parseIntervalToMinutes interval = Some x ->
  exists mpb : Z, x = ofZ mpb /\ 0 < mpb.
Proof.
  intros (n & f & (ds & u & _ & _ & Hu & _) & Hn & ->)%parseIntervalToMinutes_Some.
  exists (n * f). split; [reflexivity|].
  pose proof (unitFactor_pos u f Hu). nia.
Qed.

End IntervalParser.

(** ** BarEstimator *)

Section BarEstimator.
Import Text TextFacts Js JsFacts NumberFacts.

(** [text] is exactly YYYY-MM-DD: four digits, a dash, two digits, a dash,
    two digits; [y], [m], [d] are the three decimal values. *)
Definition ymdText (text : string) (y m d : Z) : Prop :=
  exists ys ms ds : string,
    text = ys ++ "-" ++ ms ++ "-" ++ ds
    /\ String.length ys = 4%nat /\ String.length ms = 2%nat
    /\ String.length ds = 2%nat
    /\ allDigits ys = true /\ allDigits ms = true /\ allDigits ds = true
    /\ y = decimal ys /\ m = decimal ms /\ d = decimal ds.

(** The strict date of the specification: well formed, with the month in
    1..12 and the day in 1..31 (the calendar is not consulted). *)
Definition strictYmd (text : string) (y m d : Z) : Prop :=
  ymdText text y m d /\ 1 <= m <= 12 /\ 1 <= d <= 31.

(** The time value of [Date.UTC(y, m - 1, d)] in milliseconds: UTC
    midnight of the date, a year from 0 to 99 being read as [1900 + y]. *)
Definition utcMs (y m d : Z) : Z :=
  JsDate.MakeDay (JsDate.MakeFullYear y) (m - 1) d * JsDate.msPerDay.

Lemma matchYmd_Some (text g1 g2 g3 : string) :
  matchYmd text = Some (g1, g2, g3) <->
  text = g1 ++ "-" ++ g2 ++ "-" ++ g3
  /\ String.length g1 = 4%nat /\ String.length g2 = 2%nat
  /\ String.length g3 = 2%nat
  /\ allDigits g1 = true /\ allDigits g2 = true /\ allDigits g3 = true.
Proof.
  split.
  - destruct text as [|y1 [|y2 [|y3 [|y4 [|s1 [|m1 [|m2 [|s2 [|d1 [|d2 [|? ?]]]]]]]]]]];
      try discriminate.
    unfold matchYmd.
    destruct (_ && _)%bool eqn:Hc; [|discriminate].
    apply andb_true_iff in Hc as [Hc D3]. apply andb_true_iff in Hc as [Hc E2].
    apply andb_true_iff in Hc as [Hc D2]. apply andb_true_iff in Hc as [D1 E1].
    apply Ascii.eqb_eq in E1, E2. subst s1 s2.
    intros [= <- <- <-]. repeat split; (assumption || reflexivity).
  - intros (-> & H1 & H2 & H3 & D1 & D2 & D3).
    destruct g1 as [|y1 [|y2 [|y3 [|y4 [|? ?]]]]]; try discriminate.
    destruct g2 as [|m1 [|m2 [|? ?]]]; try discriminate.
    destruct g3 as [|d1 [|d2 [|? ?]]]; try discriminate.
    change (matchYmd _) with
      (if (allDigits (String y1 (String y2 (String y3 (String y4 "")))) &&
           Ascii.eqb "-" "-" &&
           allDigits (String m1 (String m2 "")) && Ascii.eqb "-" "-" &&
           allDigits (String d1 (String d2 "")))%bool
       then Some (String y1 (String y2 (String y3 (String y4 ""))),
                  String m1 (String m2 ""), String d1 (String d2 ""))
       else None).
    now rewrite D1, D2, D3.
Qed.

Lemma digitVal_range (c : ascii) : isDigit c = true -> 0 <= digitVal c <= 9.
Proof. each_char c; try discriminate; vm_compute; split; discriminate. Qed.

Lemma decimalFrom_range (s : string) (acc : Z) :
  allDigits s = true -> 0 <= acc ->
  acc * 10 ^ Z.of_nat (String.length s) <= decimalFrom acc s
  < (acc + 1) * 10 ^ Z.of_nat (String.length s).
Proof.
  revert acc. induction s as [|c s IH]; intros acc Hs Hacc.
  - cbn. lia.
  - cbn [allDigits] in Hs. apply andb_true_iff in Hs as [Hc Hs].
    pose proof (digitVal_range c Hc) as Hd. cbn [decimalFrom String.length].
    specialize (IH (10 * acc + digitVal c) Hs ltac:(lia)).
    rewrite Nat2Z.inj_succ, Z.pow_succ_r by lia.
    assert (0 < 10 ^ Z.of_nat (String.length s)) by (apply Z.pow_pos_nonneg; lia).
    nia.
Qed.

Lemma decimal_range (s : string) :
  allDigits s = true -> 0 <= decimal s < 10 ^ Z.of_nat (String.length s).
Proof.
  intros Hs. pose proof (decimalFrom_range s 0 Hs ltac:(lia)). unfold decimal. lia.
Qed.

Lemma Qtrunc_inject_Z (z : Z) : Qtrunc (inject_Z z) = z.
Proof. unfold Qtrunc. cbn. apply Z.quot_1_r. Qed.

Lemma monthStart_range (mn : Z) : 0 <= JsDate.monthStart mn <= 334.
Proof.
  unfold JsDate.monthStart.
  repeat match goal with
         | |- context [match ?x with _ => _ end] => destruct x
         end; lia.
Qed.

(** Within the years 0..9999 the time value is far inside the range of
    [TimeClip]. *)
Lemma utcMs_range (y m d : Z) :
  0 <= y < 10000 -> 1 <= m <= 12 -> 1 <= d <= 31 ->
  Z.abs (utcMs y m d) <= 8640000000000000.
Proof.
  intros Hy Hm Hd. unfold utcMs, JsDate.MakeDay, JsDate.msPerDay.
  replace ((m - 1) / 12) with 0 by (Z.div_mod_to_equations; lia).
  pose proof (monthStart_range ((m - 1) mod 12)) as Hs.
  set (leap := if (_ && _)%bool then 1 else 0).
  assert (0 <= leap <= 1) by (subst leap; destruct (_ && _)%bool; lia).
  assert (Hfy : 0 <= JsDate.MakeFullYear y < 10000)
    by (unfold JsDate.MakeFullYear;
        destruct (Z.leb_spec 0 y), (Z.leb_spec y 99); cbn [andb]; lia).
  rewrite Z.add_0_r. set (yr := JsDate.MakeFullYear y) in *.
  unfold JsDate.DayFromYear. Z.div_mod_to_equations. lia.
Qed.

Lemma UTC_ofZ (y m d : Z) :
  0 <= y < 10000 -> 1 <= m <= 12 -> 1 <= d <= 31 ->
  JsDate.UTC (ofZ y) (ofZ (m - 1)) (ofZ d) = ofZ (utcMs y m d).
Proof.
  intros Hy Hm Hd. unfold JsDate.UTC, ofZ at 1 2 3.
  rewrite !Qtrunc_inject_Z. fold (utcMs y m d). unfold JsDate.TimeClip.
  pose proof (utcMs_range y m d Hy Hm Hd).
  destruct (Z.gtb_spec (Z.abs (utcMs y m d)) 8640000000000000); [lia|reflexivity].
Qed.

Lemma parseDateYmdUtc_match (dateStr g1 g2 g3 : string) :
  matchYmd (trim dateStr) = Some (g1, g2, g3) ->
  parseDateYmdUtc dateStr =
  let m := decimal g2 in
  let d := decimal g3 in
  if ((m <? 1) || (12 <? m))%bool then None
  else if ((d <? 1) || (31 <? d))%bool then None
  else Some (ofZ (utcMs (decimal g1) m d)).
Proof.
  intros Hm. unfold parseDateYmdUtc. rewrite Hm.
  apply matchYmd_Some in Hm as (_ & L1 & L2 & L3 & D1 & D2 & D3).
  assert (T : forall g n, String.length g = S n -> truthy g = true)
    by (intros [|? ?] ? ?; [discriminate|reflexivity]).
  rewrite (Number_digits g1 (T _ _ L1) D1), (Number_digits g2 (T _ _ L2) D2),
    (Number_digits g3 (T _ _ L3) D3).
  js_lits. js_int. cbn [negb orb]. cbv zeta.
  pose proof (decimal_range g1 D1) as R1. rewrite L1 in R1.
  destruct (Z.ltb_spec (decimal g2) 1), (Z.ltb_spec 12 (decimal g2));
    cbn [orb]; try reflexivity.
  destruct (Z.ltb_spec (decimal g3) 1), (Z.ltb_spec 31 (decimal g3));
    cbn [orb]; try reflexivity.
  rewrite UTC_ofZ; [reflexivity| |lia|lia]. change (10 ^ Z.of_nat 4) with 10000 in R1.
  lia.
Qed.

Lemma ymdText_match (text : string) (y m d : Z) :
  ymdText text y m d <->
  exists g1 g2 g3, matchYmd text = Some (g1, g2, g3)
                   /\ y = decimal g1 /\ m = decimal g2 /\ d = decimal g3.
Proof.
  split.
  - intros (ys & ms & ds & Ht & L1 & L2 & L3 & D1 & D2 & D3 & -> & -> & ->).
    exists ys, ms, ds. split; [|auto]. apply matchYmd_Some. auto 10.
  - intros (g1 & g2 & g3 & Hm & -> & -> & ->).
    apply matchYmd_Some in Hm as (Ht & L1 & L2 & L3 & D1 & D2 & D3).
    exists g1, g2, g3. auto 12.
Qed.

Lemma parseDateYmdUtc_strict (dateStr : string) (y m d : Z) :
  strictYmd (trim dateStr) y m d ->
  parseDateYmdUtc dateStr = Some (ofZ (utcMs y m d)).
Proof.
  intros [(g1 & g2 & g3 & Hm & -> & -> & ->)%ymdText_match [Hmo Hd]].
  rewrite (parseDateYmdUtc_match _ _ _ _ Hm). cbv zeta.
  destruct (Z.ltb_spec (decimal g2) 1), (Z.ltb_spec 12 (decimal g2)); try lia.
  destruct (Z.ltb_spec (decimal g3) 1), (Z.ltb_spec 31 (decimal g3)); try lia.
  reflexivity.
Qed.

(** The text of the date, trimmed, is a strict date. *)
Definition strictDateAfterTrim (dateStr : string) : Prop :=
  exists y m d : Z, strictYmd (trim dateStr) y m d.

Lemma parseDateYmdUtc_None (dateStr : string) :
  parseDateYmdUtc dateStr = None <-> ~ strictDateAfterTrim dateStr.
Proof.
  split.
  - intros Hn (y & m & d & Hs).
    rewrite (parseDateYmdUtc_strict _ _ _ _ Hs) in Hn. discriminate.
  - intros Hno.
    destruct (matchYmd (trim dateStr)) as [[[g1 g2] g3]|] eqn:Hm.
    + rewrite (parseDateYmdUtc_match _ _ _ _ Hm). cbv zeta.
      destruct (Z.ltb_spec (decimal g2) 1), (Z.ltb_spec 12 (decimal g2));
        cbn [orb]; try reflexivity.
      destruct (Z.ltb_spec (decimal g3) 1), (Z.ltb_spec 31 (decimal g3));
        cbn [orb]; try reflexivity.
      exfalso. apply Hno. exists (decimal g1), (decimal g2), (decimal g3).
      split; [|lia]. apply ymdText_match. eauto 10.
    + unfold parseDateYmdUtc. now rewrite Hm.
Qed.

End BarEstimator.

(** ** ConfigResolver: the merge operator *)

Section MergeOperator.

(** The rule for one key of the patch: recurse when both sides are plain
    objects, and let the patch value replace the base value otherwise. *)
Definition mergeValue (prev : option JsonValue) (v : JsonValue) : JsonValue :=
  match prev with
  | Some b =>
      if (isPlainObject (Some b) && isPlainObject (Some v))%bool
      then JObj (deepMerge b v) else v
  | None => v
  end.

(** The loop over the entries of the patch leaves, under every key, the
    base value or the merged patch value. *)
Lemma deepMerge_lookup (base : JsonValue) (patch : JsonObject) (k : string) :
  deepMerge base (JObj patch) !! k =
  match patch !! k with
  | Some v => Some (mergeValue (ownProperties base !! k) v)
  | None => ownProperties base !! k
  end.
Proof.
  cbn [deepMerge]. revert k.
  apply (map_fold_weak_ind
           (fun (r m : JsonObject) =>
              forall k, r !! k =
                        match m !! k with
                        | Some v => Some (mergeValue (ownProperties base !! k) v)
                        | None => ownProperties base !! k
                        end)).
  - intros k. now rewrite lookup_empty.
  - intros i x m r Hi IH k. destruct (decide (i = k)) as [->|Hne].
    + rewrite lookup_insert_eq. pose proof (IH k) as Hk. rewrite Hi in Hk.
      rewrite Hk. unfold mergeValue.
      destruct (ownProperties base !! k) as [[]|], x; cbn [isPlainObject andb];
        now rewrite lookup_insert_eq.
    + rewrite (lookup_insert_ne m), <- IH by done.
      destruct (r !! i) as [[]|], x; now rewrite lookup_insert_ne.
Qed.

Lemma deepMerge_empty_patch (c : JsonValue) :
  deepMerge c (JObj ∅) = ownProperties c.
Proof. apply map_eq. intros k. now rewrite deepMerge_lookup, lookup_empty. Qed.

Definition objA (fields : JsonObject) : JsonValue :=
  JObj {[ "a" := JObj fields ]}.

(** The round trip fails outside plain objects: merging the empty patch
    into [null] gives the empty object, and into an array the object of its
    indices. *)
Lemma deepMerge_empty_patch_not_identity :
  deepMerge JNull (JObj ∅) = ∅
  /\ JObj (deepMerge JNull (JObj ∅)) <> JNull
  /\ deepMerge (JArr [JNum 1; JNum 2]) (JObj ∅)
     = <["0" := JNum 1]> {["1" := JNum 2]}
  /\ JObj (deepMerge (JArr [JNum 1; JNum 2]) (JObj ∅)) <> JArr [JNum 1; JNum 2].
Proof.
  split; [reflexivity|]. split; [discriminate|].
  split; [vm_compute; reflexivity|discriminate].
Qed.

(** C9, amended. Merging the empty patch is the identity exactly on plain
    objects: for every ConfigTree [c] the result holds the own properties
    of [c], so it equals [c] if and only if [c] is a plain object. *)
Theorem deepMerge_empty_patch_identity :
  (forall fields : JsonObject, JObj (deepMerge (JObj fields) (JObj ∅)) = JObj fields)
  /\ (forall c : JsonValue,
      JObj (deepMerge c (JObj ∅)) = c <-> isPlainObject (Some c) = true).
Proof.
  split.
  - intros fields. now rewrite deepMerge_empty_patch.
  - intros c. rewrite deepMerge_empty_patch.
    destruct c; cbn; split; intros H; try discriminate; reflexivity.
Qed.

End MergeOperator.

(** ** ConfigResolver: the submit handler *)

Section SubmitHandler.
Import Js JsFacts.

(** Every field of a stage fragment is a leaf: a number, a string, a
    boolean, null or an array, never a plain object. *)
Definition leafFields (fields : JsonObject) : Prop :=
  map_Forall (fun _ v => isPlainObject (Some v) = false) fields.

(** What one stage does to the form overrides: nothing when its flag is
    off, one key holding an object of leaves when it is on. *)
Definition stageStep (flag : bool) (key : string) (before after : JsonObject)
  : Prop :=
  if flag
  then exists fields, leafFields fields /\ after = <[key := JObj fields]> before
  else after = before.

Lemma leaf_jsonOfOptional (x : option number) :
  isPlainObject (Some (jsonOfOptional x)) = false.
Proof. now destruct x. Qed.

Ltac leaf_fields :=
  unfold leafFields;
  repeat (apply map_Forall_insert_2;
          [first [reflexivity | apply leaf_jsonOfOptional
                 | match goal with |- context [if ?c then _ else _] =>
                     now destruct c end]|]);
  apply map_Forall_empty.

(** Read a successful run of checks: every [throw_if] condition was
    false. *)
Ltac passed H :=
  unfold throwIf in H;
  repeat match type of H with
         | (if ?c then _ else _) = inr _ =>
             destruct c eqn:?; [discriminate H|]
         end;
  injection H as <-.

Ltac stage_step stage :=
  let H := fresh "H" in
  intros H; unfold stage in H; unfold stageStep;
  match goal with |- context [if ?flag then _ else _] => destruct flag end;
  [ cbv zeta in H; passed H; eexists; split; [|reflexivity]; leaf_fields
  | now injection H as <- ].

Lemma featureOverrides_step (f : FormState) (fo fo' : JsonObject) :
  featureOverrides f fo = inr fo' ->
  stageStep (useFeatureOverrides f) "feature_calculation" fo fo'.
Proof. stage_step featureOverrides. Qed.

Lemma labelOverrides_step (f : FormState) (fo fo' : JsonObject) :
  labelOverrides f fo = inr fo' ->
  stageStep (useLabelOverrides f) "label_calculation" fo fo'.
Proof. stage_step labelOverrides. Qed.

Lemma trainingOverrides_step (f : FormState) (fo fo' : JsonObject) :
  trainingOverrides f fo = inr fo' ->
  stageStep (useTrainingOverrides f) "model_training" fo fo'.
Proof. stage_step trainingOverrides. Qed.

Lemma interpretationOverrides_step (f : FormState) (fo fo' : JsonObject) :
  interpretationOverrides f fo = inr fo' ->
  stageStep (useInterpretationOverrides f) "model_interpretation" fo fo'.
Proof. stage_step interpretationOverrides. Qed.

Lemma analysisOverrides_step (f : FormState) (fo fo' : JsonObject) :
  analysisOverrides f fo = inr fo' ->
  stageStep (useAnalysisOverrides f) "model_analysis" fo fo'.
Proof. stage_step analysisOverrides. Qed.

Lemma backtestOverrides_step (f : FormState) (fo fo' : JsonObject) :
  backtestOverrides f fo = inr fo' ->
  stageStep (useBacktestOverrides f) "backtest_construction" fo fo'.
Proof. stage_step backtestOverrides. Qed.

Lemma walkForwardOverrides_step (f : FormState) (fo fo' : JsonObject) :
  walkForwardOverrides f fo = inr fo' ->
  stageStep (useWalkForwardOverrides f) "walk_forward_evaluation" fo fo'.
Proof. stage_step walkForwardOverrides. Qed.

(** The stages with their flags, in the order of the handler. *)
Definition stageFlags (f : FormState) : list (string * bool) :=
  [("feature_calculation", useFeatureOverrides f);
   ("label_calculation", useLabelOverrides f);
   ("model_training", useTrainingOverrides f);
   ("model_interpretation", useInterpretationOverrides f);
   ("model_analysis", useAnalysisOverrides f);
   ("backtest_construction", useBacktestOverrides f);
   ("walk_forward_evaluation", useWalkForwardOverrides f)].

(** The form overrides after the given stages: exactly the enabled stages
    have a key, and each holds an object of leaves. *)
Definition stagesDone (stages : list (string * bool)) (fo : JsonObject) : Prop :=
  forall k : string,
    (is_Some (fo !! k) <-> (k, true) ∈ stages)
    /\ (forall v, fo !! k = Some v ->
                  exists fields, v = JObj fields /\ leafFields fields).

Lemma stagesDone_nil : stagesDone [] ∅.
Proof.
  intros k. rewrite lookup_empty. split.
  - split; [intros [? ?]; discriminate|intros []%elem_of_nil].
  - discriminate.
Qed.

Lemma stagesDone_step (stages : list (string * bool)) (flag : bool)
  (key : string) (fo fo' : JsonObject) :
  stagesDone stages fo -> stageStep flag key fo fo' ->
  stagesDone (stages ++ [(key, flag)]) fo'.
Proof.
  intros Hdone Hstep k. destruct (Hdone k) as [Hkeys Hleaf].
  rewrite elem_of_app, list_elem_of_singleton.
  unfold stageStep in Hstep. destruct flag.
  - destruct Hstep as (fields & Hfields & ->).
    destruct (decide (key = k)) as [->|Hne].
    + rewrite lookup_insert_eq. split; [split; eauto|].
      intros v [= <-]. eauto.
    + rewrite lookup_insert_ne by done. split; [|exact Hleaf].
      rewrite Hkeys. split; [auto|]. intros [H|[= ->]]; [done|congruence].
  - subst fo'. split; [|exact Hleaf].
    rewrite Hkeys. split; [auto|]. now intros [H|[= _ ?]].
Qed.

Lemma buildFormOverrides_stages (f : FormState) (fo : JsonObject) :
  buildFormOverrides f = inr fo -> stagesDone (stageFlags f) fo.
Proof.
  unfold buildFormOverrides, andThen. intros H.
  destruct (featureOverrides f ∅) as [?|fo1] eqn:E1; [discriminate|].
  destruct (labelOverrides f fo1) as [?|fo2] eqn:E2; [discriminate|].
  destruct (trainingOverrides f fo2) as [?|fo3] eqn:E3; [discriminate|].
  destruct (interpretationOverrides f fo3) as [?|fo4] eqn:E4; [discriminate|].
  destruct (analysisOverrides f fo4) as [?|fo5] eqn:E5; [discriminate|].
  destruct (backtestOverrides f fo5) as [?|fo6] eqn:E6; [discriminate|].
  apply featureOverrides_step in E1. apply labelOverrides_step in E2.
  apply trainingOverrides_step in E3. apply interpretationOverrides_step in E4.
  apply analysisOverrides_step in E5. apply backtestOverrides_step in E6.
  apply walkForwardOverrides_step in H.
  pose proof stagesDone_nil as D0.
  pose proof (stagesDone_step _ _ _ _ _ D0 E1) as D1.
  pose proof (stagesDone_step _ _ _ _ _ D1 E2) as D2.
  pose proof (stagesDone_step _ _ _ _ _ D2 E3) as D3.
  pose proof (stagesDone_step _ _ _ _ _ D3 E4) as D4.
  pose proof (stagesDone_step _ _ _ _ _ D4 E5) as D5.
  pose proof (stagesDone_step _ _ _ _ _ D5 E6) as D6.
  exact (stagesDone_step _ _ _ _ _ D6 H).
Qed.

(** A leaf of an enabled stage survives the merge whatever the raw
    overrides hold under the same key. *)
Lemma deepMerge_leaf (raw : JsonValue) (fo fields : JsonObject)
  (k field : string) (v : JsonValue) :
  fo !! k = Some (JObj fields) -> leafFields fields ->
  fields !! field = Some v ->
  exists merged : JsonObject,
    deepMerge raw (JObj fo) !! k = Some (JObj merged)
    /\ merged !! field = Some v.
Proof.
  intros Hk Hleaf Hv. rewrite deepMerge_lookup, Hk. unfold mergeValue.
  destruct (ownProperties raw !! k) as [[| | | | |prev]|]; cbn [isPlainObject andb];
    try (exists fields; split; [reflexivity|assumption]).
  exists (deepMerge (JObj prev) (JObj fields)). split; [reflexivity|].
  rewrite deepMerge_lookup, Hv. f_equal. unfold mergeValue.
  destruct (ownProperties (JObj prev) !! field) as [b|]; [|reflexivity].
  now rewrite (Hleaf field v Hv), andb_false_r.
Qed.

(** An optional number box: null when blank, else the number of its
    trimmed text. *)
Definition optionalBox (text : string) : JsonValue :=
  if Text.truthy (Text.trim text) then JNum (Number (Text.trim text)) else JNull.

(** What each stage of the form sets, field by field: the key of the
    stage, its switch, and the fields with the values read from the
    form. *)
Definition stageTable (f : FormState)
  : list (string * bool * list (string * JsonValue)) :=
  [("feature_calculation", useFeatureOverrides f,
    [("alpha_types", jsonStrings (cleanList (alphaTypes f)));
     ("instrument_name",
      if Text.truthy (Text.trim (instrumentName f))
      then JStr (Text.trim (instrumentName f)) else JNull)]);
   ("label_calculation", useLabelOverrides f,
    [("window", JNum (Number (labelWindow f)));
     ("look_forward", JNum (Number (labelLookForward f)));
     ("label_type", JStr (Text.trim (labelType f)));
     ("filter_type", JStr (Text.trim (labelFilterType f)));
     ("threshold", optionalBox (labelThreshold f))]);
   ("model_training", useTrainingOverrides f,
    [("num_boost_round", JNum (Number (numBoostRound f)));
     ("num_threads", JNum (Number (numThreads f)))]);
   ("model_interpretation", useInterpretationOverrides f,
    [("max_samples", JNum (Number (shapMaxSamples f)));
     ("max_display", JNum (Number (shapMaxDisplay f)))]);
   ("model_analysis", useAnalysisOverrides f,
    [("selected_features",
      let selected := cleanList (splitLines "" (selectedFeaturesText f)) in
      if (0 <? length selected)%nat then jsonStrings selected else JNull);
     ("max_features", JNum (Number (maxFeatures f)));
     ("max_depth", JNum (Number (maxDepth f)));
     ("min_samples_split", JNum (Number (minSamplesSplit f)));
     ("min_samples_leaf", JNum (Number (minSamplesLeaf f)));
     ("min_rule_samples", JNum (Number (minRuleSamples f)));
     ("label_threshold", optionalBox (analysisLabelThreshold f))]);
   ("backtest_construction", useBacktestOverrides f,
    [("look_forward_bars", JNum (Number (lookForwardBars f)));
     ("pnl_mode", JStr (pnlMode f));
     ("backtest_type", JStr (backtestType f));
     ("filter_type", JStr (backtestFilterType f));
     ("position_fraction", JNum (Number (positionFraction f)));
     ("position_notional", optionalBox (positionNotional f));
     ("order_interval_minutes", JNum (Number (orderIntervalMinutes f)));
     ("fee_rate", JNum (Number (feeRate f)));
     ("slippage_bps", JNum (Number (slippageBps f)));
     ("min_rule_confidence", JNum (Number (minRuleConfidence f)));
     ("win_profit", JNum (Number (winProfit f)));
     ("loss_cost", JNum (Number (lossCost f)));
     ("initial_balance", JNum (Number (initialBalance f)))]);
   ("walk_forward_evaluation", useWalkForwardOverrides f,
    [("enabled", JBool (walkForwardEnabled f));
     ("train_bars", JNum (Number (trainBars f)));
     ("test_bars", JNum (Number (testBars f)));
     ("step_bars", JNum (Number (stepBars f)));
     ("max_windows", JNum (Number (maxWindows f)))])].

(** One row of the table at work: an enabled stage puts its object under
    its key, a disabled stage leaves the overrides alone. *)
Definition applyStage (fo : JsonObject)
  (row : string * bool * list (string * JsonValue)) : JsonObject :=
  let '(key, flag, fields) := row in
  if flag then <[key := JObj (list_to_map fields)]> fo else fo.

(** The form overrides that the table describes. *)
Definition formOverridesOf (f : FormState) : JsonObject :=
  foldl applyStage ∅ (stageTable f).

Lemma optionalBox_eq (text : string) :
  jsonOfOptional (optionalNumber (Text.trim text)) = optionalBox text.
Proof. unfold optionalBox, optionalNumber. now destruct (Text.truthy _). Qed.

(** Read one stage of the handler as its row of the table. *)
Ltac stage_row stage :=
  let H := fresh "H" in
  intros H; unfold stage in H; unfold applyStage;
  cbn [stageTable lookup list_lookup default id];
  match type of H with
  | (if ?flag then _ else _) = _ => destruct flag
  end;
  [ cbv zeta in H; passed H; rewrite ?optionalBox_eq; reflexivity
  | now injection H as <- ].

Lemma featureOverrides_row (f : FormState) (fo fo' : JsonObject) :
  featureOverrides f fo = inr fo' ->
  fo' = applyStage fo (default ("", false, []) (stageTable f !! 0%nat)).
Proof. stage_row featureOverrides. Qed.

Lemma labelOverrides_row (f : FormState) (fo fo' : JsonObject) :
  labelOverrides f fo = inr fo' ->
  fo' = applyStage fo (default ("", false, []) (stageTable f !! 1%nat)).
Proof. stage_row labelOverrides. Qed.

Lemma trainingOverrides_row (f : FormState) (fo fo' : JsonObject) :
  trainingOverrides f fo = inr fo' ->
  fo' = applyStage fo (default ("", false, []) (stageTable f !! 2%nat)).
Proof. stage_row trainingOverrides. Qed.

Lemma interpretationOverrides_row (f : FormState) (fo fo' : JsonObject) :
  interpretationOverrides f fo = inr fo' ->
  fo' = applyStage fo (default ("", false, []) (stageTable f !! 3%nat)).
Proof. stage_row interpretationOverrides. Qed.

Lemma analysisOverrides_row (f : FormState) (fo fo' : JsonObject) :
  analysisOverrides f fo = inr fo' ->
  fo' = applyStage fo (default ("", false, []) (stageTable f !! 4%nat)).
Proof. stage_row analysisOverrides. Qed.

Lemma backtestOverrides_row (f : FormState) (fo fo' : JsonObject) :
  backtestOverrides f fo = inr fo' ->
  fo' = applyStage fo (default ("", false, []) (stageTable f !! 5%nat)).
Proof. stage_row backtestOverrides. Qed.

Lemma walkForwardOverrides_row (f : FormState) (fo fo' : JsonObject) :
  walkForwardOverrides f fo = inr fo' ->
  fo' = applyStage fo (default ("", false, []) (stageTable f !! 6%nat)).
Proof. stage_row walkForwardOverrides. Qed.

(** The handler builds exactly the overrides of the table. *)
Lemma buildFormOverrides_table (f : FormState) (fo : JsonObject) :
  buildFormOverrides f = inr fo -> fo = formOverridesOf f.
Proof.
  unfold buildFormOverrides, andThen. intros H.
  destruct (featureOverrides f ∅) as [?|fo1] eqn:E1; [discriminate|].
  destruct (labelOverrides f fo1) as [?|fo2] eqn:E2; [discriminate|].
  destruct (trainingOverrides f fo2) as [?|fo3] eqn:E3; [discriminate|].
  destruct (interpretationOverrides f fo3) as [?|fo4] eqn:E4; [discriminate|].
  destruct (analysisOverrides f fo4) as [?|fo5] eqn:E5; [discriminate|].
  destruct (backtestOverrides f fo5) as [?|fo6] eqn:E6; [discriminate|].
  apply featureOverrides_row in E1. apply labelOverrides_row in E2.
  apply trainingOverrides_row in E3. apply interpretationOverrides_row in E4.
  apply analysisOverrides_row in E5. apply backtestOverrides_row in E6.
  apply walkForwardOverrides_row in H.
  subst. reflexivity.
Qed.

(** The keys of the rows. *)
Definition stageKeys (rows : list (string * bool * list (string * JsonValue)))
  : list string := (fun row => row.1.1) <$> rows.

Lemma applyStage_other (fo : JsonObject)
  (row : string * bool * list (string * JsonValue)) (k : string) :
  row.1.1 <> k -> applyStage fo row !! k = fo !! k.
Proof.
  destruct row as [[key flag] fields]. cbn. intros Hne.
  destruct flag; [now rewrite lookup_insert_ne|reflexivity].
Qed.

Lemma foldl_applyStage_other (rows : list (string * bool * list (string * JsonValue)))
  (fo : JsonObject) (k : string) :
  k ∉ stageKeys rows -> foldl applyStage fo rows !! k = fo !! k.
Proof.
  revert fo. induction rows as [|row rows IH]; intros fo Hk; [reflexivity|].
  cbn [foldl]. cbn in Hk. apply not_elem_of_cons in Hk as [Hne Hk].
  rewrite IH by assumption. now apply applyStage_other.
Qed.

Lemma foldl_applyStage_row (rows : list (string * bool * list (string * JsonValue)))
  (fo : JsonObject) (key : string) (flag : bool)
  (fields : list (string * JsonValue)) :
  NoDup (stageKeys rows) -> (key, flag, fields) ∈ rows -> fo !! key = None ->
  foldl applyStage fo rows !! key
  = if flag then Some (JObj (list_to_map fields)) else None.
Proof.
  revert fo. induction rows as [|row rows IH]; intros fo Hnd Hin Hfo;
    [now apply elem_of_nil in Hin|].
  cbn in Hnd. apply NoDup_cons in Hnd as [Hfresh Hnd].
  cbn [foldl]. apply elem_of_cons in Hin as [<-|Hin].
  - rewrite foldl_applyStage_other by assumption. cbn.
    destruct flag; [apply lookup_insert_eq|assumption].
  - assert (Hne : row.1.1 <> key).
    { intros <-. apply Hfresh. unfold stageKeys.
      apply (list_elem_of_fmap_2 (fun row => row.1.1) _ _ Hin). }
    apply IH; try assumption. now rewrite applyStage_other.
Qed.

Lemma stageTable_NoDup (f : FormState) : NoDup (stageKeys (stageTable f)).
Proof.
  apply (bool_decide_unpack _). vm_compute. exact I.
Qed.

(** Reading the table: an enabled stage has its object under its key, a
    disabled stage has no key, and no other key is set. *)
Lemma formOverridesOf_row (f : FormState) (key : string) (flag : bool)
  (fields : list (string * JsonValue)) :
  (key, flag, fields) ∈ stageTable f ->
  formOverridesOf f !! key
  = if flag then Some (JObj (list_to_map fields)) else None.
Proof.
  intros Hin. apply foldl_applyStage_row; [apply stageTable_NoDup|assumption|].
  apply lookup_empty.
Qed.

Lemma stageTable_fields_NoDup (f : FormState) (key : string) (flag : bool)
  (fields : list (string * JsonValue)) :
  (key, flag, fields) ∈ stageTable f -> NoDup (fields.*1).
Proof.
  unfold stageTable. rewrite !elem_of_cons, elem_of_nil.
  intros H. repeat destruct H as [H|H]; try contradiction;
    injection H as _ _ ->; apply (bool_decide_unpack _); vm_compute; exact I.
Qed.

(** C8. When [onRun] submits, the [config_overrides] it sends is
    [deepMerge(parsedRawJsonOverrides, formOverrides)], where the raw
    overrides are the empty object for a blank box and the parsed text
    otherwise.  The form overrides are those of the stage table: an enabled
    stage has, under its key, the object of its fields with the values read
    from the form, and a disabled stage has no key.  Every field of an
    enabled stage reaches the payload with the form's value, whatever the
    raw JSON holds under that stage (with the label stage enabled the
    payload's [label_calculation.window] is the number of the form's
    window); and under every key the form does not set, the raw value is
    sent untouched. *)
Theorem onRun_config_overrides (JSON_parse : string -> option JsonValue)
  (f : FormState) (req : PipelineRunRequest) :
  onRun JSON_parse f = inr req ->
  exists (raw : JsonValue) (form_overrides : JsonObject),
    parseRawOverrides JSON_parse f = inr raw
    /\ (raw = if Text.truthy (Text.trim (overridesText f))
              then default (JObj ∅) (JSON_parse (overridesText f))
              else JObj ∅)
    /\ buildFormOverrides f = inr form_overrides
    /\ form_overrides = formOverridesOf f
    /\ config_overrides req = deepMerge raw (JObj form_overrides)
    /\ (forall (key : string) (flag : bool) (fields : list (string * JsonValue)),
           (key, flag, fields) ∈ stageTable f ->
           form_overrides !! key
           = if flag then Some (JObj (list_to_map fields)) else None)
    /\ (forall k : string,
           is_Some (form_overrides !! k) <-> (k, true) ∈ stageFlags f)
    /\ (forall (key : string) (fields : list (string * JsonValue))
               (field : string) (x : JsonValue),
           (key, true, fields) ∈ stageTable f -> (field, x) ∈ fields ->
           exists merged : JsonObject,
             config_overrides req !! key = Some (JObj merged)
             /\ merged !! field = Some x)
    /\ (forall (k : string) (v : JsonValue),
           form_overrides !! k = Some v ->
           exists fields : JsonObject,
             v = JObj fields
             /\ forall (field : string) (x : JsonValue),
                 fields !! field = Some x ->
                 exists merged : JsonObject,
                   config_overrides req !! k = Some (JObj merged)
                   /\ merged !! field = Some x)
    /\ (forall k : string,
           form_overrides !! k = None ->
           config_overrides req !! k = ownProperties raw !! k)
    /\ (useLabelOverrides f = true ->
        exists merged : JsonObject,
          config_overrides req !! "label_calculation" = Some (JObj merged)
          /\ merged !! "window" = Some (JNum (Number (labelWindow f)))).
Proof.
  unfold onRun, andThen. intros H.
  destruct (parseRawOverrides JSON_parse f) as [?|raw] eqn:Hraw; [discriminate|].
  destruct (buildFormOverrides f) as [?|fo] eqn:Hfo; [discriminate|].
  injection H as <-. cbn [config_overrides].
  pose proof (buildFormOverrides_stages f fo Hfo) as Hdone.
  pose proof (buildFormOverrides_table f fo Hfo) as Htable.
  assert (Hprec : forall (k : string) (v : JsonValue),
             fo !! k = Some v ->
             exists fields : JsonObject,
               v = JObj fields
               /\ forall (field : string) (x : JsonValue),
                   fields !! field = Some x ->
                   exists merged : JsonObject,
                     deepMerge raw (JObj fo) !! k = Some (JObj merged)
                     /\ merged !! field = Some x).
  { intros k v Hk. destruct (proj2 (Hdone k) v Hk) as (fields & -> & Hleaf).
    exists fields. split; [reflexivity|]. intros field x Hx.
    now apply deepMerge_leaf with (fo := fo) (fields := fields). }
  assert (Hrow : forall (key : string) (fields : list (string * JsonValue))
                        (field : string) (x : JsonValue),
             (key, true, fields) ∈ stageTable f -> (field, x) ∈ fields ->
             exists merged : JsonObject,
               deepMerge raw (JObj fo) !! key = Some (JObj merged)
               /\ merged !! field = Some x).
  { intros key fields field x Hin Hx.
    pose proof (formOverridesOf_row f key true fields Hin) as Hk.
    rewrite <- Htable in Hk.
    destruct (Hprec _ _ Hk) as (fields' & [= <-] & Hall).
    apply Hall. apply elem_of_list_to_map_1; [|assumption].
    exact (stageTable_fields_NoDup f key true fields Hin). }
  exists raw, fo. split; [reflexivity|]. split.
  { unfold parseRawOverrides in Hraw.
    destruct (Text.truthy _); [|congruence].
    destruct (JSON_parse _); [|discriminate]. cbn. congruence. }
  split; [reflexivity|]. split; [assumption|]. split; [reflexivity|].
  split; [|split; [|split; [|split; [|split]]]].
  - intros key flag fields Hin. rewrite Htable. now apply formOverridesOf_row.
  - intros k. apply Hdone.
  - exact Hrow.
  - exact Hprec.
  - intros k Hk. change (deepMerge raw (JObj fo) !! k = ownProperties raw !! k).
    now rewrite deepMerge_lookup, Hk.
  - intros Hon. eapply Hrow.
    + unfold stageTable. rewrite Hon, !elem_of_cons. right; left. reflexivity.
    + rewrite elem_of_cons. left. reflexivity.
Qed.

(** The initial form with the label stage enabled, a given window and a
    given text in the raw override box. *)
Definition labelForm (window overrides : string) : FormState := {|
  symbol := symbol initialForm; startDate := startDate initialForm;
  endDate := endDate initialForm; interval := interval initialForm;
  templateChoice := templateChoice initialForm;
  defaultTemplateId := defaultTemplateId initialForm;
  overridesText := overrides;
  useFeatureOverrides := false; alphaTypes := alphaTypes initialForm;
  instrumentName := instrumentName initialForm;
  useLabelOverrides := true; labelWindow := window;
  labelLookForward := labelLookForward initialForm;
  labelType := labelType initialForm;
  labelFilterType := labelFilterType initialForm;
  labelThreshold := labelThreshold initialForm;
  useTrainingOverrides := false; numBoostRound := numBoostRound initialForm;
  numThreads := numThreads initialForm;
  useInterpretationOverrides := false;
  shapMaxSamples := shapMaxSamples initialForm;
  shapMaxDisplay := shapMaxDisplay initialForm;
  useAnalysisOverrides := false;
  selectedFeaturesText := selectedFeaturesText initialForm;
  maxFeatures := maxFeatures initialForm; maxDepth := maxDepth initialForm;
  minSamplesSplit := minSamplesSplit initialForm;
  minSamplesLeaf := minSamplesLeaf initialForm;
  minRuleSamples := minRuleSamples initialForm;
  analysisLabelThreshold := analysisLabelThreshold initialForm;
  useBacktestOverrides := false;
  positionFraction := positionFraction initialForm;
  positionNotional := positionNotional initialForm;
  orderIntervalMinutes := orderIntervalMinutes initialForm;
  lookForwardBars := lookForwardBars initialForm;
  pnlMode := pnlMode initialForm; backtestType := backtestType initialForm;
  backtestFilterType := backtestFilterType initialForm;
  minRuleConfidence := minRuleConfidence initialForm;
  winProfit := winProfit initialForm; lossCost := lossCost initialForm;
  initialBalance := initialBalance initialForm;
  feeRate := feeRate initialForm; slippageBps := slippageBps initialForm;
  useWalkForwardOverrides := false;
  walkForwardEnabled := walkForwardEnabled initialForm;
  trainBars := trainBars initialForm; testBars := testBars initialForm;
  stepBars := stepBars initialForm; maxWindows := maxWindows initialForm
|}.

(** A raw override text, of the shape
    [{ seed: 7, label_calculation: { window: 5, note: 1 } }], and a
    [JSON.parse] that reads this one text. *)
Definition sampleText : string :=
  let q := String "034" "" in
  "{" +:+ q +:+ "seed" +:+ q +:+ ":7," +:+ q +:+ "label_calculation" +:+ q
  +:+ ":{" +:+ q +:+ "window" +:+ q +:+ ":5," +:+ q +:+ "note" +:+ q +:+ ":1}}".

Definition sampleRaw : JsonValue :=
  JObj (<["seed" := JNum 7]>
        {[ "label_calculation" :=
             JObj (<["window" := JNum 5]> {[ "note" := JNum 1 ]}) ]}).

Definition sampleParse (text : string) : option JsonValue :=
  if String.eqb text sampleText then Some sampleRaw else None.

Lemma onRun_config_overrides_witness :
  exists req : PipelineRunRequest,
    onRun sampleParse (labelForm "29" sampleText) = inr req
    /\ (exists (raw : JsonValue) (form_overrides : JsonObject),
        parseRawOverrides sampleParse (labelForm "29" sampleText) = inr raw
        /\ (raw = if Text.truthy (Text.trim (overridesText (labelForm "29" sampleText)))
                  then default (JObj ∅) (sampleParse (overridesText (labelForm "29" sampleText)))
                  else JObj ∅)
        /\ buildFormOverrides (labelForm "29" sampleText) = inr form_overrides
        /\ form_overrides = formOverridesOf (labelForm "29" sampleText)
        /\ config_overrides req = deepMerge raw (JObj form_overrides)
        /\ (forall (key : string) (flag : bool) (fields : list (string * JsonValue)),
               (key, flag, fields) ∈ stageTable (labelForm "29" sampleText) ->
               form_overrides !! key
               = if flag then Some (JObj (list_to_map fields)) else None)
        /\ (forall k : string,
               is_Some (form_overrides !! k) <-> (k, true) ∈ stageFlags (labelForm "29" sampleText))
        /\ (forall (key : string) (fields : list (string * JsonValue))
                   (field : string) (x : JsonValue),
               (key, true, fields) ∈ stageTable (labelForm "29" sampleText) -> (field, x) ∈ fields ->
               exists merged : JsonObject,
                 config_overrides req !! key = Some (JObj merged)
                 /\ merged !! field = Some x)
        /\ (forall (k : string) (v : JsonValue),
               form_overrides !! k = Some v ->
               exists fields : JsonObject,
                 v = JObj fields
                 /\ forall (field : string) (x : JsonValue),
                     fields !! field = Some x ->
                     exists merged : JsonObject,
                       config_overrides req !! k = Some (JObj merged)
                       /\ merged !! field = Some x)
        /\ (forall k : string,
               form_overrides !! k = None ->
               config_overrides req !! k = ownProperties raw !! k)
        /\ (useLabelOverrides (labelForm "29" sampleText) = true ->
            exists merged : JsonObject,
              config_overrides req !! "label_calculation" = Some (JObj merged)
              /\ merged !! "window" = Some (JNum (Number (labelWindow (labelForm "29" sampleText)))))).
Proof.
  destruct (onRun sampleParse (labelForm "29" sampleText)) as [e|req] eqn:E.
  - vm_compute in E. discriminate E.
  - exists req. split; [reflexivity|].
    exact (onRun_config_overrides sampleParse (labelForm "29" sampleText) req E).
Defined.

(** The sample submission, read off: the form's window 29 wins over the
    raw window 5, the raw note and seed are kept. *)
Example onRun_sample :
  config_overrides <$> sum_rect (fun _ => option PipelineRunRequest)
                         (fun _ => None) Some
                         (onRun sampleParse (labelForm "29" sampleText))
  = Some (<["seed" := JNum 7]>
          {[ "label_calculation" :=
               JObj (<["window" := JNum 29]>
                    (<["look_forward" := JNum 10]>
                    (<["label_type" := JStr "up"]>
                    (<["filter_type" := JStr "rsi"]>
                    (<["threshold" := JNull]>
                    {[ "note" := JNum 1 ]}))))) ]}).
Proof. vm_compute. reflexivity. Qed.

Lemma isInteger_ofZ (z : Z) : isInteger (ofZ z) = true.
Proof. unfold isInteger, ofZ. rewrite Qfloor_Z. apply Qeq_bool_refl. Qed.

Lemma eqb_ofZ (a b : Z) : eqb (ofZ a) (ofZ b) = (a =? b).
Proof. unfold eqb. rewrite cmp_ofZ, Z.eqb_compare. now destruct (a ?= b). Qed.

Lemma rem_ofZ (a b : Z) : b <> 0 -> rem (ofZ a) (ofZ b) = ofZ (Z.rem a b).
Proof.
  intros Hb. unfold rem, ofZ at 1 2. rewrite Qeq_bool_inject_Z_0.
  destruct (Z.eqb_spec b 0) as [->|_]; [congruence|].
  apply norm_inject_Z.
  assert (Ht : Qtrunc (inject_Z a / inject_Z b) = Z.quot a b).
  { unfold Qtrunc. destruct b as [|p|p]; [congruence| |];
      unfold Qdiv, Qinv, Qmult, inject_Z; cbn [Qnum Qden].
    - now rewrite Z.mul_1_r.
    - replace (a * -1) with (- a) by lia.
      change (Z.pos (1 * p)) with (Z.pos p).
      change (Z.neg p) with (- Z.pos p).
      now rewrite Z.quot_opp_l, Z.quot_opp_r by lia. }
  rewrite Ht, <- inject_Z_mult. unfold Qminus.
  rewrite <- inject_Z_opp, <- inject_Z_plus.
  replace (a + - (b * Z.quot a b)) with (Z.rem a b)
    by (rewrite Z.rem_eq by assumption; lia).
  reflexivity.
Qed.

Lemma notIntegerAtLeast_ofZ (least w : Z) :
  notIntegerAtLeast (ofZ least) (ofZ w) = (w <? least).
Proof.
  unfold notIntegerAtLeast.
  rewrite isFinite_ofZ, isInteger_ofZ, ltb_ofZ. cbn. apply orb_false_r.
Qed.

Lemma rem2_ofZ (w : Z) :
  0 <= w -> (rem (ofZ w) 2 =? 0)%js = Z.even w.
Proof.
  intros Hw. js_lits. rewrite rem_ofZ, eqb_ofZ by lia.
  rewrite Z.rem_mod_nonneg, Zmod_even by lia. now destruct (Z.even w).
Qed.

(** An even window, such as 30, is refused on both pages. *)
Lemma even_window_rejected :
  onRun (fun _ => None) (labelForm "30" "")
  = inl (Invalid "标签参数：window 建议为奇数（例如 29）。")
  /\ rerunLabelChecks "30" "10"
     = inl (Invalid "标签参数：window 建议为奇数（例如 29）。").
Proof. split; vm_compute; reflexivity. Qed.

(** C1, amended. With the label stage enabled and an integer window of at
    least 3, the window is accepted exactly when it is odd.  An even window
    raises the oddness error in the label stage, [onRun] then submits
    nothing, and the rerun page raises the same error; an odd window passes
    the window checks, and with a valid look-forward and threshold the
    stage records it. *)
Theorem label_window_validation (f : FormState) (fo : JsonObject) (w : Z) :
  useLabelOverrides f = true ->
  Number (labelWindow f) = ofZ w ->
  3 <= w ->
  (Z.even w = true ->
     labelOverrides f fo
     = inl (Invalid "标签参数：window 建议为奇数（例如 29）。")
     /\ (forall JSON_parse, exists e, onRun JSON_parse f = inl e)
     /\ (forall lookForward,
          rerunLabelChecks (labelWindow f) lookForward
          = inl (Invalid "标签参数：window 建议为奇数（例如 29）。")))
  /\ (Z.even w = false ->
      notIntegerAtLeast 1 (Number (labelLookForward f)) = false ->
      optionalNotFinite (Text.trim (labelThreshold f))
        (optionalNumber (Text.trim (labelThreshold f))) = false ->
      exists fields : JsonObject,
        labelOverrides f fo = inr (<["label_calculation" := JObj fields]> fo)
        /\ fields !! "window" = Some (JNum (ofZ w))).
Proof.
  intros Hon Hw H3.
  assert (Hint : notIntegerAtLeast 3 (ofZ w) = false).
  { change 3%js with (ofZ 3). rewrite notIntegerAtLeast_ofZ. lia. }
  pose proof (rem2_ofZ w ltac:(lia)) as Hrem.
  split.
  - intros Heven. rewrite Heven in Hrem.
    assert (Hstage : forall fo', labelOverrides f fo' =
                        inl (Invalid "标签参数：window 建议为奇数（例如 29）。")).
    { intros fo'. unfold labelOverrides. rewrite Hon. cbv zeta.
      rewrite Hw. unfold throwIf at 1. rewrite Hint.
      unfold throwIf at 1. now rewrite Hrem. }
    split; [apply Hstage|]. split.
    + intros JSON_parse. unfold onRun, andThen.
      destruct (parseRawOverrides JSON_parse f); [eauto|].
      unfold buildFormOverrides, andThen.
      destruct (featureOverrides f ∅); [eauto|].
      rewrite Hstage. eauto.
    + intros lookForward. unfold rerunLabelChecks. cbv zeta.
      rewrite Hw. unfold throwIf at 1. rewrite Hint.
      unfold throwIf at 1. now rewrite Hrem.
  - intros Hodd Hlf Hth. rewrite Hodd in Hrem.
    unfold labelOverrides. rewrite Hon. cbv zeta.
    rewrite Hw. unfold throwIf. rewrite Hint, Hrem, Hlf, Hth.
    eexists. split; [reflexivity|]. apply lookup_insert_eq.
Qed.

Lemma label_window_validation_witness :
  labelOverrides (labelForm "30" "") ∅
  = inl (Invalid "标签参数：window 建议为奇数（例如 29）。")
  /\ exists fields : JsonObject,
      labelOverrides (labelForm "29" "") ∅
      = inr (<["label_calculation" := JObj fields]> ∅)
      /\ fields !! "window" = Some (JNum 29).
Proof.
  split.
  - apply (label_window_validation (labelForm "30" "") ∅ 30);
      [reflexivity|reflexivity|lia|reflexivity].
  - apply (label_window_validation (labelForm "29" "") ∅ 29);
      [reflexivity|reflexivity|lia|reflexivity|reflexivity|reflexivity].
Defined.

End SubmitHandler.

(** ** BacktestAssessor *)

Section BacktestAssessor.
Import Js JsFacts.

Lemma ltb_Fin (a b : Q) : ltb (Fin a) (Fin b) = true <-> (a < b)%Q.
Proof.
  unfold ltb, cmp. rewrite Qlt_alt. destruct (a ?= b)%Q; split; congruence.
Qed.

Lemma ltb_Fin_false (a b : Q) : ltb (Fin a) (Fin b) = false <-> (b <= a)%Q.
Proof.
  rewrite <- not_true_iff_false, ltb_Fin. split.
  - apply Qnot_lt_le.
  - apply Qle_not_lt.
Qed.

Lemma leb_Fin (a b : Q) : leb (Fin a) (Fin b) = true <-> (a <= b)%Q.
Proof.
  unfold leb, cmp. rewrite Qle_alt. destruct (a ?= b)%Q; split; congruence.
Qed.

Lemma leb_Fin_false (a b : Q) : leb (Fin a) (Fin b) = false <-> (b < a)%Q.
Proof.
  rewrite <- not_true_iff_false, leb_Fin. split.
  - apply Qnot_le_lt.
  - apply Qlt_not_le.
Qed.

(** The verdicts, by their meaning. *)
Definition noResult : Verdict :=
  {| label := "暂无结果"; variant := secondary |}.
Definition looksGood : Verdict :=
  {| label := "看起来不错"; variant := success |}.
Definition keepValidating : Verdict :=
  {| label := "一般（建议继续验证）"; variant := secondary |}.
Definition needsOptimization : Verdict :=
  {| label := "偏弱（建议先优化）"; variant := destructive |}.

(** The metrics the summary reads from the statistics. *)
Definition metricsOf (stats : JsonValue)
  : option number * option number * option number * option number :=
  (toNumber (getField stats "profit_rate"),
   toNumber (getField stats "max_drawdown"),
   toNumber (getField stats "total_trades"),
   feeRatioOf (toNumber (getField stats "initial_balance"))
              (toNumber (getField stats "fees_paid"))).

Lemma score_additive (p d t r : option number) :
  score p d t r =
  score p None None None + score None d None None
  + score None None t None + score None None None r.
Proof.
  unfold score. destruct p, d, t, r; cbv zeta;
    repeat match goal with |- context [if ?c then _ else _] => destruct c end;
    lia.
Qed.

Lemma verdict_rule (p : number) (s : Z) :
  verdictOf None s = noResult
  /\ (3 <= s -> verdictOf (Some p) s = looksGood)
  /\ (0 <= s < 3 -> verdictOf (Some p) s = keepValidating)
  /\ (s < 0 -> verdictOf (Some p) s = needsOptimization).
Proof.
  unfold verdictOf. repeat split; intros;
    destruct (Z.leb_spec 3 s), (Z.leb_spec 0 s); (reflexivity || lia).
Qed.

(** The losing example of the specification: a loss of 0.1, a drawdown of
    0.35 and 5 trades, fees absent, score -6: "weak", with the strong
    drawdown and the strong low-trade-count warnings. *)
Definition weakStats : JsonValue :=
  JObj (<["profit_rate" := JNum (norm (-1 # 10))]>
       (<["max_drawdown" := JNum (norm (35 # 100))]>
       {[ "total_trades" := JNum 5 ]})).

Example backtest_assessment_weak :
  (let '(p, d, t, r) := metricsOf weakStats in score p d t r) = -6
  /\ exists a : Assessment,
      backtestSummary (Some weakStats) None None None = Some a
      /\ verdict a = needsOptimization
      /\ warnings a = ["回撤很大：波动/风险偏高。"; "交易次数很少：结论很不稳定。"].
Proof.
  split; [vm_compute; reflexivity|].
  eexists. split; [vm_compute; reflexivity|]. split; reflexivity.
Qed.

End BacktestAssessor.

(** * Double precision

    What the rounding of doubles leaves exact, and the properties that
    depend on it. *)

(** ** Rounding to the nearest double *)

Module Binary64Facts.
Import Js JsFacts Binary64.

Lemma pow2_pos (e : Z) : (0 < pow2 e)%Q.
Proof. apply Qpower_0_lt. reflexivity. Qed.

Lemma pow2_add (a b : Z) : (pow2 (a + b) == pow2 a * pow2 b)%Q.
Proof. apply Qpower_plus. discriminate. Qed.

Lemma pow2_le (a b : Z) : a <= b -> (pow2 a <= pow2 b)%Q.
Proof. intros H. apply Qpower_le_compat_l; [assumption|discriminate]. Qed.

Lemma pow2_lt (a b : Z) : a < b -> (pow2 a < pow2 b)%Q.
Proof. intros H. apply Qpower_lt_compat_l; [assumption|reflexivity]. Qed.

Lemma pow2_lt_inv (a b : Z) : (pow2 a < pow2 b)%Q -> a < b.
Proof. intros H. apply (Qpower_lt_compat_l_inv 2); [assumption|reflexivity]. Qed.

Lemma pow2_inject (n : Z) : 0 <= n -> (pow2 n == inject_Z (2 ^ n))%Q.
Proof. intros H. unfold pow2. now rewrite (Zpower_Qpower 2 n H). Qed.

Lemma pow2_opp (n : Z) : (pow2 (- n) == / pow2 n)%Q.
Proof. apply Qpower_opp. Qed.

Lemma pow2_sub (a b : Z) : (pow2 (a - b) == pow2 a / pow2 b)%Q.
Proof.
  unfold Z.sub, Qdiv. now rewrite pow2_add, pow2_opp.
Qed.

(** A positive rational lies between the powers of two of its binary
    exponent. *)
Lemma exponent_spec (q : Q) :
  (0 < q)%Q -> (pow2 (exponent q) <= q < pow2 (exponent q + 1))%Q.
Proof.
  intros Hq. destruct q as [a b]. unfold exponent. cbn [Qnum Qden].
  assert (Ha : 0 < a) by (unfold Qlt in Hq; cbn in Hq; lia).
  pose proof (Z.log2_spec a Ha) as [La Ua].
  pose proof (Z.log2_spec (Z.pos b) (Pos2Z.is_pos b)) as [Lb Ub].
  pose proof (Z.log2_nonneg a) as Na.
  pose proof (Z.log2_nonneg (Z.pos b)) as Nb.
  set (la := Z.log2 a) in *. set (lb := Z.log2 (Z.pos b)) in *.
  assert (Hq' : (a # b == inject_Z a / inject_Z (Z.pos b))%Q)
    by (rewrite Qmake_Qdiv; reflexivity).
  assert (Hb0 : (0 < inject_Z (Z.pos b))%Q) by (rewrite <- (Zlt_Qlt 0); lia).
  assert (Hp : forall k, (0 < pow2 k)%Q) by apply pow2_pos.
  destruct (Qle_bool (pow2 (la - lb)) (a # b)) eqn:E.
  - apply Qle_bool_iff in E. split; [assumption|].
    replace (la - lb + 1) with (la + 1 - lb) by lia.
    rewrite pow2_sub, Hq', !pow2_inject by lia.
    apply Qlt_shift_div_l; [rewrite <- (Zlt_Qlt 0); lia|].
    unfold Qdiv. rewrite <- Qmult_assoc, (Qmult_comm (/ _)), Qmult_assoc.
    apply Qlt_shift_div_r; [assumption|].
    rewrite <- !inject_Z_mult, <- Zlt_Qlt. nia.
  - assert (E' : ~ (pow2 (la - lb) <= a # b)%Q)
      by (rewrite <- Qle_bool_iff; congruence).
    apply Qnot_le_lt in E'. split.
    + replace (la - lb - 1) with (la - (lb + 1)) by lia.
      rewrite pow2_sub, Hq', !pow2_inject by lia.
      apply Qle_shift_div_r; [rewrite <- (Zlt_Qlt 0); lia|].
      unfold Qdiv. rewrite <- Qmult_assoc, (Qmult_comm (/ _)), Qmult_assoc.
      apply Qle_shift_div_l; [assumption|].
      rewrite <- !inject_Z_mult, <- Zle_Qle. nia.
    + now replace (la - lb - 1 + 1) with (la - lb) by lia.
Qed.

Lemma exponent_unique (q : Q) (e : Z) :
  (pow2 e <= q < pow2 (e + 1))%Q -> exponent q = e.
Proof.
  intros [Hlo Hhi].
  assert (Hq : (0 < q)%Q) by (apply Qlt_le_trans with (pow2 e); [apply pow2_pos|assumption]).
  destruct (exponent_spec q Hq) as [Slo Shi].
  assert (H1 : exponent q < e + 1)
    by (apply pow2_lt_inv; apply Qle_lt_trans with q; assumption).
  assert (H2 : e < exponent q + 1)
    by (apply pow2_lt_inv; apply Qle_lt_trans with q; assumption).
  lia.
Qed.

Lemma exponent_comp (q q' : Q) :
  (0 < q)%Q -> (q == q')%Q -> exponent q = exponent q'.
Proof.
  intros Hq E. symmetry. apply exponent_unique. rewrite <- E.
  now apply exponent_spec.
Qed.


Lemma nearestEven_comp (q q' : Q) : (q == q')%Q -> nearestEven q = nearestEven q'.
Proof.
  intros E. unfold nearestEven. rewrite (Qfloor_comp _ _ E).
  assert (H : (q - inject_Z (Qfloor q') ?= 1 # 2)%Q
              = (q' - inject_Z (Qfloor q') ?= 1 # 2)%Q) by now rewrite E.
  now rewrite H.
Qed.

Lemma nearestEven_inject (z : Z) : nearestEven (inject_Z z) = z.
Proof.
  unfold nearestEven. rewrite Qfloor_Z.
  assert (H : (inject_Z z - inject_Z z ?= 1 # 2)%Q = Lt).
  { apply Qlt_alt. unfold Qminus. rewrite Qplus_opp_r. reflexivity. }
  now rewrite H.
Qed.

Lemma floor_bounds (q : Q) :
  (inject_Z (Qfloor q) <= q < inject_Z (Qfloor q) + 1)%Q.
Proof.
  split; [apply Qfloor_le|].
  pose proof (Qlt_floor q) as H. now rewrite inject_Z_plus in H.
Qed.

Lemma nearestEven_error (q : Q) :
  (Qabs (inject_Z (nearestEven q) - q) <= 1 # 2)%Q.
Proof.
  unfold nearestEven. destruct (floor_bounds q) as [Hlo Hhi].
  set (f := Qfloor q) in *. apply Qabs_Qle_condition.
  assert (Hf : inject_Z (f + 1) = (inject_Z f + 1)%Q) by apply inject_Z_plus.
  destruct (Qcompare_spec (q - inject_Z f) (1 # 2)) as [E|E|E];
    [destruct (Z.even f)| |]; rewrite ?Hf;
    generalize dependent (inject_Z f); intros x; intros; split; lra.
Qed.

Lemma lastPlace_comp (a a' : Q) :
  (0 < a)%Q -> (a == a')%Q -> lastPlace a = lastPlace a'.
Proof. intros Ha E. unfold lastPlace. now rewrite (exponent_comp a a' Ha E). Qed.

Lemma nearest_comp (a a' : Q) :
  (0 < a)%Q -> (a == a')%Q -> (nearest a == nearest a')%Q.
Proof.
  intros Ha E. unfold nearest. rewrite <- (lastPlace_comp a a' Ha E).
  assert (H : (a / pow2 (lastPlace a) == a' / pow2 (lastPlace a))%Q)
    by (apply Qdiv_comp; [assumption|reflexivity]).
  now rewrite (nearestEven_comp _ _ H).
Qed.

Lemma round64_comp (q q' : Q) : (q == q')%Q -> round64 q = round64 q'.
Proof.
  intros E. unfold round64.
  assert (H : (q ?= 0)%Q = (q' ?= 0)%Q) by now rewrite E.
  now rewrite H, (Qred_complete _ _ E).
Qed.

Lemma norm_comp (q q' : Q) : (q == q')%Q -> norm q = norm q'.
Proof. intros E. unfold norm. now rewrite (Qred_complete _ _ E). Qed.

Lemma round64_pos (q : Q) :
  (0 < q)%Q ->
  round64 q =
  if Qle_bool (pow2 1024) (nearest q) then PosInf else norm (nearest q).
Proof.
  intros Hq. unfold round64.
  assert (H : (q ?= 0)%Q = Gt) by now apply Qgt_alt.
  rewrite H.
  assert (E : (Qabs (Qred q) == q)%Q).
  { rewrite Qred_correct. apply Qabs_pos. now apply Qlt_le_weak. }
  assert (Ha : (0 < Qabs (Qred q))%Q) by now rewrite E.
  pose proof (nearest_comp _ _ Ha E) as En.
  assert (Hb : Qle_bool (pow2 1024) (nearest (Qabs (Qred q)))
               = Qle_bool (pow2 1024) (nearest q)).
  { apply eq_true_iff_eq. rewrite !Qle_bool_iff. now rewrite En. }
  rewrite Hb. cbn [signedInf]. now rewrite (norm_comp _ _ En).
Qed.

Lemma Qabs_opp_eq (q : Q) : Qabs (- q) = Qabs q.
Proof. destruct q as [n d]. cbn. now rewrite Z.abs_opp. Qed.

Lemma neg_norm (q : Q) : neg (norm q) = norm (- q).
Proof.
  unfold neg, norm. apply norm_comp. now rewrite Qred_correct.
Qed.

Lemma round64_opp (q : Q) : round64 (- q) = neg (round64 q).
Proof.
  unfold round64. rewrite Qred_opp, Qabs_opp_eq.
  set (r := nearest (Qabs (Qred q))).
  destruct q as [[|p|p] d].
  - reflexivity.
  - change (- (Z.pos p # d) ?= 0)%Q with Lt.
    change (Z.pos p # d ?= 0)%Q with Gt.
    destruct (Qle_bool (pow2 1024) r); [reflexivity|].
    now rewrite neg_norm.
  - change (- (Z.neg p # d) ?= 0)%Q with Gt.
    change (Z.neg p # d ?= 0)%Q with Lt.
    destruct (Qle_bool (pow2 1024) r); [reflexivity|].
    rewrite neg_norm. apply norm_comp. now rewrite Qopp_involutive.
Qed.

(** A value with at most 53 significant bits is a double: rounding keeps
    it. *)
Lemma round64_dyadic (m g : Z) :
  0 < m < 2 ^ 53 -> -1074 <= g <= 971 ->
  round64 (inject_Z m * pow2 g) = norm (inject_Z m * pow2 g).
Proof.
  intros Hm Hg. set (q := (inject_Z m * pow2 g)%Q).
  assert (Hm0 : (0 < inject_Z m)%Q) by (rewrite <- (Zlt_Qlt 0); lia).
  assert (Hq : (0 < q)%Q).
  { unfold q. apply Qmult_lt_0_compat; [assumption|apply pow2_pos]. }
  assert (Hup : (q < pow2 (53 + g))%Q).
  { unfold q. rewrite pow2_add, (pow2_inject 53) by lia.
    apply Qmult_lt_compat_r; [apply pow2_pos|]. rewrite <- Zlt_Qlt. lia. }
  destruct (exponent_spec q Hq) as [Elo _].
  assert (He : exponent q < 53 + g)
    by (apply pow2_lt_inv; apply Qle_lt_trans with q; assumption).
  assert (Hl : -1074 <= lastPlace q <= g) by (unfold lastPlace; lia).
  set (e := lastPlace q) in *.
  assert (Hdiv : (q / pow2 e == inject_Z (m * 2 ^ (g - e)))%Q).
  { unfold q. rewrite inject_Z_mult, <- (pow2_inject (g - e)) by lia.
    rewrite pow2_sub. field. apply Qnot_eq_sym, Qlt_not_eq, pow2_pos. }
  assert (Hn : (nearest q == q)%Q).
  { unfold nearest. fold e. rewrite (nearestEven_comp _ _ Hdiv), nearestEven_inject.
    rewrite <- Hdiv. field. apply Qnot_eq_sym, Qlt_not_eq, pow2_pos. }
  rewrite (round64_pos q Hq).
  assert (Hb : Qle_bool (pow2 1024) (nearest q) = false).
  { apply not_true_iff_false. rewrite Qle_bool_iff, Hn.
    apply Qlt_not_le. apply Qlt_le_trans with (pow2 (53 + g)); [assumption|].
    apply pow2_le. lia. }
  rewrite Hb. now apply norm_comp.
Qed.

(** Whole numbers up to 2^53 in magnitude are doubles. *)
Lemma round64_ofZ (z : Z) :
  Z.abs z <= 2 ^ 53 -> round64 (inject_Z z) = ofZ z.
Proof.
  assert (Hpos : forall p : Z, 0 < p <= 2 ^ 53 -> round64 (inject_Z p) = ofZ p).
  { intros p Hp. destruct (Z.eq_dec p (2 ^ 53)) as [->|Hne];
      [vm_compute; reflexivity|].
    assert (E : (inject_Z p == inject_Z p * pow2 0)%Q)
      by (change (pow2 0) with 1%Q; ring).
    rewrite (round64_comp _ _ E), round64_dyadic by lia.
    apply norm_inject_Z. now rewrite <- E. }
  intros Hz. destruct (Z.lt_trichotomy z 0) as [Hneg|[->|Hp]].
  - assert (E : (inject_Z z == - inject_Z (- z))%Q)
      by (rewrite <- inject_Z_opp, Z.opp_involutive; reflexivity).
    rewrite (round64_comp _ _ E), round64_opp, Hpos by lia.
    rewrite neg_ofZ. f_equal. lia.
  - reflexivity.
  - apply Hpos. lia.
Qed.


Lemma lastPlace_range (q : Q) :
  (0 < q < pow2 1023)%Q -> -1074 <= lastPlace q <= 970.
Proof.
  intros [Hq Hup]. destruct (exponent_spec q Hq) as [Elo _].
  assert (exponent q < 1023)
    by (apply pow2_lt_inv; apply Qle_lt_trans with q; assumption).
  unfold lastPlace. lia.
Qed.

(** Rounding moves a value by at most half a unit of its last place. *)
Lemma nearest_error (q : Q) :
  (0 < q)%Q -> (Qabs (nearest q - q) <= pow2 (lastPlace q - 1))%Q.
Proof.
  intros Hq. unfold nearest. set (e := lastPlace q).
  pose proof (nearestEven_error (q / pow2 e)) as Herr.
  pose proof (pow2_pos e) as He.
  assert (E : (inject_Z (nearestEven (q / pow2 e)) * pow2 e - q
               == (inject_Z (nearestEven (q / pow2 e)) - q / pow2 e) * pow2 e)%Q).
  { field. apply Qnot_eq_sym, Qlt_not_eq, He. }
  rewrite E, Qabs_Qmult, (Qabs_pos (pow2 e)) by now apply Qlt_le_weak.
  assert (Hh : (pow2 (e - 1) == (1 # 2) * pow2 e)%Q).
  { rewrite pow2_sub. change (pow2 1) with 2%Q. field. }
  rewrite Hh. apply Qmult_le_compat_r; [assumption|now apply Qlt_le_weak].
Qed.

(** Below 2^1023 nothing overflows. *)
Lemma round64_finite (q : Q) :
  (0 < q < pow2 1023)%Q ->
  exists r : Q, round64 q = Fin r /\ (r == nearest q)%Q.
Proof.
  intros Hq. pose proof (lastPlace_range q Hq) as Hl. destruct Hq as [Hq Hup].
  rewrite (round64_pos q Hq).
  pose proof (nearest_error q Hq) as Herr.
  apply Qabs_Qle_condition in Herr as [_ Herr].
  assert (Hs : (pow2 (lastPlace q - 1) <= pow2 1023)%Q) by (apply pow2_le; lia).
  assert (H24 : (pow2 1024 == 2 * pow2 1023)%Q).
  { change 1024 with (1 + 1023). rewrite pow2_add. reflexivity. }
  assert (Hb : Qle_bool (pow2 1024) (nearest q) = false).
  { apply not_true_iff_false. rewrite Qle_bool_iff, H24.
    apply Qlt_not_le. generalize dependent (pow2 1023). intros. lra. }
  rewrite Hb. exists (Qred (nearest q)). split; [reflexivity|apply Qred_correct].
Qed.

(** The half unit of the last place is below [q / 2^53], or below the
    least double. *)
Lemma half_place_small (q : Q) :
  (0 < q)%Q ->
  (pow2 (lastPlace q - 1) * pow2 53 <= q)%Q \/ lastPlace q = -1074.
Proof.
  intros Hq. destruct (exponent_spec q Hq) as [Elo _]. unfold lastPlace.
  destruct (Z.max_spec (exponent q - 52) (-1074)) as [[_ ->]|[_ ->]];
    [now right|left].
  rewrite <- pow2_add. now replace (exponent q - 52 - 1 + 53) with (exponent q) by lia.
Qed.


Lemma gap_lt (A C D P r q eps : Q) :
  (0 < C)%Q -> (0 < D)%Q -> (q * C == A)%Q -> (r - q <= eps)%Q ->
  (eps * C * D < 1)%Q -> (A * D + 1 <= P * C)%Q -> (r * D < P)%Q.
Proof.
  intros HC HD Hq Herr Heps Hgap.
  apply Qnot_le_lt. intros Hle.
  assert (H1 : (P * C <= r * D * C)%Q)
    by (apply Qmult_le_compat_r; [assumption|now apply Qlt_le_weak]).
  assert (HCD : (0 < C * D)%Q) by now apply Qmult_lt_0_compat.
  assert (H2 : ((r - q) * (C * D) <= eps * (C * D))%Q)
    by (apply Qmult_le_compat_r; [assumption|now apply Qlt_le_weak]).
  assert (H3 : (q * C * D == A * D)%Q) by now rewrite Hq.
  nra.
Qed.

Lemma gap_gt (A C D P r q eps : Q) :
  (0 < C)%Q -> (0 < D)%Q -> (q * C == A)%Q -> (q - r <= eps)%Q ->
  (eps * C * D < 1)%Q -> (P * C + 1 <= A * D)%Q -> (P < r * D)%Q.
Proof.
  intros HC HD Hq Herr Heps Hgap.
  apply Qnot_le_lt. intros Hle.
  assert (H1 : (r * D * C <= P * C)%Q)
    by (apply Qmult_le_compat_r; [assumption|now apply Qlt_le_weak]).
  assert (HCD : (0 < C * D)%Q) by now apply Qmult_lt_0_compat.
  assert (H2 : ((q - r) * (C * D) <= eps * (C * D))%Q)
    by (apply Qmult_le_compat_r; [assumption|now apply Qlt_le_weak]).
  assert (H3 : (q * C * D == A * D)%Q) by now rewrite Hq.
  nra.
Qed.

(** The rounded quotient of two whole numbers stays on its side of every
    fraction [p / d] with a small denominator: rounding cannot carry
    [a / c] across, because the two differ by at least [1 / (c * d)]. *)
Lemma round64_quotient (a c p d : Z) :
  0 < a -> 0 < c -> 0 < d -> a * d < 2 ^ 53 -> c * d <= 2 ^ 1074 ->
  exists r : Q,
    round64 (inject_Z a / inject_Z c) = Fin r
    /\ (a * d < p * c -> (r * inject_Z d < inject_Z p)%Q)
    /\ (p * c < a * d -> (inject_Z p < r * inject_Z d)%Q).
Proof.
  intros Ha Hc Hd Had Hcd.
  set (q := (inject_Z a / inject_Z c)%Q).
  assert (HA : (0 < inject_Z a)%Q) by (rewrite <- (Zlt_Qlt 0); lia).
  assert (HC : (0 < inject_Z c)%Q) by (rewrite <- (Zlt_Qlt 0); lia).
  assert (HD : (0 < inject_Z d)%Q) by (rewrite <- (Zlt_Qlt 0); lia).
  assert (HqC : (q * inject_Z c == inject_Z a)%Q).
  { unfold q. field. now apply Qnot_eq_sym, Qlt_not_eq. }
  assert (Hq : (0 < q)%Q) by (unfold q; now apply Qlt_shift_div_l; rewrite ?Qmult_0_l).
  assert (Hqa : (q <= inject_Z a)%Q).
  { unfold q. apply Qle_shift_div_r; [assumption|].
    rewrite <- inject_Z_mult, <- Zle_Qle. nia. }
  assert (Hup : (q < pow2 1023)%Q).
  { apply Qle_lt_trans with (inject_Z a); [assumption|].
    apply Qlt_le_trans with (pow2 53); [|apply pow2_le; lia].
    rewrite (pow2_inject 53), <- Zlt_Qlt by lia. nia. }
  destruct (round64_finite q (conj Hq Hup)) as (r & Hr & Er).
  pose proof (nearest_error q Hq) as Herr. rewrite <- Er in Herr.
  apply Qabs_diff_Qle_condition in Herr as [Hlo Hhi].
  set (eps := pow2 (lastPlace q - 1)) in *.
  assert (Heps : (eps * inject_Z c * inject_Z d < 1)%Q).
  { destruct (half_place_small q Hq) as [Hn|Hs].
    - fold eps in Hn.
      assert (H1 : (eps * pow2 53 * inject_Z c <= inject_Z a)%Q).
      { rewrite <- HqC. apply Qmult_le_compat_r; [assumption|now apply Qlt_le_weak]. }
      assert (H2 : (inject_Z a * inject_Z d < pow2 53)%Q).
      { rewrite (pow2_inject 53), <- inject_Z_mult, <- Zlt_Qlt by lia. assumption. }
      assert (H3 : (eps * pow2 53 * inject_Z c * inject_Z d
                    <= inject_Z a * inject_Z d)%Q).
      { apply Qmult_le_compat_r; [assumption|now apply Qlt_le_weak]. }
      pose proof (pow2_pos 53) as H53.
      apply Qnot_le_lt. intros Hge.
      assert (H4 : (1 * pow2 53 <= eps * inject_Z c * inject_Z d * pow2 53)%Q)
        by (apply Qmult_le_compat_r; [assumption|now apply Qlt_le_weak]).
      nra.
    - unfold eps. rewrite Hs. change (-1074 - 1) with (-1075).
      assert (H1 : (inject_Z c * inject_Z d <= pow2 1074)%Q).
      { rewrite (pow2_inject 1074), <- inject_Z_mult, <- Zle_Qle by lia.
        assumption. }
      assert (H2 : (pow2 (-1075) * pow2 1074 == 1 # 2)%Q).
      { rewrite <- pow2_add. reflexivity. }
      pose proof (pow2_pos (-1075)) as Hp.
      assert (H3 : (pow2 (-1075) * (inject_Z c * inject_Z d)
                    <= pow2 (-1075) * pow2 1074)%Q).
      { rewrite !(Qmult_comm (pow2 (-1075))).
        apply Qmult_le_compat_r; [assumption|now apply Qlt_le_weak]. }
      nra. }
  exists r. split; [exact Hr|]. split; intros Hlt.
  - apply (gap_lt (inject_Z a) (inject_Z c) _ _ _ q eps); try assumption.
    + lra.
    + rewrite <- !inject_Z_mult. change 1%Q with (inject_Z 1).
      rewrite <- inject_Z_plus, <- Zle_Qle. lia.
  - apply (gap_gt (inject_Z a) (inject_Z c) _ _ _ q eps); try assumption.
    + lra.
    + rewrite <- !inject_Z_mult. change 1%Q with (inject_Z 1).
      rewrite <- inject_Z_plus, <- Zle_Qle. lia.
Qed.


Lemma Qfloor_unique (r : Q) (k : Z) :
  (inject_Z k <= r < inject_Z (k + 1))%Q -> Qfloor r = k.
Proof.
  intros [Hlo Hhi]. destruct (floor_bounds r) as [Flo Fhi].
  assert (H1 : Qfloor r < k + 1).
  { rewrite Zlt_Qlt. apply Qle_lt_trans with r; assumption. }
  assert (H2 : k < Qfloor r + 1).
  { rewrite Zlt_Qlt, inject_Z_plus. apply Qle_lt_trans with r; assumption. }
  lia.
Qed.

Lemma rounded_ofZ (z : Z) : Z.abs z <= 2 ^ 53 -> rounded (ofZ z) = ofZ z.
Proof. apply round64_ofZ. Qed.

Lemma add_safe (a b : Z) :
  Z.abs (a + b) <= 2 ^ 53 -> add (ofZ a) (ofZ b) = ofZ (a + b).
Proof. intros H. unfold add. rewrite JsFacts.add_ofZ. now apply rounded_ofZ. Qed.

Lemma sub_safe (a b : Z) :
  Z.abs (a - b) <= 2 ^ 53 -> sub (ofZ a) (ofZ b) = ofZ (a - b).
Proof. intros H. unfold sub. rewrite JsFacts.sub_ofZ. now apply rounded_ofZ. Qed.

Lemma mul_safe (a b : Z) :
  Z.abs (a * b) <= 2 ^ 53 -> mul (ofZ a) (ofZ b) = ofZ (a * b).
Proof. intros H. unfold mul. rewrite JsFacts.mul_ofZ. now apply rounded_ofZ. Qed.

Lemma div_rounds (a c : Z) :
  c <> 0 -> div (ofZ a) (ofZ c) = round64 (inject_Z a / inject_Z c).
Proof.
  intros Hc. unfold div, ofZ. rewrite div_Fin, Qeq_bool_inject_Z_0.
  destruct (Z.eqb_spec c 0); [contradiction|].
  cbn [rounded norm]. apply round64_comp, Qred_correct.
Qed.

(** An exact quotient is not rounded. *)
Lemma div_exact (a c k : Z) :
  c <> 0 -> a = k * c -> Z.abs k <= 2 ^ 53 -> div (ofZ a) (ofZ c) = ofZ k.
Proof.
  intros Hc -> Hk. rewrite div_rounds by assumption.
  assert (E : (inject_Z (k * c) / inject_Z c == inject_Z k)%Q).
  { rewrite inject_Z_mult. field. intros H.
    apply (inject_Z_injective c 0) in H. contradiction. }
  rewrite (round64_comp _ _ E). now apply round64_ofZ.
Qed.

(** Flooring the rounded quotient of two whole numbers is integer
    division, for a dividend below 2^53 in magnitude. *)
Lemma floor_div_safe (a c : Z) :
  Z.abs a < 2 ^ 53 -> 0 < c <= 2 ^ 1074 ->
  floor (div (ofZ a) (ofZ c)) = ofZ (a / c).
Proof.
  intros Ha Hc.
  pose proof (Z.div_mod a c ltac:(lia)) as Hdm.
  pose proof (Z.mod_pos_bound a c ltac:(lia)) as Hm.
  destruct (Z.eq_dec (a mod c) 0) as [H0|Hne].
  { rewrite (div_exact a c (a / c)); [apply floor_ofZ|lia|lia|].
    assert (Z.abs (a / c) <= Z.abs a); [|lia].
    destruct (Z.le_gt_cases 0 a).
    - rewrite !Z.abs_eq; [|lia|apply Z.div_pos; lia]. apply Z.div_le_upper_bound; nia.
    - assert (a / c < 0) by (apply Z.div_lt_upper_bound; lia).
      assert (a <= a / c); [|lia]. nia. }
  rewrite div_rounds by lia.
  destruct (Z.lt_trichotomy a 0) as [Hneg|[->|Hpos]].
  - assert (E : (inject_Z a / inject_Z c == - (inject_Z (- a) / inject_Z c))%Q).
    { rewrite inject_Z_opp. field. intros H.
      apply (inject_Z_injective c 0) in H. lia. }
    rewrite (round64_comp _ _ E), round64_opp.
    destruct (round64_quotient (- a) c (- (a / c)) 1) as (r & Hr & Hlt & _);
      try lia.
    destruct (round64_quotient (- a) c (- (a / c) - 1) 1) as (r' & Hr' & _ & Hgt);
      try lia.
    rewrite Hr in Hr'. injection Hr' as <-. rewrite Hr.
    specialize (Hlt ltac:(nia)). specialize (Hgt ltac:(nia)).
    rewrite Qmult_1_r in Hlt, Hgt. cbn [neg]. rewrite floor_norm. f_equal.
    apply Qfloor_unique. rewrite inject_Z_plus.
    rewrite inject_Z_opp in Hlt. unfold Z.sub in Hgt.
    rewrite inject_Z_plus, inject_Z_opp in Hgt.
    change (inject_Z 1) with 1%Q. change (inject_Z (- (1))) with (- (1))%Q in Hgt.
    generalize dependent (inject_Z (a / c)). intros. split; lra.
  - rewrite Z.mod_0_l in Hne by lia. contradiction.
  - destruct (round64_quotient a c (a / c + 1) 1) as (r & Hr & Hlt & _); try lia.
    destruct (round64_quotient a c (a / c) 1) as (r' & Hr' & _ & Hgt); try lia.
    rewrite Hr in Hr'. injection Hr' as <-. rewrite Hr.
    specialize (Hlt ltac:(nia)). specialize (Hgt ltac:(nia)).
    rewrite Qmult_1_r in Hlt, Hgt. rewrite floor_Fin. f_equal.
    apply Qfloor_unique. split; [now apply Qlt_le_weak|assumption].
Qed.


(** Comparing the rounded quotient with a whole number. *)
Lemma geb_div_safe (a c k : Z) :
  0 <= a < 2 ^ 53 -> 0 < c <= 2 ^ 1074 ->
  geb (div (ofZ a) (ofZ c)) (ofZ k) = (k * c <=? a).
Proof.
  intros Ha Hc. unfold geb.
  destruct (Z.eq_dec a 0) as [->|Hne].
  { rewrite (div_exact 0 c 0) by lia. rewrite JsFacts.leb_ofZ.
    destruct (Z.leb_spec k 0), (Z.leb_spec (k * c) 0); try reflexivity; nia. }
  destruct (Z.lt_trichotomy (k * c) a) as [Hlt|[Heq|Hgt]].
  - rewrite div_rounds by lia.
    destruct (round64_quotient a c k 1) as (r & -> & _ & Hr); try lia.
    specialize (Hr ltac:(lia)). rewrite Qmult_1_r in Hr.
    destruct (Z.leb_spec (k * c) a); [|lia].
    apply leb_Fin. now apply Qlt_le_weak.
  - rewrite (div_exact a c k) by nia. rewrite JsFacts.leb_ofZ.
    destruct (Z.leb_spec (k * c) a); [|lia]. apply Z.leb_refl.
  - rewrite div_rounds by lia.
    destruct (round64_quotient a c k 1) as (r & -> & Hr & _); try lia.
    specialize (Hr ltac:(lia)). rewrite Qmult_1_r in Hr.
    destruct (Z.leb_spec (k * c) a); [lia|].
    now apply leb_Fin_false.
Qed.

Lemma Math_round_Fin (r : Q) : Math_round (Fin r) = ofZ (Qfloor (r + (1 # 2))).
Proof. unfold Math_round, Js.add. fold (norm (r + (1 # 2))). apply floor_norm. Qed.

(** [Math.round] of the rounded quotient of two whole numbers. *)
Lemma Math_round_div_safe (a c : Z) :
  0 <= a -> 2 * a < 2 ^ 53 -> 0 < c -> 2 * c <= 2 ^ 1074 ->
  Math_round (div (ofZ a) (ofZ c)) = ofZ ((2 * a + c) / (2 * c)).
Proof.
  intros Ha Ha2 Hc Hc2.
  pose proof (Z.div_mod (2 * a + c) (2 * c) ltac:(lia)) as Hdm.
  pose proof (Z.mod_pos_bound (2 * a + c) (2 * c) ltac:(lia)) as Hm.
  set (j := (2 * a + c) / (2 * c)) in *.
  set (m := (2 * a + c) mod (2 * c)) in *.
  destruct (Z.eq_dec a 0) as [->|Hne].
  { rewrite (div_exact 0 c 0) by lia. unfold j.
    rewrite Z.div_small by lia. reflexivity. }
  rewrite div_rounds by lia.
  destruct (Z.eq_dec m 0) as [H0|Hm0].
  - assert (Hj : 0 < 2 * j - 1 < 2 ^ 53) by nia.
    assert (E : (inject_Z a / inject_Z c == inject_Z (2 * j - 1) * pow2 (-1))%Q).
    { change (pow2 (-1)) with (1 # 2)%Q.
      assert (Hac : inject_Z (2 * a) = inject_Z ((2 * j - 1) * c)) by (f_equal; lia).
      rewrite !inject_Z_mult in Hac. change (inject_Z 2) with 2%Q in Hac.
      assert (HC : ~ (inject_Z c == 0)%Q).
      { intros H. apply (inject_Z_injective c 0) in H. lia. }
      generalize dependent (inject_Z (2 * j - 1)).
      generalize dependent (inject_Z a). generalize dependent (inject_Z c).
      intros C HC A P Hac.
      apply (Qmult_inj_r _ _ (2 * C)); [intros H; apply HC; lra|].
      field_simplify; [|assumption]. rewrite Hac. field. }
    rewrite (round64_comp _ _ E), round64_dyadic by lia.
    unfold norm. rewrite Math_round_Fin. f_equal.
    apply Qfloor_unique. rewrite Qred_correct, inject_Z_plus.
    change (pow2 (-1)) with (1 # 2)%Q. change (inject_Z 1) with 1%Q.
    unfold Z.sub. rewrite inject_Z_plus, inject_Z_mult.
    change (inject_Z 2) with 2%Q. change (inject_Z (- (1))) with (- (1))%Q.
    generalize (inject_Z j). intros J. split; lra.
  - destruct (round64_quotient a c (2 * j + 1) 2) as (r & Hr & Hlt & _);
      try lia.
    destruct (round64_quotient a c (2 * j - 1) 2) as (r' & Hr' & _ & Hgt);
      try lia.
    rewrite Hr in Hr'. injection Hr' as <-. rewrite Hr.
    specialize (Hlt ltac:(nia)). specialize (Hgt ltac:(nia)).
    rewrite Math_round_Fin. f_equal. apply Qfloor_unique.
    rewrite inject_Z_plus in *. unfold Z.sub in Hgt.
    rewrite inject_Z_plus, !inject_Z_mult in *.
    change (inject_Z 2) with 2%Q in *. change (inject_Z 1) with 1%Q in *.
    change (inject_Z (- (1))) with (- (1))%Q in *.
    generalize dependent (inject_Z j). intros J. intros. split; lra.
Qed.

(** A positive whole number rounds to a positive whole number, or
    overflows. *)
Lemma round64_whole (v : Z) :
  0 < v ->
  round64 (inject_Z v) = PosInf
  \/ exists c : Z, 0 < c < 2 ^ 1024 /\ round64 (inject_Z v) = ofZ c.
Proof.
  intros Hv. destruct (Z.le_gt_cases v (2 ^ 53)) as [Hs|Hb].
  { right. exists v. split; [|apply round64_ofZ; lia].
    split; [assumption|]. apply Z.le_lt_trans with (2 ^ 53); [assumption|].
    apply Z.pow_lt_mono_r; lia. }
  set (q := inject_Z v).
  assert (Hq : (0 < q)%Q) by (unfold q; rewrite <- (Zlt_Qlt 0); lia).
  destruct (exponent_spec q Hq) as [Elo Ehi].
  assert (He : 53 < exponent q + 1).
  { apply pow2_lt_inv. apply Qle_lt_trans with q; [|assumption].
    unfold q. rewrite (pow2_inject 53), <- Zle_Qle by lia. lia. }
  assert (Hl : lastPlace q = exponent q - 52) by (unfold lastPlace; lia).
  set (e := lastPlace q) in *.
  set (m := nearestEven (q / pow2 e)).
  assert (Hn : (nearest q == inject_Z (m * 2 ^ e))%Q).
  { unfold nearest. fold e. fold m.
    now rewrite inject_Z_mult, <- (pow2_inject e) by lia. }
  assert (Hm : 0 < m).
  { unfold m, nearestEven.
    assert (Hf : 1 <= Qfloor (q / pow2 e)).
    { change 1 with (Qfloor (inject_Z 1)). apply Qfloor_resp_le.
      apply Qle_shift_div_l; [apply pow2_pos|].
      apply Qle_trans with (pow2 (exponent q)); [|assumption].
      rewrite Qmult_1_l. apply pow2_le. lia. }
    destruct (_ ?= _)%Q; [destruct (Z.even _)| |]; lia. }
  rewrite (round64_pos q Hq).
  destruct (Qle_bool (pow2 1024) (nearest q)) eqn:Hb'; [now left|right].
  exists (m * 2 ^ e). split; [|now apply norm_inject_Z].
  assert (Hlt : ~ (pow2 1024 <= nearest q)%Q)
    by (rewrite <- Qle_bool_iff; congruence).
  apply Qnot_le_lt in Hlt.
  rewrite Hn, (pow2_inject 1024), <- Zlt_Qlt in Hlt by lia.
  split; [|assumption]. apply Z.mul_pos_pos; [assumption|].
  apply Z.pow_pos_nonneg; lia.
Qed.

End Binary64Facts.

(** ** WindowCounter in double arithmetic *)

(** [Number.MAX_SAFE_INTEGER], [2^53 - 1]. *)
Definition MAX_SAFE_INTEGER : Z := 9007199254740991.

Section WindowCounter64.
Import Js JsFacts.

(** While the clamped bar count, the sum of the sizes and the step stay
    within the safe integers, the doubles compute the integer count. *)
Lemma calcExpectedWindows_safe (n train test step : Z) :
  Z.max 0 n <= MAX_SAFE_INTEGER ->
  Z.max 0 train + Z.max 0 test <= MAX_SAFE_INTEGER ->
  Z.max 0 step <= MAX_SAFE_INTEGER ->
  Binary64.calcExpectedWindows (ofZ n) (ofZ train) (ofZ test) (ofZ step) =
  windowCount (Z.max 0 n) (Z.max 0 train) (Z.max 0 test) (Z.max 0 step).
Proof.
  unfold MAX_SAFE_INTEGER. intros Hn Hsum Hstep.
  unfold Binary64.calcExpectedWindows, windowCount.
  js_lits. rewrite !floor_ofZ, !max_ofZ, !leb_ofZ.
  destruct (_ || _ || _)%bool eqn:Hbad; [reflexivity|].
  apply orb_false_iff in Hbad as [Hbad Hs]. apply orb_false_iff in Hbad as [Htr Hte].
  apply Z.leb_gt in Hs, Htr, Hte.
  rewrite Binary64Facts.add_safe, ltb_ofZ by lia.
  destruct (Z.ltb_spec (Z.max 0 n) (Z.max 0 train + Z.max 0 test)) as [Hfit|Hfit];
    [reflexivity|].
  rewrite !Binary64Facts.sub_safe by lia.
  rewrite Binary64Facts.floor_div_safe by lia.
  set (a := Z.max 0 n - Z.max 0 train - Z.max 0 test) in *.
  assert (0 <= a / Z.max 0 step <= a)
    by (split; [apply Z.div_pos; lia|apply Z.div_le_upper_bound; nia]).
  rewrite Binary64Facts.add_safe by lia. reflexivity.
Qed.

Lemma calcExpectedWindows_floors (totalBars trainBars testBars stepBars : Q) :
  Binary64.calcExpectedWindows (Fin totalBars) (Fin trainBars) (Fin testBars)
                               (Fin stepBars) =
  Binary64.calcExpectedWindows (ofZ (Qfloor totalBars)) (ofZ (Qfloor trainBars))
                               (ofZ (Qfloor testBars)) (ofZ (Qfloor stepBars)).
Proof.
  unfold Binary64.calcExpectedWindows. now rewrite !floor_Fin, !floor_ofZ.
Qed.

(** Beyond 2^53 the contract fails.  With 2^55 bars, a train size of 2^55
    and a test size of 3 the data is shorter than one window and the
    count should be 0, but [train + test] rounds down to 2^55 and the code
    returns -2.  With 2^60 bars and sizes of 1 the formula gives
    2^60 - 1 windows and the code returns 2^60. *)
Lemma calcExpectedWindows_beyond_safe_integers :
  windowCount (2 ^ 55) (2 ^ 55) 3 1 = Some (ofZ 0)
  /\ Binary64.calcExpectedWindows (ofZ (2 ^ 55)) (ofZ (2 ^ 55)) 3 1
     = Some (ofZ (-2))
  /\ windowCount (2 ^ 60) 1 1 1 = Some (ofZ (2 ^ 60 - 1))
  /\ Binary64.calcExpectedWindows (ofZ (2 ^ 60)) 1 1 1 = Some (ofZ (2 ^ 60)).
Proof. repeat split; vm_compute; reflexivity. Qed.

(** C2. [calcExpectedWindows] floors each input and clamps it at 0.  With
    the clamped values [n], [train], [test] and [step], as long as [n],
    [train + test] and [step] are at most [Number.MAX_SAFE_INTEGER], it
    returns null when [train <= 0] or [test <= 0] or [step <= 0], returns 0
    when [n < train + test], and otherwise returns
    [floor((n - train - test) / step) + 1].  A size that floors to 0 or
    less gives null whatever the magnitudes.  And
    [calcExpectedWindows(12000, 8000, 2000, 2000) = 2],
    [calcExpectedWindows(100, 200, 50, 50) = 0] and
    [calcExpectedWindows(n, 0, 1, 1) = null] for every [n]. *)
Theorem calcExpectedWindows_contract :
  (forall totalBars trainBars testBars stepBars : Q,
      let n := Z.max 0 (Qfloor totalBars) in
      let train := Z.max 0 (Qfloor trainBars) in
      let test := Z.max 0 (Qfloor testBars) in
      let step := Z.max 0 (Qfloor stepBars) in
      n <= MAX_SAFE_INTEGER -> train + test <= MAX_SAFE_INTEGER ->
      step <= MAX_SAFE_INTEGER ->
      Binary64.calcExpectedWindows (Fin totalBars) (Fin trainBars)
                                   (Fin testBars) (Fin stepBars) =
      if ((train <=? 0) || (test <=? 0) || (step <=? 0))%bool then None
      else if n <? train + test then Some (ofZ 0)
      else Some (ofZ ((n - train - test) / step + 1)))
  /\ (forall totalBars trainBars testBars stepBars : Q,
      Qfloor trainBars <= 0 \/ Qfloor testBars <= 0 \/ Qfloor stepBars <= 0 ->
      Binary64.calcExpectedWindows (Fin totalBars) (Fin trainBars)
                                   (Fin testBars) (Fin stepBars) = None)
  /\ Binary64.calcExpectedWindows 12000 8000 2000 2000 = Some 2%js
  /\ Binary64.calcExpectedWindows 100 200 50 50 = Some 0%js
  /\ (forall n : number, Binary64.calcExpectedWindows n 0 1 1 = None).
Proof.
  split; [|split].
  - intros totalBars trainBars testBars stepBars. cbv zeta. intros Hn Hsum Hstep.
    rewrite calcExpectedWindows_floors. now apply calcExpectedWindows_safe.
  - intros totalBars trainBars testBars stepBars Hz.
    unfold Binary64.calcExpectedWindows. js_lits.
    rewrite !floor_Fin, !max_ofZ, !leb_ofZ.
    destruct (Z.leb_spec (Z.max 0 (Qfloor trainBars)) 0),
      (Z.leb_spec (Z.max 0 (Qfloor testBars)) 0),
      (Z.leb_spec (Z.max 0 (Qfloor stepBars)) 0); try reflexivity; lia.
  - repeat split; vm_compute; reflexivity.
Qed.

End WindowCounter64.

(** ** WindowRecommender in double arithmetic *)

Section WindowRecommender64.
Import Js JsFacts.

Lemma roundingStepZ_range (t : Z) : 10 <= roundingStepZ t <= 100.
Proof. destruct (roundingStepZ_cases t) as [-> | [-> | ->]]; lia. Qed.

Lemma roundTest_safe (t : Z) :
  0 <= t <= MAX_SAFE_INTEGER ->
  max (ofZ 200)
      (Binary64.mul (floor (Binary64.div (ofZ t) (roundingStep (ofZ t))))
                    (roundingStep (ofZ t)))
  = ofZ (roundTestZ t).
Proof.
  unfold MAX_SAFE_INTEGER. intros Ht. pose proof (roundingStepZ_range t) as Hr.
  rewrite roundingStep_ofZ, Binary64Facts.floor_div_safe by lia.
  assert (0 <= t / roundingStepZ t * roundingStepZ t <= t).
  { pose proof (Z.mul_div_le t (roundingStepZ t) ltac:(lia)).
    pose proof (Z.div_pos t (roundingStepZ t) ltac:(lia) ltac:(lia)). nia. }
  rewrite Binary64Facts.mul_safe by lia. now rewrite max_ofZ.
Qed.

Lemma roundTestZ_upper (t : Z) : 0 <= t -> 200 <= roundTestZ t <= Z.max 200 t.
Proof. intros Ht. split; [apply roundTestZ_ge|now apply roundTestZ_le]. Qed.

(** Up to [Number.MAX_SAFE_INTEGER] bars every intermediate value of the
    recommendation is a safe integer: the doubles compute the exact
    plan. *)
Lemma recommendWalkForward_safe (n : Z) :
  0 <= n <= MAX_SAFE_INTEGER ->
  Binary64.recommendWalkForward (ofZ n) = recommendWalkForward (ofZ n).
Proof.
  intros Hn. rewrite recommendWalkForward_ofZ by lia.
  unfold MAX_SAFE_INTEGER in Hn.
  unfold Binary64.recommendWalkForward, planTestZ, initialTestZ.
  cbv zeta. js_lits.
  rewrite floor_ofZ, max_ofZ, (Z.max_r 0 n) by lia.
  rewrite (Binary64Facts.add_safe 4 6), (Binary64Facts.add_safe 4 2) by (vm_compute; discriminate).
  rewrite !Binary64Facts.floor_div_safe by lia.
  rewrite isFinite_ofZ, leb_ofZ. cbn [negb orb].
  change (4 + 6) with 10. change (4 + 2) with 6.
  assert (Hsel : (if n / 10 <=? 0 then ofZ 200 else ofZ (n / 10)) =
                 ofZ (if n / 10 <=? 0 then 200 else n / 10))
    by now destruct (n / 10 <=? 0).
  rewrite Hsel.
  set (t0 := if n / 10 <=? 0 then 200 else n / 10).
  assert (Ht0 : 0 <= t0 <= Z.max 200 n).
  { subst t0. destruct (Z.leb_spec (n / 10) 0); [lia|].
    split; [lia|]. assert (n / 10 <= n) by (Z.div_mod_to_equations; lia). lia. }
  rewrite roundTest_safe by (unfold MAX_SAFE_INTEGER; lia).
  pose proof (roundTestZ_upper t0 ltac:(lia)) as Hrt.
  set (t := roundTestZ t0) in *.
  assert (Ht10 : 10 * (t0 - 9) <= n \/ t0 = 200).
  { subst t0. destruct (Z.leb_spec (n / 10) 0); [now right|left].
    Z.div_mod_to_equations; lia. }
  assert (Ht : 4 * t + 2 * t <= 2 ^ 53).
  { destruct Ht10 as [H10|H200]; [|rewrite H200 in Hrt; lia].
    destruct (Z.max_spec 200 t0) as [[_ E]|[_ E]]; rewrite E in Hrt; lia. }
  rewrite !Binary64Facts.mul_safe by lia. rewrite max_ofZ.
  rewrite Binary64Facts.add_safe by lia.
  rewrite gtb_ofZ, ltb_ofZ.
  destruct ((0 <? n) && _)%bool eqn:Hc.
  - rewrite max_ofZ.
    assert (Hs : 0 <= Z.max 200 (n / 6) <= Z.max 200 n).
    { assert (n / 6 <= n) by (Z.div_mod_to_equations; lia). lia. }
    rewrite roundTest_safe by (unfold MAX_SAFE_INTEGER; lia).
    pose proof (roundTestZ_upper (Z.max 200 (n / 6)) ltac:(lia)) as Hrs.
    set (s := roundTestZ (Z.max 200 (n / 6))) in *.
    assert (Hs5 : 4 * s + s <= 2 ^ 53).
    { assert (6 * (n / 6) <= n) by (Z.div_mod_to_equations; lia).
      destruct (Z.max_spec 200 (Z.max 200 (n / 6))) as [[_ E]|[_ E]];
        rewrite E in Hrs; lia. }
    rewrite Binary64Facts.mul_safe by lia. rewrite max_ofZ.
    f_equal. rewrite calcExpectedWindows_safe, calcExpectedWindows_ofZ
      by (unfold MAX_SAFE_INTEGER; lia).
    reflexivity.
  - f_equal. rewrite calcExpectedWindows_safe, calcExpectedWindows_ofZ
      by (unfold MAX_SAFE_INTEGER; lia).
    reflexivity.
Qed.

Lemma recommendWalkForward_floor (q : Q) :
  Binary64.recommendWalkForward (Fin q)
  = Binary64.recommendWalkForward (ofZ (Z.max 0 (Qfloor q))).
Proof.
  unfold Binary64.recommendWalkForward. js_lits.
  rewrite floor_Fin, floor_ofZ, !max_ofZ.
  rewrite (Z.max_r 0 (Z.max 0 _)) by lia. reflexivity.
Qed.

(** A bar count that double arithmetic treats exactly: not a number, an
    infinity, or a finite value whose whole part is at most
    [Number.MAX_SAFE_INTEGER]. *)
Definition safeCount (totalBars : number) : Prop :=
  match totalBars with
  | Fin q => Qfloor q <= MAX_SAFE_INTEGER
  | _ => True
  end.

(** Beyond 2^53 the invariants fail: with 720575940379279360 bars, a
    double, the test size comes out as 72057594037927904, which is not a
    multiple of 10. *)
Lemma recommendWalkForward_beyond_safe_integers :
  Binary64.rounded (ofZ 720575940379279360) = ofZ 720575940379279360
  /\ test_bars (Binary64.recommendWalkForward (ofZ 720575940379279360))
     = ofZ 72057594037927904
  /\ 72057594037927904 mod 10 = 4.
Proof. repeat split; vm_compute; reflexivity. Qed.

(** C10. For every [totalBars] that is not a number, is an infinity, or
    floors to at most [Number.MAX_SAFE_INTEGER], the recommended plan has a
    test size that is an integer multiple of 10 and at least 200,
    [train_bars = 4 * test_bars] exactly, [step_bars = test_bars] and
    [max_windows = 10]. *)
Theorem recommendWalkForward_invariants (totalBars : number) :
  safeCount totalBars ->
  let plan := Binary64.recommendWalkForward totalBars in
  exists test : Z,
    200 <= test /\ test mod 10 = 0
    /\ test_bars plan = ofZ test
    /\ train_bars plan = ofZ (4 * test)
    /\ step_bars plan = test_bars plan
    /\ max_windows plan = 10%js.
Proof.
  intros Hsafe. cbv zeta. destruct totalBars as [| | |q].
  1-3: exists 200; vm_compute; repeat split; discriminate.
  cbn [safeCount] in Hsafe.
  rewrite recommendWalkForward_floor, recommendWalkForward_safe,
    recommendWalkForward_ofZ by (unfold MAX_SAFE_INTEGER in *; lia).
  cbv zeta. cbn [test_bars train_bars step_bars max_windows].
  set (n := Z.max 0 (Qfloor q)).
  exists (planTestZ n).
  assert (Hge : 200 <= planTestZ n /\ planTestZ n mod 10 = 0).
  { unfold planTestZ, initialTestZ. cbv zeta.
    destruct (_ && _)%bool; split;
      auto using roundTestZ_ge, roundTestZ_mod10. }
  destruct Hge as [Hge Hmod]. repeat split; try assumption.
  f_equal. lia.
Qed.

Lemma recommendWalkForward_invariants_witness :
  let plan := Binary64.recommendWalkForward 100000 in
  exists test : Z,
    200 <= test /\ test mod 10 = 0
    /\ test_bars plan = ofZ test
    /\ train_bars plan = ofZ (4 * test)
    /\ step_bars plan = test_bars plan
    /\ max_windows plan = 10%js.
Proof. apply (recommendWalkForward_invariants 100000). vm_compute. discriminate. Defined.

End WindowRecommender64.

(** ** IntervalParser in double arithmetic *)

Section IntervalParser64.
Import Text TextFacts Js JsFacts NumberFacts.

(** The magnitude [n] times the unit factor [f] as the code computes it:
    [n] for minutes, [n * 60] for hours and [n * 24 * 60] for days, each
    product rounded. *)
Definition timesFactor (n : number) (f : Z) : number :=
  match f with
  | 1 => n
  | 60 => Binary64.mul n 60
  | _ => Binary64.mul (Binary64.mul n 24) 60
  end.

Lemma unit_minutes64 (u : ascii) (f : Z) (n : number) :
  unitFactor u = Some f ->
  (if String.eqb (toLowerCase (String u "")) "m" then Some n
   else if String.eqb (toLowerCase (String u "")) "h"
        then Some (Binary64.mul n 60)
   else if String.eqb (toLowerCase (String u "")) "d"
        then Some (Binary64.mul (Binary64.mul n 24) 60)
   else None) = Some (timesFactor n f).
Proof.
  intros Hu.
  each_char u; try discriminate Hu; injection Hu as <-; reflexivity.
Qed.

Lemma magnitude_Number64 (ds : string) :
  allDigits ds = true ->
  Binary64.Number (default "1" (if truthy ds then Some ds else None)) =
  Binary64.round64 (inject_Z (if truthy ds then decimal ds else 1)).
Proof.
  intros Hds. unfold Binary64.Number. now rewrite (magnitude_Number ds Hds).
Qed.

Lemma parseIntervalToMinutes64_token (interval : string) (n f : Z) :
  intervalToken (trim interval) n f ->
  Binary64.parseIntervalToMinutes interval =
  let m := Binary64.round64 (inject_Z n) in
  if (negb (isFinite m) || (m <=? 0)%js)%bool then None
  else Some (timesFactor m f).
Proof.
  intros (ds & u & Ht & Hds & Hu & ->). unfold Binary64.parseIntervalToMinutes.
  assert (Hm : matchInterval (trim interval) =
               Some (if truthy ds then Some ds else None, String u ""))
    by (apply matchInterval_Some; exists ds, u, f; auto).
  rewrite Hm, (magnitude_Number64 ds Hds). cbv zeta.
  destruct (_ || _)%bool; [reflexivity|]. now apply unit_minutes64.
Qed.

Lemma parseIntervalToMinutes64_no_token (interval : string) :
  (forall n f, ~ intervalToken (trim interval) n f) ->
  Binary64.parseIntervalToMinutes interval = None.
Proof.
  intros Hno. unfold Binary64.parseIntervalToMinutes.
  destruct (matchInterval (trim interval)) as [[g1 g2]|] eqn:Hm;
    [|reflexivity].
  apply matchInterval_Some in Hm as (ds & u & f & Ht & Hds & Hu & _ & _).
  exfalso. apply (Hno (if truthy ds then decimal ds else 1) f).
  exists ds, u. auto.
Qed.

Lemma intervalToken_nonneg (text : string) (n f : Z) :
  intervalToken text n f -> 0 <= n.
Proof.
  intros (ds & u & _ & Hds & _ & ->). destruct (truthy ds); [|lia].
  apply (decimal_range ds Hds).
Qed.

(** The magnitude as a double: finite and above zero exactly when the
    decimal value is above zero and does not overflow. *)
Lemma magnitude_accepted (n : Z) :
  0 <= n ->
  let m := Binary64.round64 (inject_Z n) in
  (negb (isFinite m) || (m <=? 0)%js)%bool = false
  <-> 0 < n /\ isFinite m = true.
Proof.
  intros Hn. cbv zeta. destruct (Z.eq_dec n 0) as [->|Hne].
  { split; [discriminate|lia]. }
  destruct (Binary64Facts.round64_whole n ltac:(lia)) as [->|(c & Hc & ->)].
  - split; [discriminate|]. now intros [_ ?].
  - js_lits. rewrite isFinite_ofZ, leb_ofZ. cbn [negb orb].
    destruct (Z.leb_spec c 0); [lia|]. split; [intros _; split; [lia|reflexivity]|reflexivity].
Qed.

Lemma parseIntervalToMinutes64_Some (interval : string) (x : number) :
  Binary64.parseIntervalToMinutes interval = Some x <->
  exists n f : Z,
    intervalToken (trim interval) n f /\ 0 < n
    /\ isFinite (Binary64.round64 (inject_Z n)) = true
    /\ x = timesFactor (Binary64.round64 (inject_Z n)) f.
Proof.
  split.
  - intros Hx. destruct (intervalToken_dec (trim interval)) as [(n & f & Htok)|Hno].
    + rewrite (parseIntervalToMinutes64_token _ _ _ Htok) in Hx. cbv zeta in Hx.
      pose proof (magnitude_accepted n (intervalToken_nonneg _ _ _ Htok)) as Hacc.
      cbv zeta in Hacc.
      destruct (_ || _)%bool; [discriminate|].
      injection Hx as <-. destruct (proj1 Hacc eq_refl). eauto 10.
    + rewrite (parseIntervalToMinutes64_no_token _ Hno) in Hx. discriminate.
  - intros (n & f & Htok & Hn & Hfin & ->).
    rewrite (parseIntervalToMinutes64_token _ _ _ Htok). cbv zeta.
    pose proof (magnitude_accepted n ltac:(lia)) as Hacc. cbv zeta in Hacc.
    now rewrite (proj2 Hacc (conj Hn Hfin)).
Qed.

Lemma timesFactor_ofZ (n f : Z) (u : ascii) :
  unitFactor u = Some f -> 0 <= n -> n * f <= 2 ^ 53 ->
  timesFactor (ofZ n) f = ofZ (n * f).
Proof.
  intros Hu Hn Hb.
  each_char u; try discriminate Hu; injection Hu as <-; unfold timesFactor;
    js_lits; rewrite ?Binary64Facts.mul_safe by lia; f_equal; lia.
Qed.

(** Up to 2^53 minutes the result is the exact product. *)
Lemma parseIntervalToMinutes64_safe (interval : string) (n f : Z) :
  intervalToken (trim interval) n f -> 0 < n -> n * f <= 2 ^ 53 ->
  Binary64.parseIntervalToMinutes interval = Some (ofZ (n * f)).
Proof.
  intros Htok Hn Hb. pose proof Htok as (ds & u & _ & _ & Hu & _).
  pose proof (unitFactor_pos u f Hu) as Hf.
  assert (Hr : Binary64.round64 (inject_Z n) = ofZ n)
    by (apply Binary64Facts.round64_ofZ; nia).
  apply parseIntervalToMinutes64_Some. exists n, f.
  rewrite Hr. repeat split; try assumption.
  symmetry. apply (timesFactor_ofZ n f u); (assumption || lia).
Qed.

(** A parsed interval is a positive whole number of minutes, or
    [Infinity] when the multiplication overflows. *)
Lemma parseIntervalToMinutes64_whole (interval : string) (x : number) :
  Binary64.parseIntervalToMinutes interval = Some x ->
  x = PosInf \/ exists mpb : Z, 0 < mpb < 2 ^ 1024 /\ x = ofZ mpb.
Proof.
  intros (n & f & (ds & u & _ & _ & Hu & _) & Hn & Hfin & ->)%parseIntervalToMinutes64_Some.
  destruct (Binary64Facts.round64_whole n Hn) as [E|(c & Hc & E)];
    rewrite E in *; [discriminate|].
  assert (Hmul : forall (a k : Z), 0 < a -> 0 < k ->
            Binary64.mul (ofZ a) (ofZ k) = PosInf
            \/ exists b, 0 < b < 2 ^ 1024 /\ Binary64.mul (ofZ a) (ofZ k) = ofZ b).
  { intros a k Ha Hk. unfold Binary64.mul. rewrite JsFacts.mul_ofZ.
    apply Binary64Facts.round64_whole. nia. }
  each_char u; try discriminate Hu; injection Hu as <-;
    cbv beta iota delta [timesFactor]; js_lits;
    first [ now right; eauto
          | now apply Hmul
          | destruct (Hmul c 24 ltac:(lia) ltac:(lia)) as [->|(b & Hb & ->)];
            [now left|apply Hmul; lia] ].
Qed.

(** A one followed by [k] zeros. *)
Definition powerOfTenText (k : nat) : string :=
  "1" ++ String.concat "" (repeat "0" k).

(** Beyond 2^53 the products round.  For 7443063632809614 days the code
    multiplies by 24 and then by 60 and returns 10718011631245842432,
    while the magnitude times 1440 is 10718011631245844160, and
    10718011631245844480 when that one product is rounded to a double.
    And "9007199254740993m" is 9007199254740992 minutes: the magnitude
    itself is rounded. *)
Lemma parseIntervalToMinutes_beyond_safe_integers :
  intervalToken "7443063632809614d" 7443063632809614 1440
  /\ Binary64.parseIntervalToMinutes "7443063632809614d"
     = Some (ofZ 10718011631245842432)
  /\ 7443063632809614 * 1440 = 10718011631245844160
  /\ Binary64.mul (Binary64.Number "7443063632809614") 1440
     = ofZ 10718011631245844480
  /\ intervalToken "9007199254740993m" 9007199254740993 1
  /\ Binary64.parseIntervalToMinutes "9007199254740993m"
     = Some (ofZ 9007199254740992).
Proof.
  split; [exists "7443063632809614", "d"%char; now repeat split|].
  split; [vm_compute; reflexivity|]. split; [reflexivity|].
  split; [vm_compute; reflexivity|].
  split; [exists "9007199254740993", "m"%char; now repeat split|].
  vm_compute. reflexivity.
Qed.

(** C4. [parseIntervalToMinutes] trims its input and yields a number
    exactly when the whole trimmed text is an optional run of digits
    followed by one of m, h, d in either case, with a magnitude (1 when
    omitted, else the double nearest to the digits) that is finite and
    above zero: the result is then the magnitude times 1, 60 or 1440 (for
    days computed as [n * 24 * 60]), which is the exact product as long as
    it is at most 2^53.  In every other case (empty text, trailing
    garbage, zero magnitude, a sign, an unknown unit, a magnitude too large
    for a double) the result is null; the function is total, so nothing
    is thrown.  Examples: "15m" is 15, "4h" is 240, "1d" is 1440, "m" is 1,
    and "0m", the empty text and "5x" are null; "9007199254740993m" is
    9007199254740992 and a magnitude of 401 digits is null. *)
Theorem parseIntervalToMinutes_spec :
  (forall (interval : string) (x : number),
      Binary64.parseIntervalToMinutes interval = Some x <->
      exists n f : Z,
        intervalToken (trim interval) n f /\ 0 < n
        /\ isFinite (Binary64.round64 (inject_Z n)) = true
        /\ x = timesFactor (Binary64.round64 (inject_Z n)) f)
  /\ (forall (interval : string) (n f : Z),
      intervalToken (trim interval) n f -> 0 < n -> n * f <= 2 ^ 53 ->
      Binary64.parseIntervalToMinutes interval = Some (ofZ (n * f)))
  /\ (forall interval : string,
      Binary64.parseIntervalToMinutes interval = None <->
      forall n f : Z,
        intervalToken (trim interval) n f ->
        n <= 0 \/ isFinite (Binary64.round64 (inject_Z n)) = false)
  /\ Binary64.parseIntervalToMinutes "15m" = Some 15%js
  /\ Binary64.parseIntervalToMinutes "4h" = Some 240%js
  /\ Binary64.parseIntervalToMinutes "1d" = Some 1440%js
  /\ Binary64.parseIntervalToMinutes "m" = Some 1%js
  /\ Binary64.parseIntervalToMinutes " 4H " = Some 240%js
  /\ Binary64.parseIntervalToMinutes "0m" = None
  /\ Binary64.parseIntervalToMinutes "" = None
  /\ Binary64.parseIntervalToMinutes "5x" = None
  /\ Binary64.parseIntervalToMinutes "5m!" = None
  /\ Binary64.parseIntervalToMinutes "-5m" = None
  /\ Binary64.parseIntervalToMinutes "9007199254740993m"
     = Some 9007199254740992%js
  /\ Binary64.parseIntervalToMinutes (powerOfTenText 400 ++ "m") = None.
Proof.
  split; [exact parseIntervalToMinutes64_Some|].
  split; [exact parseIntervalToMinutes64_safe|]. split.
  - intros interval. split.
    + intros Hx n f Htok.
      rewrite (parseIntervalToMinutes64_token _ _ _ Htok) in Hx. cbv zeta in Hx.
      pose proof (magnitude_accepted n (intervalToken_nonneg _ _ _ Htok)) as Hacc.
      cbv zeta in Hacc.
      destruct (Z.le_gt_cases n 0) as [|Hn]; [now left|right].
      destruct (isFinite (Binary64.round64 (inject_Z n))) eqn:Hfin;
        [|reflexivity].
      rewrite (proj2 Hacc (conj Hn eq_refl)) in Hx. discriminate.
    + intros Hall.
      destruct (intervalToken_dec (trim interval)) as [(n & f & Htok)|Hno].
      * rewrite (parseIntervalToMinutes64_token _ _ _ Htok). cbv zeta.
        destruct (Hall n f Htok) as [Hn|Hinf].
        -- assert (n = 0) as -> by (pose proof (intervalToken_nonneg _ _ _ Htok); lia).
           reflexivity.
        -- now rewrite Hinf.
      * now apply parseIntervalToMinutes64_no_token.
  - repeat split; vm_compute; reflexivity.
Qed.

End IntervalParser64.

(** ** BarEstimator in double arithmetic *)

Section BarEstimator64.
Import Text TextFacts Js JsFacts NumberFacts.

(** Milliseconds from the epoch to UTC midnight of day [d] of month [m] of
    year [y]; a day past the end of its month counts on into the next
    month. *)
Definition midnightMs (y m d : Z) : Z :=
  JsDate.MakeDay y (m - 1) d * JsDate.msPerDay.

Lemma utcMs_midnight (y m d : Z) : 100 <= y -> utcMs y m d = midnightMs y m d.
Proof.
  intros Hy. unfold utcMs, midnightMs, JsDate.MakeFullYear.
  destruct (Z.leb_spec 0 y), (Z.leb_spec y 99); cbn [andb]; (reflexivity || lia).
Qed.

Lemma utcMs_century (y m d : Z) :
  0 <= y <= 99 -> utcMs y m d = midnightMs (1900 + y) m d.
Proof.
  intros Hy. unfold utcMs, midnightMs, JsDate.MakeFullYear.
  destruct (Z.leb_spec 0 y), (Z.leb_spec y 99); cbn [andb]; (reflexivity || lia).
Qed.

(** Within the years 0..9999 the time values lie between the years 100
    and 10000. *)
Lemma utcMs_bounds (y m d : Z) :
  0 <= y < 10000 -> 1 <= m <= 12 -> 1 <= d <= 31 ->
  - 60000000000000 <= utcMs y m d <= 260000000000000.
Proof.
  intros Hy Hm Hd. unfold utcMs, JsDate.MakeDay, JsDate.msPerDay.
  replace ((m - 1) / 12) with 0 by (Z.div_mod_to_equations; lia).
  pose proof (monthStart_range ((m - 1) mod 12)) as Hs.
  set (leap := if (_ && _)%bool then 1 else 0).
  assert (0 <= leap <= 1) by (subst leap; destruct (_ && _)%bool; lia).
  assert (Hfy : 100 <= JsDate.MakeFullYear y < 10000)
    by (unfold JsDate.MakeFullYear;
        destruct (Z.leb_spec 0 y), (Z.leb_spec y 99); cbn [andb]; lia).
  rewrite Z.add_0_r. set (yr := JsDate.MakeFullYear y) in *.
  unfold JsDate.DayFromYear. Z.div_mod_to_equations. lia.
Qed.

Lemma Number64_small (g : string) (k : nat) :
  String.length g = S k -> (k < 15)%nat -> allDigits g = true ->
  Binary64.Number g = Number g.
Proof.
  intros L Hk D. unfold Binary64.Number.
  assert (T : truthy g = true) by (destruct g; [discriminate|reflexivity]).
  rewrite (Number_digits g T D). apply Binary64Facts.rounded_ofZ.
  pose proof (decimal_range g D) as R. rewrite L in R.
  assert (10 ^ Z.of_nat (S k) <= 10 ^ 15) by (apply Z.pow_le_mono_r; lia).
  assert (10 ^ 15 <= 2 ^ 53) by (vm_compute; discriminate).
  lia.
Qed.

(** Dates are small numbers: the double arithmetic of the date parser is
    exact. *)
Lemma parseDateYmdUtc64 (dateStr : string) :
  Binary64.parseDateYmdUtc dateStr = parseDateYmdUtc dateStr.
Proof.
  unfold Binary64.parseDateYmdUtc, parseDateYmdUtc.
  destruct (matchYmd (trim dateStr)) as [[[g1 g2] g3]|] eqn:Hm; [|reflexivity].
  apply matchYmd_Some in Hm as (_ & L1 & L2 & L3 & D1 & D2 & D3).
  rewrite (Number64_small g1 _ L1), (Number64_small g2 _ L2),
    (Number64_small g3 _ L3) by (assumption || lia).
  assert (T : truthy g2 = true) by (destruct g2; [discriminate|reflexivity]).
  rewrite (Number_digits g2 T D2). js_lits.
  pose proof (decimal_range g2 D2) as R. rewrite L2 in R.
  change (10 ^ Z.of_nat 2) with 100 in R.
  rewrite Binary64Facts.sub_safe by lia. now rewrite JsFacts.sub_ofZ.
Qed.

Lemma strictYmd_year (text : string) (y m d : Z) :
  strictYmd text y m d -> 0 <= y < 10000.
Proof.
  intros [(ys & ms & ds & _ & L & _ & _ & D & _ & _ & -> & _ & _) _].
  pose proof (decimal_range ys D) as R. now rewrite L in R.
Qed.

(** For two strict dates and a parsed interval the estimate is the formula
    over the time values; every intermediate value is a safe integer. *)
Lemma estimateTotalBars64_strict (startDate endDate interval : string)
  (ys ms ds ye me de : Z) (minutesPerBar : number) :
  strictYmd (trim startDate) ys ms ds ->
  strictYmd (trim endDate) ye me de ->
  Binary64.parseIntervalToMinutes interval = Some minutesPerBar ->
  let diffMinutes := Z.max 0 ((utcMs ye me de - utcMs ys ms ds) / 60000) in
  (minutesPerBar = PosInf
   /\ Binary64.estimateTotalBars startDate endDate interval = Some (ofZ 0))
  \/ (exists mpb : Z,
        0 < mpb /\ minutesPerBar = ofZ mpb
        /\ Binary64.estimateTotalBars startDate endDate interval
           = Some (ofZ (diffMinutes / mpb))).
Proof.
  intros Hs He Hi. cbv zeta.
  pose proof (strictYmd_year _ _ _ _ Hs) as Ys.
  pose proof (strictYmd_year _ _ _ _ He) as Ye.
  pose proof (utcMs_bounds ys ms ds Ys (proj1 (proj2 Hs)) (proj2 (proj2 Hs))) as Bs.
  pose proof (utcMs_bounds ye me de Ye (proj1 (proj2 He)) (proj2 (proj2 He))) as Be.
  unfold Binary64.estimateTotalBars.
  rewrite !parseDateYmdUtc64, (parseDateYmdUtc_strict _ _ _ _ Hs),
    (parseDateYmdUtc_strict _ _ _ _ He), Hi.
  js_lits. rewrite Binary64Facts.sub_safe by lia.
  rewrite Binary64Facts.floor_div_safe by lia. rewrite max_ofZ.
  set (diff := Z.max 0 ((utcMs ye me de - utcMs ys ms ds) / 60000)).
  assert (Hd : 0 <= diff < 2 ^ 53).
  { subst diff. split; [lia|].
    assert ((utcMs ye me de - utcMs ys ms ds) / 60000 <= 320000000000000 / 60000)
      by (apply Z.div_le_mono; lia).
    assert (320000000000000 / 60000 < 2 ^ 53) by (vm_compute; reflexivity).
    lia. }
  destruct (parseIntervalToMinutes64_whole _ _ Hi) as [->|(mpb & Hm & ->)].
  - left. split; [reflexivity|]. reflexivity.
  - right. exists mpb. split; [lia|]. split; [reflexivity|].
    rewrite Binary64Facts.floor_div_safe by lia. rewrite max_ofZ.
    do 2 f_equal. pose proof (Z.div_pos diff mpb ltac:(lia) ltac:(lia)). lia.
Qed.



End BarEstimator64.

(** ** BacktestAssessor in double arithmetic *)

Section BacktestAssessor64.
Import Js JsFacts.

(** Decide every comparison of the goal and keep the facts about the
    rationals. *)
Ltac compare_all :=
  unfold gtb, geb;
  repeat match goal with
         | |- context [ltb (Fin ?a) (Fin ?b)] =>
             let E := fresh "E" in
             destruct (ltb (Fin a) (Fin b)) eqn:E;
             [apply ltb_Fin in E | apply ltb_Fin_false in E]
         | |- context [leb (Fin ?a) (Fin ?b)] =>
             let E := fresh "E" in
             destruct (leb (Fin a) (Fin b)) eqn:E;
             [apply leb_Fin in E | apply leb_Fin_false in E]
         end.

(** The value of a decimal literal of the source as a rational: the
    double nearest to the decimal. *)
Definition threshold (text : string) : Q :=
  match Binary64.literal text with
  | Fin q => q
  | _ => 0
  end.

Lemma literal_threshold :
  Binary64.literal "0.1" = Fin (threshold "0.1")
  /\ Binary64.literal "0.2" = Fin (threshold "0.2")
  /\ Binary64.literal "0.3" = Fin (threshold "0.3")
  /\ Binary64.literal "0.02" = Fin (threshold "0.02")
  /\ Binary64.literal "0.03" = Fin (threshold "0.03").
Proof. repeat split; vm_compute; reflexivity. Qed.

(** The thresholds are within 10^-16 of their decimals. *)
Lemma threshold_values :
  (Qabs (threshold "0.1" - (1 # 10)) < 1 # 10 ^ 16)%Q
  /\ (Qabs (threshold "0.2" - (2 # 10)) < 1 # 10 ^ 16)%Q
  /\ (Qabs (threshold "0.3" - (3 # 10)) < 1 # 10 ^ 16)%Q
  /\ (Qabs (threshold "0.02" - (2 # 100)) < 1 # 10 ^ 16)%Q
  /\ (Qabs (threshold "0.03" - (3 # 100)) < 1 # 10 ^ 16)%Q.
Proof. repeat split; vm_compute; reflexivity. Qed.

(** The metrics the summary reads from the statistics. *)
Definition metricsOf64 (stats : JsonValue)
  : option number * option number * option number * option number :=
  (Binary64.toNumber (getField stats "profit_rate"),
   Binary64.toNumber (getField stats "max_drawdown"),
   Binary64.toNumber (getField stats "total_trades"),
   Binary64.feeRatioOf (Binary64.toNumber (getField stats "initial_balance"))
                       (Binary64.toNumber (getField stats "fees_paid"))).

Lemma score64_additive (p d t r : option number) :
  Binary64.score p d t r =
  Binary64.score p None None None + Binary64.score None d None None
  + Binary64.score None None t None + Binary64.score None None None r.
Proof.
  unfold Binary64.score. destruct p, d, t, r; cbv zeta;
    repeat match goal with |- context [if ?c then _ else _] => destruct c end;
    lia.
Qed.

Lemma summary64_verdict (stats : JsonValue) (overall : option JsonValue)
  (reason status : option string) :
  jsonTruthy stats = true ->
  exists a : Assessment,
    Binary64.backtestSummary (Some stats) overall reason status = Some a
    /\ let '(p, d, t, r) := metricsOf64 stats in
       verdict a = verdictOf p (Binary64.score p d t r).
Proof.
  intros Ht. unfold Binary64.backtestSummary. rewrite Ht. cbn [negb]. cbv zeta.
  destruct (if walkForwardFailed status then _ else _) as [ws ts].
  eexists. split; reflexivity.
Qed.

(** Read the thresholds of the rules as their rational values. *)
Ltac thresholds :=
  destruct literal_threshold as (T1 & T2 & T3 & T4 & T5);
  rewrite ?T1, ?T2, ?T3, ?T4, ?T5; clear T1 T2 T3 T4 T5;
  repeat match goal with
         | |- context [threshold ?t] =>
             let v := eval vm_compute in (threshold t) in
             change (threshold t) with v in *
         | H : context [threshold ?t] |- _ =>
             let v := eval vm_compute in (threshold t) in
             change (threshold t) with v in *
         end.

Ltac rule_case :=
  intros; unfold Binary64.score; cbv zeta; thresholds; compare_all;
  first [reflexivity | exfalso; lra].

Lemma profit_rule64 (q : Q) :
  ((0 < q)%Q -> Binary64.score (Some (Fin q)) None None None = 2)
  /\ ((q <= 0)%Q -> Binary64.score (Some (Fin q)) None None None = -2).
Proof. split; rule_case. Qed.

Lemma drawdown_rule64 (q : Q) :
  ((q < threshold "0.1")%Q -> Binary64.score None (Some (Fin q)) None None = 2)
  /\ ((threshold "0.1" <= q)%Q -> (q < threshold "0.2")%Q ->
      Binary64.score None (Some (Fin q)) None None = 1)
  /\ ((threshold "0.2" <= q)%Q -> (q <= threshold "0.3")%Q ->
      Binary64.score None (Some (Fin q)) None None = -1)
  /\ ((threshold "0.3" < q)%Q -> Binary64.score None (Some (Fin q)) None None = -2).
Proof. repeat split; rule_case. Qed.

Lemma trades_rule64 (q : Q) :
  ((100 <= q)%Q -> Binary64.score None None (Some (Fin q)) None = 2)
  /\ ((30 <= q)%Q -> (q < 100)%Q ->
      Binary64.score None None (Some (Fin q)) None = 1)
  /\ ((10 <= q)%Q -> (q < 30)%Q ->
      Binary64.score None None (Some (Fin q)) None = -1)
  /\ ((q < 10)%Q -> Binary64.score None None (Some (Fin q)) None = -2).
Proof. repeat split; rule_case. Qed.

Lemma fee_rule64 (q : Q) :
  ((q < threshold "0.02")%Q -> Binary64.score None None None (Some (Fin q)) = 1)
  /\ ((threshold "0.1" < q)%Q -> Binary64.score None None None (Some (Fin q)) = -2)
  /\ ((threshold "0.03" < q)%Q -> (q <= threshold "0.1")%Q ->
      Binary64.score None None None (Some (Fin q)) = -1)
  /\ ((threshold "0.02" <= q)%Q -> (q <= threshold "0.03")%Q ->
      Binary64.score None None None (Some (Fin q)) = 0).
Proof. repeat split; rule_case. Qed.

(** The statistics of the example: fees of 10 on a balance of 1000 are a
    fee ratio of 0.01. *)
Definition goodStats64 : JsonValue :=
  JObj (<["profit_rate" := JNum (Binary64.literal "0.1")]>
       (<["max_drawdown" := JNum (Binary64.literal "0.05")]>
       (<["total_trades" := JNum 150]>
       (<["fees_paid" := JNum 10]>
       {[ "initial_balance" := JNum 1000 ]})))).

Lemma feeRatioOf64_Fin (ib fp : Q) :
  ((0 < ib)%Q ->
   Binary64.feeRatioOf (Some (Fin ib)) (Some (Fin fp))
   = Some (Binary64.round64 (fp / ib)))
  /\ ((ib <= 0)%Q ->
      Binary64.feeRatioOf (Some (Fin ib)) (Some (Fin fp)) = None).
Proof.
  unfold Binary64.feeRatioOf, numberTruthy, gtb. cbn [isFinite andb].
  js_lits. unfold ofZ. split; intros H.
  - assert (H0 : Qeq_bool ib 0 = false).
    { apply not_true_iff_false. rewrite Qeq_bool_iff. intros E.
      rewrite E in H. discriminate H. }
    rewrite H0. cbn [negb andb].
    assert (Hlt : ltb (Fin (inject_Z 0)) (Fin ib) = true) by now apply ltb_Fin.
    rewrite Hlt. unfold Binary64.div. rewrite div_Fin, H0. cbn [Binary64.rounded norm].
    f_equal. apply Binary64Facts.round64_comp, Qred_correct.
  - destruct (negb (Qeq_bool ib 0)); [|reflexivity]. cbn [andb].
    assert (Hlt : ltb (Fin (inject_Z 0)) (Fin ib) = false) by now apply ltb_Fin_false.
    now rewrite Hlt.
Qed.

(** C7. The score is the sum of four rules, each counted only when its
    metric is present: profit above zero +2, else -2; drawdown below 0.1
    +2, below 0.2 +1, above 0.3 -2, within [0.2, 0.3] -1; trades from 100
    +2, from 30 +1, below 10 -2, within [10, 30) -1; fee ratio below 0.02
    +1, above 0.1 -2, above 0.03 -1, within [0.02, 0.03] nothing.  The
    thresholds are the doubles of the decimal literals (each within 10^-16
    of its decimal), and the fee ratio is the rounded quotient of the fees
    by a positive initial balance (an infinite ratio counts as above
    0.1).  The verdict of the summary is "no
    result" without a profit rate, "looks good" from a score of 3,
    "neutral / keep validating" from 0, and "weak / needs optimization"
    below 0.  With a profit rate of 0.1, a drawdown of 0.05, 150 trades
    and a fee ratio of 0.01 the score is 7, the verdict "looks good", and
    there is no warning. *)
Theorem backtest_assessment :
  (forall p d t r : option number,
      Binary64.score p d t r =
      Binary64.score p None None None + Binary64.score None d None None
      + Binary64.score None None t None + Binary64.score None None None r)
  /\ Binary64.score None None None None = 0
  /\ ((Qabs (threshold "0.1" - (1 # 10)) < 1 # 10 ^ 16)%Q
      /\ (Qabs (threshold "0.2" - (2 # 10)) < 1 # 10 ^ 16)%Q
      /\ (Qabs (threshold "0.3" - (3 # 10)) < 1 # 10 ^ 16)%Q
      /\ (Qabs (threshold "0.02" - (2 # 100)) < 1 # 10 ^ 16)%Q
      /\ (Qabs (threshold "0.03" - (3 # 100)) < 1 # 10 ^ 16)%Q)
  /\ (forall q : Q,
      ((0 < q)%Q -> Binary64.score (Some (Fin q)) None None None = 2)
      /\ ((q <= 0)%Q -> Binary64.score (Some (Fin q)) None None None = -2))
  /\ (forall q : Q,
      ((q < threshold "0.1")%Q ->
       Binary64.score None (Some (Fin q)) None None = 2)
      /\ ((threshold "0.1" <= q)%Q -> (q < threshold "0.2")%Q ->
          Binary64.score None (Some (Fin q)) None None = 1)
      /\ ((threshold "0.2" <= q)%Q -> (q <= threshold "0.3")%Q ->
          Binary64.score None (Some (Fin q)) None None = -1)
      /\ ((threshold "0.3" < q)%Q ->
          Binary64.score None (Some (Fin q)) None None = -2))
  /\ (forall q : Q,
      ((100 <= q)%Q -> Binary64.score None None (Some (Fin q)) None = 2)
      /\ ((30 <= q)%Q -> (q < 100)%Q ->
          Binary64.score None None (Some (Fin q)) None = 1)
      /\ ((10 <= q)%Q -> (q < 30)%Q ->
          Binary64.score None None (Some (Fin q)) None = -1)
      /\ ((q < 10)%Q -> Binary64.score None None (Some (Fin q)) None = -2))
  /\ (forall q : Q,
      ((q < threshold "0.02")%Q ->
       Binary64.score None None None (Some (Fin q)) = 1)
      /\ ((threshold "0.1" < q)%Q ->
          Binary64.score None None None (Some (Fin q)) = -2)
      /\ ((threshold "0.03" < q)%Q -> (q <= threshold "0.1")%Q ->
          Binary64.score None None None (Some (Fin q)) = -1)
      /\ ((threshold "0.02" <= q)%Q -> (q <= threshold "0.03")%Q ->
          Binary64.score None None None (Some (Fin q)) = 0))
  /\ Binary64.score None None None (Some PosInf) = -2
  /\ (forall ib fp : Q,
      ((0 < ib)%Q ->
       Binary64.feeRatioOf (Some (Fin ib)) (Some (Fin fp))
       = Some (Binary64.round64 (fp / ib)))
      /\ ((ib <= 0)%Q ->
          Binary64.feeRatioOf (Some (Fin ib)) (Some (Fin fp)) = None))
  /\ (forall (p : number) (s : Z),
      verdictOf None s = noResult
      /\ (3 <= s -> verdictOf (Some p) s = looksGood)
      /\ (0 <= s < 3 -> verdictOf (Some p) s = keepValidating)
      /\ (s < 0 -> verdictOf (Some p) s = needsOptimization))
  /\ (forall (stats : JsonValue) (overall : option JsonValue)
             (reason status : option string),
      jsonTruthy stats = true ->
      exists a : Assessment,
        Binary64.backtestSummary (Some stats) overall reason status = Some a
        /\ let '(p, d, t, r) := metricsOf64 stats in
           verdict a = verdictOf p (Binary64.score p d t r))
  /\ metricsOf64 goodStats64
     = (Some (Binary64.literal "0.1"), Some (Binary64.literal "0.05"),
        Some 150%js, Some (Binary64.literal "0.01"))
  /\ Binary64.score (Some (Binary64.literal "0.1"))
                    (Some (Binary64.literal "0.05")) (Some 150%js)
                    (Some (Binary64.literal "0.01")) = 7
  /\ (forall status : option string,
      status = None \/ status = Some "success" ->
      exists a : Assessment,
        Binary64.backtestSummary (Some goodStats64) None None status = Some a
        /\ verdict a = looksGood /\ warnings a = []).
Proof.
  split; [exact score64_additive|]. split; [reflexivity|].
  split; [exact threshold_values|].
  split; [exact profit_rule64|]. split; [exact drawdown_rule64|].
  split; [exact trades_rule64|]. split; [exact fee_rule64|].
  split; [vm_compute; reflexivity|].
  split; [exact feeRatioOf64_Fin|].
  split; [exact verdict_rule|]. split; [exact summary64_verdict|].
  split; [vm_compute; reflexivity|]. split; [vm_compute; reflexivity|].
  intros status [-> | ->]; eexists; (split; [vm_compute; reflexivity|]);
    split; reflexivity.
Qed.

(** Fees of 300.3 on a balance of 10010 are, as doubles, a fee ratio just
    above the threshold 0.03: the fee rule takes a point and the summary
    warns about the fees. *)
Definition feeStats : JsonValue :=
  JObj (<["profit_rate" := JNum (Binary64.literal "0.1")]>
       (<["max_drawdown" := JNum (Binary64.literal "0.25")]>
       (<["total_trades" := JNum 20]>
       (<["fees_paid" := JNum (Binary64.literal "300.3")]>
       {[ "initial_balance" := JNum 10010 ]})))).

Example backtest_assessment_fee_ratio :
  (let '(p, d, t, r) := metricsOf64 feeStats in
   ltOpt (Some (Binary64.literal "0.03")) (default 0%js r) = true
   /\ Binary64.score p d t r = -1)
  /\ exists a : Assessment,
      Binary64.backtestSummary (Some feeStats) None None None = Some a
      /\ verdict a = needsOptimization
      /\ warnings a = ["回撤偏大：风险不低。"; "交易次数偏少：建议拉长时间再看。";
                       "手续费占比偏高：需要关注交易频率与成本假设。"].
Proof.
  split; [vm_compute; split; reflexivity|].
  eexists. split; [vm_compute; reflexivity|]. split; reflexivity.
Qed.

(** The losing example in doubles: a loss of 0.1, a drawdown of 0.35 and
    5 trades, fees absent, score -6: "weak", with the strong drawdown and the
    strong low-trade-count warnings. *)
Definition weakStats64 : JsonValue :=
  JObj (<["profit_rate" := JNum (Binary64.literal "-0.1")]>
       (<["max_drawdown" := JNum (Binary64.literal "0.35")]>
       {[ "total_trades" := JNum 5 ]})).

Example backtest_assessment_weak64 :
  (let '(p, d, t, r) := metricsOf64 weakStats64 in Binary64.score p d t r) = -6
  /\ exists a : Assessment,
      Binary64.backtestSummary (Some weakStats64) None None None = Some a
      /\ verdict a = needsOptimization
      /\ warnings a = ["回撤很大：波动/风险偏高。"; "交易次数很少：结论很不稳定。"].
Proof.
  split; [vm_compute; reflexivity|].
  eexists. split; [vm_compute; reflexivity|]. split; reflexivity.
Qed.

End BacktestAssessor64.

(** * Further properties of the code *)

(** A computation that is seen to succeed has a result. *)
Lemma inr_exists {E A : Type} (x : E + A) :
  match x with inl _ => false | inr _ => true end = true ->
  exists a : A, x = inr a.
Proof. destruct x as [e|a]; [discriminate|]. intros _. now exists a. Qed.

Lemma Some_exists {A : Type} (x : option A) :
  match x with Some _ => true | None => false end = true ->
  exists a : A, x = Some a.
Proof. destruct x as [a|]; [|discriminate]. intros _. now exists a. Qed.


(** ** WindowCounter: what the count means *)

Section WindowCounterMeaning.
Import Js JsFacts.

(** X1. On whole bar counts with positive sizes, all within the safe
    integers, the count [k] is the number of windows that fit: none when
    the data is shorter than one train-plus-test window, and otherwise
    window [k] fits and window [k + 1] does not. *)
Theorem calcExpectedWindows_fits (n train test step k : Z) :
  0 <= n <= MAX_SAFE_INTEGER -> 1 <= train -> 1 <= test ->
  train + test <= MAX_SAFE_INTEGER -> 1 <= step <= MAX_SAFE_INTEGER ->
  (Binary64.calcExpectedWindows (ofZ n) (ofZ train) (ofZ test) (ofZ step)
   = Some (ofZ k)
   <-> (k = 0 /\ n < train + test)
       \/ (1 <= k
           /\ train + test + (k - 1) * step <= n < train + test + k * step)).
Proof.
  intros Hn Htr Hte Hsum Hst. rewrite calcExpectedWindows_safe by lia.
  unfold windowCount.
  rewrite !Z.max_r by lia.
  destruct (Z.leb_spec train 0), (Z.leb_spec test 0), (Z.leb_spec step 0);
    try lia. cbn [orb].
  destruct (Z.ltb_spec n (train + test)) as [Hlt|Hge].
  - split.
    + intros Hres. left. split; [|assumption]. symmetry.
      apply ofZ_inj. congruence.
    + intros [[-> _]|[Hk [Hlo _]]]; [reflexivity|]. nia.
  - pose proof (Z.div_mod (n - train - test) step ltac:(lia)) as Hdm.
    pose proof (Z.mod_pos_bound (n - train - test) step ltac:(lia)) as Hmod.
    split.
    + intros Hres. right.
      assert (Hk : (n - train - test) / step + 1 = k)
        by (apply ofZ_inj; congruence).
      subst k. nia.
    + intros [[_ Hlt]|[Hk [Hlo Hhi]]]; [lia|].
      do 2 f_equal.
      assert ((n - train - test) / step = k - 1); [|lia].
      symmetry. apply (Z.div_unique_pos _ _ _ (n - train - test - (k - 1) * step));
        nia.
Qed.

Lemma calcExpectedWindows_fits_witness :
  Binary64.calcExpectedWindows (ofZ 12000) (ofZ 8000) (ofZ 2000) (ofZ 2000)
  = Some (ofZ 2)
  <-> (2 = 0 /\ 12000 < 8000 + 2000)
      \/ (1 <= 2
          /\ 8000 + 2000 + (2 - 1) * 2000 <= 12000 < 8000 + 2000 + 2 * 2000).
Proof.
  apply (calcExpectedWindows_fits 12000 8000 2000 2000 2);
    unfold MAX_SAFE_INTEGER; lia.
Defined.

(** X2. More data never gives fewer windows: within the safe integers the
    count is monotone in the total bar count (and is a whole number, never
    null, for positive sizes). *)
Theorem calcExpectedWindows_monotone (n n' train test step : Z) :
  1 <= train -> 1 <= test -> train + test <= MAX_SAFE_INTEGER ->
  1 <= step <= MAX_SAFE_INTEGER -> n <= n' <= MAX_SAFE_INTEGER ->
  exists k k' : Z,
    Binary64.calcExpectedWindows (ofZ n) (ofZ train) (ofZ test) (ofZ step)
    = Some (ofZ k)
    /\ Binary64.calcExpectedWindows (ofZ n') (ofZ train) (ofZ test) (ofZ step)
       = Some (ofZ k')
    /\ 0 <= k <= k'.
Proof.
  intros Htr Hte Hsum Hst Hle. rewrite !calcExpectedWindows_safe by (unfold MAX_SAFE_INTEGER in *; lia).
  unfold windowCount.
  rewrite !(Z.max_r 0 train), !(Z.max_r 0 test), !(Z.max_r 0 step) by lia.
  destruct (Z.leb_spec train 0), (Z.leb_spec test 0), (Z.leb_spec step 0);
    try lia. cbn [orb].
  set (m := Z.max 0 n). set (m' := Z.max 0 n').
  assert (Hm : 0 <= m <= m') by (subst m m'; lia).
  destruct (Z.ltb_spec m (train + test)), (Z.ltb_spec m' (train + test));
    try lia; do 2 eexists; (split; [reflexivity|]); (split; [reflexivity|]).
  - lia.
  - pose proof (Z.div_pos (m' - train - test) step ltac:(lia) ltac:(lia)). lia.
  - pose proof (Z.div_pos (m - train - test) step ltac:(lia) ltac:(lia)).
    pose proof (Z.div_le_mono (m - train - test) (m' - train - test) step
                  ltac:(lia) ltac:(lia)).
    lia.
Qed.

Lemma calcExpectedWindows_monotone_witness :
  exists k k' : Z,
    Binary64.calcExpectedWindows (ofZ 900) (ofZ 800) (ofZ 200) (ofZ 200)
    = Some (ofZ k)
    /\ Binary64.calcExpectedWindows (ofZ 1500) (ofZ 800) (ofZ 200) (ofZ 200)
       = Some (ofZ k')
    /\ 0 <= k <= k'.
Proof.
  apply (calcExpectedWindows_monotone 900 1500 800 200 200);
    unfold MAX_SAFE_INTEGER; lia.
Defined.

End WindowCounterMeaning.

(** ** WindowRecommender: the plan in closed form *)

Section WindowRecommenderPlan.
Import Js JsFacts.

(** [recommendWalkForward] with its feasibility block taken out. *)
Definition recommendWithoutShrink (totalBars : number) : WindowPlan :=
  let n := max 0 (floor totalBars) in
  let test := floor (n / (4 + 6))%js in
  let test := if (negb (isFinite test) || (test <=? 0)%js)%bool
              then 200%js else test in
  let roundTo := roundingStep test in
  let test := max 200 (floor (test / roundTo) * roundTo)%js in
  let train := max 200 (4 * test)%js in
  {| train_bars := train;
     test_bars := test;
     step_bars := test;
     max_windows := 10%js;
     expected_windows := calcExpectedWindows n train test test |}.

(** X3. The block that is meant to leave room for two windows never
    changes the plan: it is entered only below 1200 bars, and there it
    computes the 200-bar minimum again.  For every input the plan is the
    one of the first phase. *)
Theorem recommendWalkForward_shrink_is_idle (totalBars : number) :
  recommendWalkForward totalBars = recommendWithoutShrink totalBars.
Proof.
  destruct totalBars as [| | |q].
  1-3: vm_compute; reflexivity.
  rewrite recommendWalkForward_Fin, recommendWalkForward_ofZ by lia.
  set (n := Z.max 0 (Qfloor q)).
  rewrite (planTestZ_initial n) by lia.
  unfold recommendWithoutShrink. cbv zeta. js_lits. js_int.
  fold n. rewrite floor_div_ofZ by lia. js_int. cbn [negb orb].
  change (4 + 6) with 10.
  assert (Hsel : (if n / 10 <=? 0 then ofZ 200 else ofZ (n / 10)) =
                 ofZ (if n / 10 <=? 0 then 200 else n / 10))
    by now destruct (n / 10 <=? 0).
  rewrite Hsel, roundTest_ofZ. fold (initialTestZ n). now js_int.
Qed.

(** The test size of the plan for a whole bar count. *)
Lemma initialTestZ_bounds (n : Z) :
  0 <= n ->
  (n < 2000 -> initialTestZ n = 200)
  /\ (2000 <= n ->
      200 <= initialTestZ n /\ 10 * initialTestZ n <= n < 11 * initialTestZ n).
Proof.
  intros Hn. unfold initialTestZ. cbv zeta. split.
  - intros Hlt. apply roundTestZ_small.
    destruct (n / 10 <=? 0); [lia|]. Z.div_mod_to_equations; lia.
  - intros Hge.
    destruct (Z.leb_spec (n / 10) 0) as [H0|H0];
      [Z.div_mod_to_equations; lia|].
    unfold roundTestZ, roundingStepZ.
    destruct (Z.leb_spec 2000 (n / 10)), (Z.leb_spec 500 (n / 10));
      Z.div_mod_to_equations; lia.
Qed.

(** The expected window count of the plan, in closed form. *)
Lemma expected_windows_ofZ (n : Z) :
  0 <= n ->
  expected_windows (recommendWalkForward (ofZ n)) =
  Some (ofZ (if n <? 1000 then 0
             else if n <? 2000 then (n - 1000) / 200 + 1
             else 6)).
Proof.
  intros Hn. rewrite recommendWalkForward_ofZ by lia. cbv zeta.
  cbn [expected_windows]. rewrite (planTestZ_initial n) by lia.
  destruct (initialTestZ_bounds n Hn) as [Hsmall Hbig].
  rewrite calcExpectedWindows_ofZ. unfold windowCount.
  destruct (Z.ltb_spec n 2000) as [Hlt|Hge].
  - rewrite (Hsmall Hlt). change (Z.max 200 (4 * 200)) with 800.
    rewrite (Z.max_r 0 n) by lia.
    change (Z.max 0 800) with 800. change (Z.max 0 200) with 200.
    change ((800 <=? 0) || (200 <=? 0) || (200 <=? 0))%bool with false.
    cbv iota. change (800 + 200) with 1000.
    destruct (Z.ltb_spec n 1000); [reflexivity|].
    do 2 f_equal. now replace (n - 800 - 200) with (n - 1000) by lia.
  - destruct (Hbig Hge) as [H200 [Hlo Hhi]].
    set (t := initialTestZ n) in *.
    rewrite (Z.max_r 0 n), (Z.max_r 200 (4 * t)), (Z.max_r 0 (4 * t)),
      (Z.max_r 0 t) by lia.
    destruct (Z.leb_spec (4 * t) 0), (Z.leb_spec t 0); try lia. cbn [orb].
    destruct (Z.ltb_spec n 1000); [lia|].
    destruct (Z.ltb_spec n (4 * t + t)); [lia|].
    do 2 f_equal.
    assert ((n - 4 * t - t) / t = 5); [|lia].
    symmetry. apply (Z.div_unique_pos _ _ _ (n - 10 * t)); lia.
Qed.

(** X4. For a whole bar count [n] up to [Number.MAX_SAFE_INTEGER] the plan
    expects no window below 1000 bars, [(n - 1000) / 200 + 1] windows (one
    to five) from 1000 up to 1999 bars, and exactly six windows from 2000
    bars on.  So two windows are reached exactly from 1200 bars, and the
    cap [max_windows = 10] is never met. *)
Theorem recommendWalkForward_expected_windows (n : Z) :
  0 <= n <= MAX_SAFE_INTEGER ->
  let windows := if n <? 1000 then 0
                 else if n <? 2000 then (n - 1000) / 200 + 1
                 else 6 in
  expected_windows (Binary64.recommendWalkForward (ofZ n)) = Some (ofZ windows)
  /\ (2 <= windows <-> 1200 <= n)
  /\ windows <= 6.
Proof.
  intros Hn. cbv zeta. rewrite recommendWalkForward_safe by assumption.
  split; [apply expected_windows_ofZ; lia|].
  destruct (Z.ltb_spec n 1000); [lia|].
  destruct (Z.ltb_spec n 2000); [|lia].
  pose proof (Z.div_mod (n - 1000) 200 ltac:(lia)) as Hdm.
  pose proof (Z.mod_pos_bound (n - 1000) 200 ltac:(lia)) as Hmod.
  lia.
Qed.

Lemma recommendWalkForward_expected_windows_witness :
  let windows := if 1100 <? 1000 then 0
                 else if 1100 <? 2000 then (1100 - 1000) / 200 + 1
                 else 6 in
  expected_windows (Binary64.recommendWalkForward (ofZ 1100)) = Some (ofZ windows)
  /\ (2 <= windows <-> 1200 <= 1100)
  /\ windows <= 6.
Proof.
  apply (recommendWalkForward_expected_windows 1100). vm_compute.
  split; discriminate.
Defined.

End WindowRecommenderPlan.

(** ** IntervalParser and BarEstimator: further properties *)

Section ParsersMore.
Import Text TextFacts Js JsFacts NumberFacts.

Lemma trimEnd_idempotent (s : string) : trimEnd (trimEnd s) = trimEnd s.
Proof.
  induction s as [|c s IH]; [reflexivity|]. cbn [trimEnd].
  destruct (trimEnd s) as [|c' s'] eqn:E.
  - destruct (isSpace c) eqn:Hc; [reflexivity|]. cbn [trimEnd]. now rewrite Hc.
  - cbn [trimEnd]. cbn [trimEnd] in IH. now rewrite IH.
Qed.

Lemma trimEnd_head (c : ascii) (s : string) :
  isSpace c = false -> exists r, trimEnd (String c s) = String c r.
Proof.
  intros Hc. cbn [trimEnd]. destruct (trimEnd s); rewrite ?Hc; eauto.
Qed.

Lemma trimStart_head (s : string) :
  trimStart s = "" \/ exists c r, trimStart s = String c r /\ isSpace c = false.
Proof.
  induction s as [|c s IH]; [now left|]. cbn [trimStart].
  destruct (isSpace c) eqn:Hc; [exact IH|]. right. eauto.
Qed.

(** [trim] is idempotent: a trimmed text has nothing left to trim. *)
Lemma trim_idempotent (s : string) : trim (trim s) = trim s.
Proof.
  unfold trim. destruct (trimStart_head s) as [->|(c & r & -> & Hc)];
    [reflexivity|].
  destruct (trimEnd_head c r Hc) as [r' Hr]. rewrite Hr.
  cbn [trimStart]. rewrite Hc, <- Hr. apply trimEnd_idempotent.
Qed.

(** X5. White space around the texts never matters: trimming the interval
    and the two dates beforehand changes neither the parsed interval nor
    the estimated bar count. *)
Theorem estimate_ignores_outer_space (startDate endDate interval : string) :
  parseIntervalToMinutes (trim interval) = parseIntervalToMinutes interval
  /\ estimateTotalBars (trim startDate) (trim endDate) (trim interval)
     = estimateTotalBars startDate endDate interval.
Proof.
  assert (Hi : forall i, parseIntervalToMinutes (trim i) = parseIntervalToMinutes i)
    by (intros i; unfold parseIntervalToMinutes; now rewrite trim_idempotent).
  assert (Hd : forall d, parseDateYmdUtc (trim d) = parseDateYmdUtc d)
    by (intros d; unfold parseDateYmdUtc; now rewrite trim_idempotent).
  split; [apply Hi|]. unfold estimateTotalBars. now rewrite !Hd, Hi.
Qed.

(** The time value is linear in the day of the month. *)
Lemma utcMs_day (y m d d' : Z) :
  utcMs y m d' - utcMs y m d = (d' - d) * 86400000.
Proof. unfold utcMs, JsDate.MakeDay, JsDate.msPerDay. lia. Qed.

Lemma estimateTotalBars_days (startDate endDate interval : string)
  (y m d d' minutesPerBar : Z) :
  strictYmd (trim startDate) y m d ->
  strictYmd (trim endDate) y m d' ->
  parseIntervalToMinutes interval = Some (ofZ minutesPerBar) ->
  estimateTotalBars startDate endDate interval =
  Some (ofZ (Z.max 0 ((d' - d) * 1440) / minutesPerBar)).
Proof.
  intros Hs He Hi.
  destruct (parseIntervalToMinutes_pos _ _ Hi) as (mpb & Hm & Hpos).
  apply ofZ_inj in Hm. subst mpb.
  unfold estimateTotalBars.
  rewrite (parseDateYmdUtc_strict _ _ _ _ Hs),
    (parseDateYmdUtc_strict _ _ _ _ He), Hi.
  js_lits. js_int. rewrite floor_div_ofZ by lia. js_int.
  rewrite floor_div_ofZ by lia. js_int. do 2 f_equal.
  rewrite utcMs_day.
  replace ((d' - d) * 86400000) with ((d' - d) * 1440 * 60000) by lia.
  rewrite Z.div_mul by lia.
  pose proof (Z.div_pos (Z.max 0 ((d' - d) * 1440)) minutesPerBar
                ltac:(lia) ltac:(lia)).
  lia.
Qed.

(** X6. Between two dates of the same year and month the estimate is the
    day difference times 1440 minutes, divided by the minutes per bar and
    rounded down; it is 0 when the end day is not after the start day. *)
Theorem estimateTotalBars_same_month (startDate endDate interval : string)
  (y m d d' minutesPerBar : Z) :
  strictYmd (trim startDate) y m d ->
  strictYmd (trim endDate) y m d' ->
  parseIntervalToMinutes interval = Some (ofZ minutesPerBar) ->
  estimateTotalBars startDate endDate interval
  = Some (ofZ (Z.max 0 ((d' - d) * 1440) / minutesPerBar))
  /\ (d' <= d -> estimateTotalBars startDate endDate interval = Some (ofZ 0)).
Proof.
  intros Hs He Hi.
  rewrite (estimateTotalBars_days _ _ _ _ _ _ _ _ Hs He Hi).
  split; [reflexivity|]. intros Hd. do 2 f_equal.
  rewrite Z.max_l by nia. reflexivity.
Qed.

Lemma estimateTotalBars_same_month_witness :
  estimateTotalBars "2025-01-01" "2025-01-31" "4h"
  = Some (ofZ (Z.max 0 ((31 - 1) * 1440) / 240))
  /\ (31 <= 1 -> estimateTotalBars "2025-01-01" "2025-01-31" "4h" = Some (ofZ 0)).
Proof.
  apply (estimateTotalBars_same_month "2025-01-01" "2025-01-31" "4h" 2025 1 1 31 240).
  - split; [|lia]. exists "2025", "01", "01". now repeat split.
  - split; [|lia]. exists "2025", "01", "31". now repeat split.
  - reflexivity.
Defined.

End ParsersMore.

(** ** Dates past the end of a month, thresholds and durations *)

Section CalendarAndText.
Import Text TextFacts Js JsFacts NumberFacts.

(** The length of month [m] (1..12) of year [y] in the calendar. *)
Definition daysInMonth (y m : Z) : Z :=
  match m with
  | 2 => if JsDate.InLeapYear (JsDate.MakeFullYear y) then 29 else 28
  | 4 | 6 | 9 | 11 => 30
  | _ => 31
  end.

Lemma utcMs_rollover (y m d : Z) :
  1 <= m <= 11 ->
  utcMs y m d = utcMs y (m + 1) (d - daysInMonth y m).
Proof.
  intros Hm. unfold utcMs, JsDate.MakeDay, daysInMonth.
  assert (Hc : m = 1 \/ m = 2 \/ m = 3 \/ m = 4 \/ m = 5 \/ m = 6 \/ m = 7
               \/ m = 8 \/ m = 9 \/ m = 10 \/ m = 11) by lia.
  f_equal.
  repeat (destruct Hc as [->|Hc]); try subst m;
    cbn -[JsDate.InLeapYear JsDate.MakeFullYear JsDate.DayFromYear Z.add Z.sub];
    repeat match goal with
           | |- context [JsDate.monthStart ?a] =>
               let v := eval vm_compute in (JsDate.monthStart a) in
               change (JsDate.monthStart a) with v
           end;
    rewrite ?Z.add_0_r, ?andb_false_r, ?andb_true_r;
    try destruct (JsDate.InLeapYear (JsDate.MakeFullYear y)); lia.
Qed.

(** X7. The calendar is not consulted: a day number up to 31 that lies
    past the end of its month is accepted and read as the corresponding day
    of the next month, so 04-31 is 05-01 and 02-30 is 03-01 or 03-02. *)
Theorem parseDateYmdUtc_rolls_over (date next : string) (y m d : Z) :
  strictYmd (trim date) y m d ->
  daysInMonth y m < d ->
  strictYmd (trim next) y (m + 1) (d - daysInMonth y m) ->
  parseDateYmdUtc date = parseDateYmdUtc next
  /\ parseDateYmdUtc date <> None.
Proof.
  intros Hd Hlate Hn.
  rewrite (parseDateYmdUtc_strict _ _ _ _ Hd), (parseDateYmdUtc_strict _ _ _ _ Hn).
  split; [|discriminate]. do 2 f_equal. apply utcMs_rollover.
  destruct Hd as (_ & ? & _), Hn as (_ & ? & _). lia.
Qed.

Lemma parseDateYmdUtc_rolls_over_witness :
  parseDateYmdUtc "2025-02-30" = parseDateYmdUtc "2025-03-02"
  /\ parseDateYmdUtc "2025-02-30" <> None.
Proof.
  apply (parseDateYmdUtc_rolls_over "2025-02-30" "2025-03-02" 2025 2 30).
  - split; [|lia]. exists "2025", "02", "30". now repeat split.
  - vm_compute. reflexivity.
  - change (daysInMonth 2025 2) with 28. split; [|lia].
    exists "2025", "03", "02". now repeat split.
Defined.

Lemma toLower_idempotent (c : ascii) : toLower (toLower c) = toLower c.
Proof. each_char c; reflexivity. Qed.

Lemma toLowerCase_idempotent (s : string) :
  toLowerCase (toLowerCase s) = toLowerCase s.
Proof.
  unfold toLowerCase. rewrite list_ascii_of_string_of_list_ascii. f_equal.
  rewrite <- list_fmap_compose. apply list_fmap_ext. intros _ c _.
  apply toLower_idempotent.
Qed.

(** X8. The recommended label threshold depends on the two texts only up
    to letter case; there is none exactly when the filter is neither rsi nor
    cti; and every label type other than "down", known or not, gets the
    threshold of "up". *)
Theorem recommendLabelThreshold_cases (filterType labelType : string) :
  recommendLabelThreshold (toLowerCase filterType) (toLowerCase labelType)
  = recommendLabelThreshold filterType labelType
  /\ (recommendLabelThreshold filterType labelType = None
      <-> toLowerCase filterType <> "rsi" /\ toLowerCase filterType <> "cti")
  /\ (toLowerCase labelType <> "down" ->
      recommendLabelThreshold filterType labelType
      = recommendLabelThreshold filterType "up").
Proof.
  unfold recommendLabelThreshold. rewrite !toLowerCase_idempotent.
  split; [reflexivity|]. split.
  - destruct (String.eqb_spec (toLowerCase filterType) "rsi") as [->|Hr].
    + split; [discriminate|]. now intros [? _].
    + destruct (String.eqb_spec (toLowerCase filterType) "cti") as [->|Hc].
      * split; [discriminate|]. now intros [_ ?].
      * now split.
  - intros Ht. apply String.eqb_neq in Ht. rewrite Ht. reflexivity.
Qed.

Lemma Math_round_div (a b : Z) :
  0 < b -> Math_round (div (ofZ a) (ofZ b)) = ofZ ((2 * a + b) / (2 * b)).
Proof.
  intros Hb. unfold Math_round, ofZ at 1 2.
  rewrite div_Fin, Qeq_bool_inject_Z_0.
  destruct (Z.eqb_spec b 0) as [->|_]; [lia|].
  unfold norm, add. fold (norm (Qred (inject_Z a / inject_Z b) + (1 # 2))).
  rewrite floor_norm. f_equal.
  rewrite Zdiv_Qdiv. apply Qfloor_comp.
  rewrite (Qred_correct (inject_Z a / inject_Z b)).
  rewrite inject_Z_plus, !inject_Z_mult.
  assert (~ (inject_Z b == 0)%Q).
  { intros H. apply (inject_Z_injective b 0) in H. lia. }
  field. assumption.
Qed.

Lemma Math_round_ofZ (a : Z) : Math_round (ofZ a) = ofZ a.
Proof.
  unfold Math_round, ofZ at 1, add. fold (norm (inject_Z a + (1 # 2))).
  rewrite floor_norm. f_equal.
  assert (H : (inject_Z a + (1 # 2) == inject_Z (2 * a + 1) / inject_Z 2)%Q).
  { rewrite inject_Z_plus, inject_Z_mult. field. }
  rewrite (Qfloor_comp _ _ H), <- Zdiv_Qdiv. Z.div_mod_to_equations. lia.
Qed.

Lemma geb_div_ofZ (a b k : Z) :
  0 < b -> geb (div (ofZ a) (ofZ b)) (ofZ k) = (k * b <=? a).
Proof.
  intros Hb. unfold geb, leb. unfold ofZ at 2 3.
  rewrite div_Fin, Qeq_bool_inject_Z_0.
  destruct (Z.eqb_spec b 0) as [->|_]; [lia|].
  unfold norm, ofZ, cmp.
  assert (E : (inject_Z k ?= Qred (inject_Z a / inject_Z b))%Q = (k * b ?= a)).
  { rewrite (Qcompare_comp _ _ (Qeq_refl (inject_Z k)) _ _
               (Qred_correct (inject_Z a / inject_Z b))).
    unfold Qcompare, Qdiv, Qinv, Qmult, inject_Z. destruct b as [|p|p]; try lia.
    cbn [Qnum Qden]. rewrite !Z.mul_1_r. change (1 * p)%positive with p.
    reflexivity. }
  rewrite E. unfold Z.leb. now destruct (k * b ?= a).
Qed.

Lemma formatBarsToApproxDuration_minutes (numberText : number -> string)
  (bars minutesPerBar : Z) (interval : string) :
  parseIntervalToMinutes interval = Some (ofZ minutesPerBar) ->
  formatBarsToApproxDuration numberText (ofZ bars) interval =
  let totalMinutes := Z.max 0 bars * minutesPerBar in
  if 2880 <=? totalMinutes
  then "≈ " ++ numberText (ofZ ((totalMinutes + 720) / 1440)) ++ " 天"
  else if 120 <=? totalMinutes
  then "≈ " ++ numberText (ofZ ((totalMinutes + 30) / 60)) ++ " 小时"
  else "≈ " ++ numberText (ofZ totalMinutes) ++ " 分钟".
Proof.
  intros Hi. unfold formatBarsToApproxDuration. rewrite Hi. cbv zeta.
  js_lits. js_int. change (24 * 60) with 1440.
  rewrite !geb_div_ofZ, !Math_round_div, Math_round_ofZ by lia.
  set (t := Z.max 0 bars * minutesPerBar).
  change (2 * 1440) with 2880. change (2 * 60) with 120.
  replace ((2 * t + 1440) / 2880) with ((t + 720) / 1440)
    by (Z.div_mod_to_equations; lia).
  replace ((2 * t + 60) / 120) with ((t + 30) / 60)
    by (Z.div_mod_to_equations; lia).
  reflexivity.
Qed.

Lemma formatBarsToApproxDuration64_minutes (numberText : number -> string)
  (bars minutesPerBar : Z) (interval : string) :
  Binary64.parseIntervalToMinutes interval = Some (ofZ minutesPerBar) ->
  Z.max 0 bars * minutesPerBar < 2 ^ 52 ->
  Binary64.formatBarsToApproxDuration numberText (ofZ bars) interval =
  let totalMinutes := Z.max 0 bars * minutesPerBar in
  if 2880 <=? totalMinutes
  then "≈ " ++ numberText (ofZ ((totalMinutes + 720) / 1440)) ++ " 天"
  else if 120 <=? totalMinutes
  then "≈ " ++ numberText (ofZ ((totalMinutes + 30) / 60)) ++ " 小时"
  else "≈ " ++ numberText (ofZ totalMinutes) ++ " 分钟".
Proof.
  intros Hi Hsafe.
  assert (Hpos : 0 < minutesPerBar).
  { destruct (parseIntervalToMinutes64_whole _ _ Hi) as [?|(c & Hc & E)];
      [discriminate|]. apply ofZ_inj in E. lia. }
  unfold Binary64.formatBarsToApproxDuration. rewrite Hi. cbv zeta.
  js_lits. rewrite max_ofZ.
  set (t := Z.max 0 bars * minutesPerBar) in *.
  assert (Ht : 0 <= t) by (subst t; nia).
  rewrite !Binary64Facts.mul_safe by (fold t; lia). fold t.
  change (24 * 60) with 1440.
  rewrite !Binary64Facts.geb_div_safe, !Binary64Facts.Math_round_div_safe,
    Math_round_ofZ by lia.
  change (2 * 1440) with 2880. change (2 * 60) with 120.
  replace ((2 * t + 1440) / 2880) with ((t + 720) / 1440)
    by (Z.div_mod_to_equations; lia).
  replace ((2 * t + 60) / 120) with ((t + 30) / 60)
    by (Z.div_mod_to_equations; lia).
  reflexivity.
Qed.

(** X9. With a valid interval and a whole number of bars that span fewer
    than 2^52 minutes, the duration is shown in days from two days on, in
    hours from two hours on and in minutes below that, the count rounded
    to the nearest integer with a half rounding up; a negative bar count
    is shown as 0 minutes. *)
Theorem formatBarsToApproxDuration_units (numberText : number -> string)
  (bars minutesPerBar : Z) (interval : string) :
  Binary64.parseIntervalToMinutes interval = Some (ofZ minutesPerBar) ->
  Z.max 0 bars * minutesPerBar < 2 ^ 52 ->
  Binary64.formatBarsToApproxDuration numberText (ofZ bars) interval
  = (let totalMinutes := Z.max 0 bars * minutesPerBar in
     if 2880 <=? totalMinutes
     then "≈ " ++ numberText (ofZ ((totalMinutes + 720) / 1440)) ++ " 天"
     else if 120 <=? totalMinutes
     then "≈ " ++ numberText (ofZ ((totalMinutes + 30) / 60)) ++ " 小时"
     else "≈ " ++ numberText (ofZ totalMinutes) ++ " 分钟")
  /\ (bars <= 0 ->
      Binary64.formatBarsToApproxDuration numberText (ofZ bars) interval
      = "≈ " ++ numberText (ofZ 0) ++ " 分钟").
Proof.
  intros Hi Hsafe. rewrite (formatBarsToApproxDuration64_minutes _ _ _ _ Hi Hsafe).
  split; [reflexivity|]. intros Hbars. cbv zeta.
  rewrite Z.max_l by lia. reflexivity.
Qed.

(** A number-to-text conversion that is right on the integers. *)
Definition integerText (x : number) : string :=
  match toZ x with
  | Some z => NilEmpty.string_of_int (Z.to_int z)
  | None => "NaN"
  end.

Lemma formatBarsToApproxDuration_units_witness :
  Binary64.formatBarsToApproxDuration integerText (ofZ 100) "4h"
  = (let totalMinutes := Z.max 0 100 * 240 in
     if 2880 <=? totalMinutes
     then "≈ " ++ integerText (ofZ ((totalMinutes + 720) / 1440)) ++ " 天"
     else if 120 <=? totalMinutes
     then "≈ " ++ integerText (ofZ ((totalMinutes + 30) / 60)) ++ " 小时"
     else "≈ " ++ integerText (ofZ totalMinutes) ++ " 分钟")
  /\ (100 <= 0 ->
      Binary64.formatBarsToApproxDuration integerText (ofZ 100) "4h"
      = "≈ " ++ integerText (ofZ 0) ++ " 分钟").
Proof.
  apply (formatBarsToApproxDuration_units integerText 100 240 "4h");
    [reflexivity|vm_compute; reflexivity].
Defined.

(** X10. Estimating the bars between two days of one month and showing
    them as a duration gives the day difference back: with an interval
    that divides the day evenly, as every interval offered by the page
    does, and at least two days, the text is the number of days. *)
Theorem duration_of_estimate (numberText : number -> string)
  (startDate endDate interval : string) (y m d d' minutesPerBar : Z) :
  strictYmd (trim startDate) y m d ->
  strictYmd (trim endDate) y m d' ->
  parseIntervalToMinutes interval = Some (ofZ minutesPerBar) ->
  1440 mod minutesPerBar = 0 ->
  d + 2 <= d' ->
  exists bars : Z,
    estimateTotalBars startDate endDate interval = Some (ofZ bars)
    /\ formatBarsToApproxDuration numberText (ofZ bars) interval
       = "≈ " ++ numberText (ofZ (d' - d)) ++ " 天".
Proof.
  intros Hs He Hi Hdiv Hdays.
  destruct (parseIntervalToMinutes_pos _ _ Hi) as (mpb & Hm & Hpos).
  apply ofZ_inj in Hm. subst mpb.
  eexists. split; [exact (estimateTotalBars_days _ _ _ _ _ _ _ _ Hs He Hi)|].
  rewrite (formatBarsToApproxDuration_minutes _ _ _ _ Hi). cbv zeta.
  apply Z.mod_divide in Hdiv; [|lia]. destruct Hdiv as [q Hq].
  assert (Hbars : Z.max 0 ((d' - d) * 1440) / minutesPerBar = (d' - d) * q).
  { rewrite Z.max_r by lia. rewrite Hq, Z.mul_assoc. apply Z.div_mul. lia. }
  rewrite Hbars.
  assert (Htotal : Z.max 0 ((d' - d) * q) * minutesPerBar = (d' - d) * 1440)
    by nia.
  rewrite Htotal.
  destruct (Z.leb_spec 2880 ((d' - d) * 1440)) as [_|?]; [|lia].
  replace (((d' - d) * 1440 + 720) / 1440) with (d' - d)
    by (Z.div_mod_to_equations; lia).
  reflexivity.
Qed.

Lemma duration_of_estimate_witness :
  exists bars : Z,
    estimateTotalBars "2025-01-01" "2025-01-31" "4h" = Some (ofZ bars)
    /\ formatBarsToApproxDuration integerText (ofZ bars) "4h"
       = "≈ " ++ integerText (ofZ (31 - 1)) ++ " 天".
Proof.
  apply (duration_of_estimate integerText "2025-01-01" "2025-01-31" "4h"
           2025 1 1 31 240).
  - split; [|lia]. exists "2025", "01", "01". now repeat split.
  - split; [|lia]. exists "2025", "01", "31". now repeat split.
  - reflexivity.
  - reflexivity.
  - lia.
Defined.

End CalendarAndText.

(** ** The merge operator: keys, identities and repeated patches *)

Section MergeAlgebra.

(** X11. A merge never drops a key: when the patch has no key
    [__proto__], the keys of the result are exactly the keys of the base
    together with the keys of the patch. *)
Theorem deepMerge_keys (base : JsonValue) (patch : JsonObject) :
  patch !! "__proto__" = None ->
  dom (deepMerge base (JObj patch)) = dom (ownProperties base) ∪ dom patch.
Proof.
  intros _. apply set_eq. intros k.
  rewrite elem_of_union, !elem_of_dom, deepMerge_lookup.
  destruct (patch !! k) as [v|] eqn:Hp.
  - split; [intros _; right|intros _]; eauto.
  - split; [now left|]. intros [H|[? ?]]; [assumption|discriminate].
Qed.

Lemma deepMerge_keys_witness :
  dom (deepMerge (JObj {[ "a" := JNum 1 ]}) (JObj {[ "b" := JNum 2 ]}))
  = dom (ownProperties (JObj {[ "a" := JNum 1 ]}))
    ∪ dom ({[ "b" := JNum 2 ]} : JsonObject).
Proof.
  apply (deepMerge_keys (JObj {[ "a" := JNum 1 ]}) {[ "b" := JNum 2 ]}).
  reflexivity.
Defined.

(** The nesting depth of objects; arrays are leaves for the merge. *)
Fixpoint depth (v : JsonValue) : nat :=
  match v with
  | JObj fields => S (map_fold (fun _ x acc => Nat.max (depth x) acc) 0%nat fields)
  | _ => 0%nat
  end.

Lemma depth_lookup (fields : JsonObject) (k : string) (v : JsonValue) :
  fields !! k = Some v -> (depth v < depth (JObj fields))%nat.
Proof.
  cbn [depth]. intros Hk. apply Nat.lt_succ_r. revert k v Hk.
  apply (map_fold_weak_ind
           (fun (r : nat) (m : JsonObject) =>
              forall k v, m !! k = Some v -> (depth v <= r)%nat)).
  - intros k v. now rewrite lookup_empty.
  - intros i x m r Hi IH k v. destruct (decide (i = k)) as [->|Hne].
    + rewrite lookup_insert_eq. intros [= ->]. apply Nat.le_max_l.
    + rewrite lookup_insert_ne by done. intros Hk.
      etransitivity; [exact (IH k v Hk)|apply Nat.le_max_r].
Qed.

Lemma deepMerge_self_depth (n : nat) (fields : JsonObject) :
  (depth (JObj fields) <= n)%nat ->
  deepMerge (JObj fields) (JObj fields) = fields.
Proof.
  revert fields. induction n as [|n IH]; intros fields Hn;
    [cbn [depth] in Hn; lia|].
  apply map_eq. intros k. rewrite deepMerge_lookup. cbn [ownProperties].
  destruct (fields !! k) as [v|] eqn:Hk; [|reflexivity].
  f_equal. unfold mergeValue.
  destruct v as [| | | | |sub]; try reflexivity. cbn [isPlainObject andb].
  f_equal. apply IH. pose proof (depth_lookup _ _ _ Hk). lia.
Qed.

Lemma mergeValue_leaf (prev : option JsonValue) (v : JsonValue) :
  isPlainObject (Some v) = false -> mergeValue prev v = v.
Proof.
  intros Hv. unfold mergeValue. destruct prev; [|reflexivity].
  now rewrite Hv, andb_false_r.
Qed.

Lemma deepMerge_twice_depth (n : nat) (base : JsonValue) (patch : JsonObject) :
  (depth (JObj patch) <= n)%nat ->
  deepMerge (JObj (deepMerge base (JObj patch))) (JObj patch)
  = deepMerge base (JObj patch).
Proof.
  revert base patch. induction n as [|n IH]; intros base patch Hn;
    [cbn [depth] in Hn; lia|].
  apply map_eq. intros k. rewrite deepMerge_lookup. cbn [ownProperties].
  rewrite deepMerge_lookup.
  destruct (patch !! k) as [v|] eqn:Hk; [|reflexivity].
  f_equal. pose proof (depth_lookup _ _ _ Hk) as Hd.
  destruct v as [| | | | |sub];
    try (now rewrite !mergeValue_leaf by reflexivity).
  unfold mergeValue.
  destruct (ownProperties base !! k) as [[| | | | |prev]|];
    cbn [isPlainObject andb]; f_equal;
    try (apply (deepMerge_self_depth n); lia).
  apply IH. lia.
Qed.

(** X12. Merging an object with itself changes nothing, and applying
    the same patch a second time changes nothing either: the merge is
    idempotent. *)
Theorem deepMerge_idempotent :
  (forall fields : JsonObject,
      deepMerge (JObj fields) (JObj fields) = fields)
  /\ (forall (base : JsonValue) (patch : JsonObject),
      deepMerge (JObj (deepMerge base (JObj patch))) (JObj patch)
      = deepMerge base (JObj patch)).
Proof.
  split.
  - intros fields. now apply (deepMerge_self_depth (depth (JObj fields))).
  - intros base patch. now apply (deepMerge_twice_depth (depth (JObj patch))).
Qed.

Lemma deepMerge_empty_base (patch : JsonObject) :
  deepMerge (JObj ∅) (JObj patch) = patch.
Proof.
  apply map_eq. intros k. rewrite deepMerge_lookup. cbn [ownProperties].
  rewrite lookup_empty. now destruct (patch !! k).
Qed.

(** No object inside the value, at any depth that a merge can reach, has
    the key [__proto__]: every key is then an ordinary data property. *)
Fixpoint ordinaryKeys (v : JsonValue) : bool :=
  match v with
  | JObj fields =>
      negb (bool_decide (is_Some (fields !! "__proto__")))
      && map_fold (fun _ x acc => ordinaryKeys x && acc) true fields
  | _ => true
  end.

Lemma ordinaryKeys_fields (fields : JsonObject) :
  ordinaryKeys (JObj fields) = true ->
  fields !! "__proto__" = None
  /\ forall k v, fields !! k = Some v -> ordinaryKeys v = true.
Proof.
  cbn [ordinaryKeys]. intros [Hp Hall]%andb_true_iff. split.
  - apply negb_true_iff, bool_decide_eq_false in Hp.
    destruct (fields !! "__proto__"); [exfalso; eauto|reflexivity].
  - clear Hp. revert Hall.
    apply (map_fold_weak_ind
             (fun (r : bool) (m : JsonObject) =>
                r = true -> forall k v, m !! k = Some v -> ordinaryKeys v = true)).
    + intros _ k v. now rewrite lookup_empty.
    + intros i x m r Hi IH [Hx Hr]%andb_true_iff k v.
      destruct (decide (i = k)) as [->|Hne].
      * rewrite lookup_insert_eq. now intros [= <-].
      * rewrite lookup_insert_ne by done. now apply IH.
Qed.

(** X30. The merge rule, key by key, for a patch whose objects have no key
    [__proto__] at any depth: where the base value and the patch value are
    both plain objects the result holds their merge, in every other case
    the patch value, and a key the patch does not have keeps the base
    value.  An array on either side is replaced wholesale.  Every value
    of such a patch is again free of [__proto__] keys, so the rule applies
    to the nested merges too. *)
Theorem deepMerge_ordinary_keys (base patch : JsonObject) :
  ordinaryKeys (JObj patch) = true ->
  (forall k : string,
      deepMerge (JObj base) (JObj patch) !! k =
      match patch !! k with
      | Some v =>
          Some (match base !! k with
                | Some b =>
                    if (isPlainObject (Some b) && isPlainObject (Some v))%bool
                    then JObj (deepMerge b v) else v
                | None => v
                end)
      | None => base !! k
      end)
  /\ (forall (k : string) (items : list JsonValue),
      patch !! k = Some (JArr items) ->
      deepMerge (JObj base) (JObj patch) !! k = Some (JArr items))
  /\ (forall (k : string) (items : list JsonValue) (v : JsonValue),
      base !! k = Some (JArr items) -> patch !! k = Some v ->
      deepMerge (JObj base) (JObj patch) !! k = Some v)
  /\ (forall (k : string) (v : JsonValue),
      patch !! k = Some v -> k <> "__proto__" /\ ordinaryKeys v = true).
Proof.
  intros Hord. destruct (ordinaryKeys_fields patch Hord) as [Hproto Hsub].
  split; [|split; [|split]].
  - intros k. apply deepMerge_lookup.
  - intros k items Hp. rewrite deepMerge_lookup, Hp. f_equal.
    unfold mergeValue. destruct (ownProperties (JObj base) !! k) as [b|];
      [|reflexivity].
    now rewrite andb_false_r.
  - intros k items v Hb Hp. rewrite deepMerge_lookup, Hp. cbn.
    now rewrite Hb.
  - intros k v Hk. split; [congruence|]. now apply (Hsub k).
Qed.

Lemma deepMerge_ordinary_keys_witness :
  deepMerge (objA (<["x" := JNum 1]> {["y" := JNum 2]}))
            (objA (<["y" := JNum 3]> {["z" := JNum 4]})) !! "a"
  = Some (JObj (<["x" := JNum 1]> (<["y" := JNum 3]> {["z" := JNum 4]}))).
Proof.
  pose (base := {[ "a" := JObj (<["x" := JNum 1]> {["y" := JNum 2]}) ]} : JsonObject).
  pose (patch := {[ "a" := JObj (<["y" := JNum 3]> {["z" := JNum 4]}) ]} : JsonObject).
  assert (Hord : ordinaryKeys (JObj patch) = true) by (vm_compute; reflexivity).
  destruct (deepMerge_ordinary_keys base patch Hord) as [H _].
  change (deepMerge (JObj base) (JObj patch) !! "a" = Some (JObj (<["x" := JNum 1]> (<["y" := JNum 3]> {["z" := JNum 4]})))).
  rewrite (H "a"). vm_compute. reflexivity.
Defined.

End MergeAlgebra.

(** ** The base configuration *)

Section BaseConfig.

Lemma deepMerge_keeps (base : JsonValue) (patch : JsonObject) (k : string) :
  is_Some (ownProperties base !! k) ->
  is_Some (deepMerge base (JObj patch) !! k).
Proof.
  intros Hk. rewrite deepMerge_lookup. destruct (patch !! k); eauto.
Qed.

(** X13. Whatever template is selected, the base configuration carries
    the page's symbol, dates and interval under [data_download]; every
    other key is the merge of the defaults with the template; and no key
    of the defaults is ever lost. *)
Theorem basePipelineConfig_page_values (selected : option Template.response)
  (symbol startDate endDate interval : string) :
  let base := basePipelineConfig selected symbol startDate endDate interval in
  let template :=
    match selected with Some t => Template.config t | None => ∅ end in
  (exists download : JsonObject,
      base !! "data_download" = Some (JObj download)
      /\ download !! "symbol" = Some (JStr symbol)
      /\ download !! "start_date" = Some (JStr startDate)
      /\ download !! "end_date" = Some (JStr endDate)
      /\ download !! "interval" = Some (JStr interval))
  /\ (forall k : string, k <> "data_download" ->
        base !! k
        = deepMerge (JObj DEFAULT_PIPELINE_CONFIG) (JObj template) !! k)
  /\ (forall k : string,
        is_Some (DEFAULT_PIPELINE_CONFIG !! k) -> is_Some (base !! k)).
Proof.
  cbv zeta. unfold basePipelineConfig.
  set (template := match selected with Some t => Template.config t | None => ∅ end).
  set (merged := deepMerge (JObj DEFAULT_PIPELINE_CONFIG) (JObj template)).
  set (download := <["interval" := JStr interval]> _).
  assert (Hfields :
    download !! "symbol" = Some (JStr symbol)
    /\ download !! "start_date" = Some (JStr startDate)
    /\ download !! "end_date" = Some (JStr endDate)
    /\ download !! "interval" = Some (JStr interval)).
  { subst download. repeat split;
      repeat (rewrite lookup_insert_ne by discriminate);
      now rewrite lookup_insert_eq. }
  split; [|split].
  - rewrite deepMerge_lookup, lookup_singleton_eq. cbn [ownProperties].
    unfold mergeValue.
    destruct (merged !! "data_download") as [[| | | | |prev]|];
      cbn [isPlainObject andb]; try (exists download; now split).
    exists (deepMerge (JObj prev) (JObj download)). split; [reflexivity|].
    destruct Hfields as (H1 & H2 & H3 & H4).
    rewrite !deepMerge_lookup, H1, H2, H3, H4.
    now rewrite !mergeValue_leaf by reflexivity.
  - intros k Hk. rewrite deepMerge_lookup.
    now rewrite lookup_singleton_ne by done.
  - intros k Hk. apply deepMerge_keeps. cbn [ownProperties].
    subst merged. now apply deepMerge_keeps.
Qed.

End BaseConfig.

(** ** The submit handler: what a submission can and cannot hold *)

Section SubmitMore.
Import Js JsFacts.

(** Every number among the fields is finite. *)
Definition finiteFields (fields : JsonObject) : Prop :=
  map_Forall (fun _ v => match v with
                         | JNum n => isFinite n = true
                         | _ => True
                         end) fields.

Definition finiteStep (flag : bool) (key : string) (before after : JsonObject)
  : Prop :=
  if flag
  then exists fields, finiteFields fields /\ after = <[key := JObj fields]> before
  else after = before.

(** The initial form with every stage switch off, a window text that is
    not a number, and a given template choice, default template and text in
    the raw override box. *)
Definition idleForm (choice : string) (defaultId : option string)
  (overrides : string) : FormState := {|
  symbol := symbol initialForm; startDate := startDate initialForm;
  endDate := endDate initialForm; interval := interval initialForm;
  templateChoice := choice;
  defaultTemplateId := defaultId;
  overridesText := overrides;
  useFeatureOverrides := false; alphaTypes := [];
  instrumentName := instrumentName initialForm;
  useLabelOverrides := false; labelWindow := "even";
  labelLookForward := labelLookForward initialForm;
  labelType := labelType initialForm;
  labelFilterType := labelFilterType initialForm;
  labelThreshold := labelThreshold initialForm;
  useTrainingOverrides := false; numBoostRound := numBoostRound initialForm;
  numThreads := numThreads initialForm;
  useInterpretationOverrides := false;
  shapMaxSamples := shapMaxSamples initialForm;
  shapMaxDisplay := shapMaxDisplay initialForm;
  useAnalysisOverrides := false;
  selectedFeaturesText := selectedFeaturesText initialForm;
  maxFeatures := maxFeatures initialForm; maxDepth := maxDepth initialForm;
  minSamplesSplit := minSamplesSplit initialForm;
  minSamplesLeaf := minSamplesLeaf initialForm;
  minRuleSamples := minRuleSamples initialForm;
  analysisLabelThreshold := analysisLabelThreshold initialForm;
  useBacktestOverrides := false;
  positionFraction := positionFraction initialForm;
  positionNotional := positionNotional initialForm;
  orderIntervalMinutes := orderIntervalMinutes initialForm;
  lookForwardBars := lookForwardBars initialForm;
  pnlMode := pnlMode initialForm; backtestType := backtestType initialForm;
  backtestFilterType := backtestFilterType initialForm;
  minRuleConfidence := minRuleConfidence initialForm;
  winProfit := winProfit initialForm; lossCost := lossCost initialForm;
  initialBalance := initialBalance initialForm;
  feeRate := feeRate initialForm; slippageBps := slippageBps initialForm;
  useWalkForwardOverrides := false;
  walkForwardEnabled := walkForwardEnabled initialForm;
  trainBars := trainBars initialForm; testBars := testBars initialForm;
  stepBars := stepBars initialForm; maxWindows := maxWindows initialForm
|}.

Ltac checks_passed H :=
  unfold throwIf in H;
  repeat match type of H with
         | (if ?c then _ else _) = inr _ =>
             destruct c eqn:?; [discriminate H|]
         end;
  injection H as <-.

(** A check on [x] passed, so [x] is finite. *)
Ltac finite_number :=
  match goal with
  | |- isFinite ?x = true =>
      destruct (isFinite x) eqn:Hfinite; [reflexivity|];
      unfold notIntegerAtLeast in *;
      match goal with
      | H : _ = false |- _ =>
          try rewrite Hfinite in H; cbn [negb orb andb] in H; discriminate H
      end
  end.

Ltac finite_optional :=
  match goal with
  | H : context [optionalNumber ?t]
    |- context [jsonOfOptional (optionalNumber ?t)] =>
      revert H; unfold optionalNotFinite, optionalNumber;
      destruct (Text.truthy t); cbn [jsonOfOptional andb]; cbv beta iota;
      [|intros _; exact I];
      destruct (isFinite (Number t)); cbn [negb orb];
      [intros _; reflexivity|discriminate]
  end.

Ltac finite_fields :=
  unfold finiteFields;
  repeat (apply map_Forall_insert_2;
          [cbv beta iota;
           first [finite_number | finite_optional | exact I
                 | match goal with |- context [if ?c then _ else _] =>
                     now destruct c end]|]);
  apply map_Forall_empty.

Ltac finite_step stage :=
  let H := fresh "H" in
  intros H; unfold stage in H; unfold finiteStep;
  match goal with |- context [if ?flag then _ else _] => destruct flag end;
  [ cbv zeta in H; checks_passed H; eexists; split; [|reflexivity];
    finite_fields
  | now injection H as <- ].

Lemma featureOverrides_finite (f : FormState) (fo fo' : JsonObject) :
  featureOverrides f fo = inr fo' ->
  finiteStep (useFeatureOverrides f) "feature_calculation" fo fo'.
Proof. finite_step featureOverrides. Qed.

Lemma labelOverrides_finite (f : FormState) (fo fo' : JsonObject) :
  labelOverrides f fo = inr fo' ->
  finiteStep (useLabelOverrides f) "label_calculation" fo fo'.
Proof. finite_step labelOverrides. Qed.

Lemma trainingOverrides_finite (f : FormState) (fo fo' : JsonObject) :
  trainingOverrides f fo = inr fo' ->
  finiteStep (useTrainingOverrides f) "model_training" fo fo'.
Proof. finite_step trainingOverrides. Qed.

Lemma interpretationOverrides_finite (f : FormState) (fo fo' : JsonObject) :
  interpretationOverrides f fo = inr fo' ->
  finiteStep (useInterpretationOverrides f) "model_interpretation" fo fo'.
Proof. finite_step interpretationOverrides. Qed.

Lemma analysisOverrides_finite (f : FormState) (fo fo' : JsonObject) :
  analysisOverrides f fo = inr fo' ->
  finiteStep (useAnalysisOverrides f) "model_analysis" fo fo'.
Proof. finite_step analysisOverrides. Qed.

Lemma backtestOverrides_finite (f : FormState) (fo fo' : JsonObject) :
  backtestOverrides f fo = inr fo' ->
  finiteStep (useBacktestOverrides f) "backtest_construction" fo fo'.
Proof. finite_step backtestOverrides. Qed.

Lemma walkForwardOverrides_finite (f : FormState) (fo fo' : JsonObject) :
  walkForwardOverrides f fo = inr fo' ->
  finiteStep (useWalkForwardOverrides f) "walk_forward_evaluation" fo fo'.
Proof. finite_step walkForwardOverrides. Qed.

Definition allFinite (fo : JsonObject) : Prop :=
  forall (k : string) (v : JsonValue),
    fo !! k = Some v -> exists fields, v = JObj fields /\ finiteFields fields.

Lemma allFinite_step (flag : bool) (key : string) (fo fo' : JsonObject) :
  allFinite fo -> finiteStep flag key fo fo' -> allFinite fo'.
Proof.
  intros Hfo Hstep. unfold finiteStep in Hstep. destruct flag; [|now subst].
  destruct Hstep as (fields & Hfields & ->). intros k v.
  destruct (decide (key = k)) as [->|Hne].
  - rewrite lookup_insert_eq. intros [= <-]. eauto.
  - rewrite lookup_insert_ne by done. apply Hfo.
Qed.

(** X14. A submission never carries a number that is not finite: when the
    checks of the enabled stages pass, every number the form writes into an
    override is finite, so no NaN or infinity reaches the request. *)
Theorem buildFormOverrides_finite (f : FormState) (form_overrides : JsonObject)
  (stage field : string) (fields : JsonObject) (n : number) :
  buildFormOverrides f = inr form_overrides ->
  form_overrides !! stage = Some (JObj fields) ->
  fields !! field = Some (JNum n) ->
  isFinite n = true.
Proof.
  unfold buildFormOverrides, andThen. intros H Hstage Hfield.
  destruct (featureOverrides f ∅) as [?|fo1] eqn:E1; [discriminate|].
  destruct (labelOverrides f fo1) as [?|fo2] eqn:E2; [discriminate|].
  destruct (trainingOverrides f fo2) as [?|fo3] eqn:E3; [discriminate|].
  destruct (interpretationOverrides f fo3) as [?|fo4] eqn:E4; [discriminate|].
  destruct (analysisOverrides f fo4) as [?|fo5] eqn:E5; [discriminate|].
  destruct (backtestOverrides f fo5) as [?|fo6] eqn:E6; [discriminate|].
  apply featureOverrides_finite in E1. apply labelOverrides_finite in E2.
  apply trainingOverrides_finite in E3.
  apply interpretationOverrides_finite in E4.
  apply analysisOverrides_finite in E5. apply backtestOverrides_finite in E6.
  apply walkForwardOverrides_finite in H.
  assert (D0 : allFinite ∅) by (intros k v; now rewrite lookup_empty).
  pose proof (allFinite_step _ _ _ _ D0 E1) as D1.
  pose proof (allFinite_step _ _ _ _ D1 E2) as D2.
  pose proof (allFinite_step _ _ _ _ D2 E3) as D3.
  pose proof (allFinite_step _ _ _ _ D3 E4) as D4.
  pose proof (allFinite_step _ _ _ _ D4 E5) as D5.
  pose proof (allFinite_step _ _ _ _ D5 E6) as D6.
  pose proof (allFinite_step _ _ _ _ D6 H) as D7.
  destruct (D7 stage _ Hstage) as (fields' & [= <-] & Hfin).
  exact (Hfin field _ Hfield).
Qed.

Lemma buildFormOverrides_finite_witness : isFinite (Number "29") = true.
Proof.
  apply (buildFormOverrides_finite (labelForm "29" "")
           {[ "label_calculation" :=
                JObj (<["window" := JNum 29]>
                     (<["look_forward" := JNum 10]>
                     (<["label_type" := JStr "up"]>
                     (<["filter_type" := JStr "rsi"]>
                     {[ "threshold" := JNull ]})))) ]}
           "label_calculation" "window"
           (<["window" := JNum 29]>
           (<["look_forward" := JNum 10]>
           (<["label_type" := JStr "up"]>
           (<["filter_type" := JStr "rsi"]>
           {[ "threshold" := JNull ]}))))
           (Number "29")); vm_compute; reflexivity.
Defined.

(** No stage ever reports a syntax error: its errors are messages. *)
Ltac no_syntax_error stage :=
  unfold stage, throwIf; cbv zeta;
  repeat match goal with
         | |- context [if ?c then _ else _] => destruct c
         end; discriminate.

Lemma buildFormOverrides_no_syntax_error (f : FormState) :
  buildFormOverrides f <> inl SyntaxError.
Proof.
  assert (S1 : forall fo, featureOverrides f fo <> inl SyntaxError)
    by (intros fo; no_syntax_error featureOverrides).
  assert (S2 : forall fo, labelOverrides f fo <> inl SyntaxError)
    by (intros fo; no_syntax_error labelOverrides).
  assert (S3 : forall fo, trainingOverrides f fo <> inl SyntaxError)
    by (intros fo; no_syntax_error trainingOverrides).
  assert (S4 : forall fo, interpretationOverrides f fo <> inl SyntaxError)
    by (intros fo; no_syntax_error interpretationOverrides).
  assert (S5 : forall fo, analysisOverrides f fo <> inl SyntaxError)
    by (intros fo; no_syntax_error analysisOverrides).
  assert (S6 : forall fo, backtestOverrides f fo <> inl SyntaxError)
    by (intros fo; no_syntax_error backtestOverrides).
  assert (S7 : forall fo, walkForwardOverrides f fo <> inl SyntaxError)
    by (intros fo; no_syntax_error walkForwardOverrides).
  unfold buildFormOverrides, andThen.
  destruct (featureOverrides f ∅) as [e|fo1] eqn:E1;
    [rewrite <- E1; apply S1|].
  destruct (labelOverrides f fo1) as [e|fo2] eqn:E2;
    [rewrite <- E2; apply S2|].
  destruct (trainingOverrides f fo2) as [e|fo3] eqn:E3;
    [rewrite <- E3; apply S3|].
  destruct (interpretationOverrides f fo3) as [e|fo4] eqn:E4;
    [rewrite <- E4; apply S4|].
  destruct (analysisOverrides f fo4) as [e|fo5] eqn:E5;
    [rewrite <- E5; apply S5|].
  destruct (backtestOverrides f fo5) as [e|fo6] eqn:E6;
    [rewrite <- E6; apply S6|].
  apply S7.
Qed.

(** X15. The override box is read first: [onRun] stops with a syntax
    error exactly when the box is not blank and [JSON.parse] rejects its
    text, whatever the form holds; a validation failure is always a
    message, and is reported only when the box was blank or parsed. *)
Theorem onRun_syntax_error_first (JSON_parse : string -> option JsonValue)
  (f : FormState) :
  (onRun JSON_parse f = inl SyntaxError
   <-> Text.truthy (Text.trim (overridesText f)) = true
       /\ JSON_parse (overridesText f) = None)
  /\ (forall message : string,
        onRun JSON_parse f = inl (Invalid message) ->
        buildFormOverrides f = inl (Invalid message)
        /\ exists raw, parseRawOverrides JSON_parse f = inr raw).
Proof.
  unfold onRun, parseRawOverrides, andThen.
  pose proof (buildFormOverrides_no_syntax_error f) as Hno.
  destruct (Text.truthy (Text.trim (overridesText f)));
    [destruct (JSON_parse (overridesText f)) as [raw|]|];
    destruct (buildFormOverrides f) as [[|m]|fo]; try congruence;
    (split; [split; [try discriminate; try (intros _; now split)
                    |intros [? ?]; try discriminate; try reflexivity]
            |intros message; try discriminate]);
    try (intros [= ->]; split; [reflexivity|eauto]).
Qed.

(** X16. With every stage switch off nothing of the form is validated:
    whatever texts the fields hold, [onRun] submits as soon as the override
    box is blank or parses, and sends the own properties of the raw
    overrides unchanged. *)
Theorem onRun_stages_off (JSON_parse : string -> option JsonValue)
  (f : FormState) (raw : JsonValue) :
  useFeatureOverrides f = false -> useLabelOverrides f = false ->
  useTrainingOverrides f = false -> useInterpretationOverrides f = false ->
  useAnalysisOverrides f = false -> useBacktestOverrides f = false ->
  useWalkForwardOverrides f = false ->
  parseRawOverrides JSON_parse f = inr raw ->
  exists req : PipelineRunRequest,
    onRun JSON_parse f = inr req
    /\ config_overrides req = ownProperties raw.
Proof.
  intros H1 H2 H3 H4 H5 H6 H7 Hraw.
  assert (Hfo : buildFormOverrides f = inr ∅).
  { unfold buildFormOverrides, featureOverrides, labelOverrides,
      trainingOverrides, interpretationOverrides, analysisOverrides,
      backtestOverrides, walkForwardOverrides.
    now rewrite H1, H2, H3, H4, H5, H6, H7. }
  unfold onRun. rewrite Hraw, Hfo. cbn [andThen].
  eexists. split; [reflexivity|]. cbn [config_overrides].
  apply deepMerge_empty_patch.
Qed.

Lemma onRun_stages_off_witness :
  exists req : PipelineRunRequest,
    onRun sampleParse (idleForm TEMPLATE_AUTO None sampleText) = inr req
    /\ config_overrides req = ownProperties sampleRaw.
Proof.
  apply (onRun_stages_off sampleParse (idleForm TEMPLATE_AUTO None sampleText)
           sampleRaw); reflexivity.
Defined.

(** X17. With a blank override box [JSON.parse] is not consulted and the
    payload is exactly what the form built: the overrides of the enabled
    stages, nothing added. *)
Theorem onRun_blank_box (JSON_parse : string -> option JsonValue)
  (f : FormState) (req : PipelineRunRequest) :
  Text.truthy (Text.trim (overridesText f)) = false ->
  onRun JSON_parse f = inr req ->
  buildFormOverrides f = inr (config_overrides req)
  /\ forall other : string -> option JsonValue, onRun other f = inr req.
Proof.
  intros Hblank. unfold onRun, parseRawOverrides. rewrite Hblank.
  cbn [andThen]. destruct (buildFormOverrides f) as [e|fo]; [discriminate|].
  cbn [andThen]. rewrite deepMerge_empty_base. intros [= <-].
  split; reflexivity.
Qed.

Lemma onRun_blank_box_witness :
  exists req : PipelineRunRequest,
    onRun (fun _ => None) (labelForm "29" "") = inr req
    /\ buildFormOverrides (labelForm "29" "") = inr (config_overrides req)
    /\ forall other : string -> option JsonValue,
        onRun other (labelForm "29" "") = inr req.
Proof.
  destruct (inr_exists (onRun (fun _ => None) (labelForm "29" ""))
              ltac:(vm_compute; reflexivity)) as [req E].
  exists req. split; [exact E|].
  exact (onRun_blank_box (fun _ => None) (labelForm "29" "") req
           ltac:(reflexivity) E).
Defined.

Lemma head_filter_Some {A : Type} (P : A -> bool) (l : list A) (x : A) :
  head (List.filter P l) = Some x -> P x = true.
Proof.
  induction l as [|y l IH]; [discriminate|]. cbn [List.filter].
  destruct (P y) eqn:Hy; [|exact IH]. now intros [= <-].
Qed.

(** X18. The request names the template the page previewed: when the base
    configuration was built from a selected template, by an explicit choice
    or as the default, [onRun] sends the id of that same template. *)
Theorem onRun_sends_selected_template (JSON_parse : string -> option JsonValue)
  (templates : list Template.response) (f : FormState) (req : PipelineRunRequest)
  (t : Template.response) :
  defaultTemplateId f = Template.template_id <$> defaultTemplate templates ->
  onRun JSON_parse f = inr req ->
  selectedTemplate (templateChoice f) templates = Some t ->
  Text.truthy (Template.template_id t) = true ->
  template_id req = Some (Template.template_id t).
Proof.
  intros Hdefault Hrun Hselected Hid. unfold onRun, andThen in Hrun.
  destruct (parseRawOverrides JSON_parse f); [discriminate|].
  destruct (buildFormOverrides f); [discriminate|].
  injection Hrun as <-. cbn [template_id]. unfold selectedTemplate in Hselected.
  destruct (String.eqb (templateChoice f) TEMPLATE_NONE); [discriminate|].
  destruct (String.eqb (templateChoice f) TEMPLATE_AUTO).
  - rewrite Hdefault, Hselected. cbn. now rewrite Hid.
  - apply head_filter_Some in Hselected. apply String.eqb_eq in Hselected.
    now rewrite Hselected.
Qed.

(** Two templates, the second one the default. *)
Definition sampleTemplates : list Template.response :=
  [ {| Template.template_id := "tpl-1"; Template.name := "fast";
       Template.config := {[ "model_training" :=
                               JObj {[ "num_boost_round" := JNum 100 ]} ]};
       Template.is_default := false;
       Template.created_at := "2025-01-01T00:00:00Z";
       Template.updated_at := "2025-01-01T00:00:00Z" |};
    {| Template.template_id := "tpl-2"; Template.name := "slow";
       Template.config := ∅;
       Template.is_default := true;
       Template.created_at := "2025-01-02T00:00:00Z";
       Template.updated_at := "2025-01-02T00:00:00Z" |} ].

Lemma onRun_sends_selected_template_witness :
  exists req : PipelineRunRequest,
    onRun (fun _ => None) (idleForm TEMPLATE_AUTO (Some "tpl-2") "") = inr req
    /\ template_id req = Some "tpl-2".
Proof.
  destruct (inr_exists (onRun (fun _ => None) (idleForm TEMPLATE_AUTO (Some "tpl-2") ""))
              ltac:(vm_compute; reflexivity)) as [req E].
  exists req. split; [exact E|].
  refine (onRun_sends_selected_template (fun _ => None) sampleTemplates
              (idleForm TEMPLATE_AUTO (Some "tpl-2") "") req
              {| Template.template_id := "tpl-2"; Template.name := "slow";
                 Template.config := ∅; Template.is_default := true;
                 Template.created_at := "2025-01-02T00:00:00Z";
                 Template.updated_at := "2025-01-02T00:00:00Z" |}
              _ E _ _); reflexivity.
Defined.

End SubmitMore.

(** ** The derived values of the home page *)

Section HomeMemos.
Import Text TextFacts Js JsFacts NumberFacts.

Lemma parseDateYmdUtc_ofZ (dateStr : string) (v : number) :
  parseDateYmdUtc dateStr = Some v -> exists ms : Z, v = ofZ ms.
Proof.
  destruct (matchYmd (trim dateStr)) as [[[g1 g2] g3]|] eqn:Hm.
  - rewrite (parseDateYmdUtc_match _ _ _ _ Hm). cbv zeta.
    destruct (_ || _)%bool; [discriminate|].
    destruct (_ || _)%bool; [discriminate|]. intros [= <-]. eauto.
  - unfold parseDateYmdUtc. rewrite Hm. discriminate.
Qed.

(** An estimate is a whole number of bars, never negative. *)
Lemma estimateTotalBars_ofZ (startDate endDate interval : string) (x : number) :
  estimateTotalBars startDate endDate interval = Some x ->
  exists bars : Z, x = ofZ bars /\ 0 <= bars.
Proof.
  unfold estimateTotalBars.
  destruct (parseDateYmdUtc startDate) as [s|] eqn:Hs; [|discriminate].
  destruct (parseDateYmdUtc endDate) as [e|] eqn:He; [|discriminate].
  destruct (parseIntervalToMinutes interval) as [mpb|] eqn:Hi; [|discriminate].
  destruct (parseDateYmdUtc_ofZ _ _ Hs) as [s' ->].
  destruct (parseDateYmdUtc_ofZ _ _ He) as [e' ->].
  destruct (parseIntervalToMinutes_pos _ _ Hi) as (m & -> & Hm).
  js_lits. js_int. rewrite floor_div_ofZ by lia. js_int.
  rewrite floor_div_ofZ by lia. js_int. intros [= <-].
  eexists. split; [reflexivity|lia].
Qed.

(** X19. The page recommends a plan exactly when the estimate is at
    least one bar, and every plan it recommends comes with a definite
    expected window count between 0 and 6. *)
Theorem recommendedWalkForward_on_page (startDate endDate interval : string) :
  let estimate := estimateTotalBars startDate endDate interval in
  (recommendedWalkForward estimate = None
   <-> estimate = None \/ estimate = Some (ofZ 0))
  /\ (forall plan : WindowPlan,
        recommendedWalkForward estimate = Some plan ->
        exists n k : Z,
          estimate = Some (ofZ n) /\ 1 <= n
          /\ plan = recommendWalkForward (ofZ n)
          /\ expected_windows plan = Some (ofZ k) /\ 0 <= k <= 6).
Proof.
  cbv zeta.
  destruct (estimateTotalBars startDate endDate interval) as [x|] eqn:He;
    [|split; [split; [now left|reflexivity]|discriminate]].
  destruct (estimateTotalBars_ofZ _ _ _ _ He) as (n & -> & Hn).
  unfold recommendedWalkForward. js_lits. js_int.
  destruct (Z.leb_spec n 0) as [H0|H0].
  - replace n with 0 by lia. split; [|discriminate].
    split; [now right|reflexivity].
  - split.
    + split; [discriminate|]. intros [H|H]; [discriminate|].
      injection H as H. lia.
    + intros plan [= <-]. exists n. eexists.
      split; [reflexivity|]. split; [lia|]. split; [reflexivity|].
      split; [apply expected_windows_ofZ; lia|].
      destruct (Z.ltb_spec n 1000); [lia|].
      destruct (Z.ltb_spec n 2000); [|lia]. Z.div_mod_to_equations. lia.
Qed.

Lemma floor_less_one (x : number) :
  isFinite x = true ->
  (max 0 (floor x) <=? 0)%js = (x <? 1)%js.
Proof.
  destruct x as [| | |q]; try discriminate. intros _.
  js_lits. rewrite ltb_Fin_ofZ. js_int. lia.
Qed.

(** X20. The expected window count shown beside the walk-forward form is
    missing exactly when there is no estimate or one of the three texts is
    not a finite number of at least 1; otherwise it is a whole number and
    never negative. *)
Theorem expectedWindows_on_page
  (startDate endDate interval trainBars testBars stepBars : string) :
  let estimate := estimateTotalBars startDate endDate interval in
  let usable := fun text : string =>
    (isFinite (Number text) && negb (Number text <? 1)%js)%bool in
  (expectedWindows estimate trainBars testBars stepBars = None
   <-> estimate = None
       \/ (usable trainBars && usable testBars && usable stepBars)%bool = false)
  /\ (forall x : number,
        expectedWindows estimate trainBars testBars stepBars = Some x ->
        exists k : Z, x = ofZ k /\ 0 <= k).
Proof.
  cbv zeta.
  destruct (estimateTotalBars startDate endDate interval) as [x|] eqn:He;
    [|split; [split; [now left|reflexivity]|discriminate]].
  destruct (estimateTotalBars_ofZ _ _ _ _ He) as (n & -> & Hn).
  unfold expectedWindows. cbv zeta.
  destruct (Number trainBars) as [| | |tr] eqn:Etr;
    try (split; [split; [now right|reflexivity]|discriminate]).
  destruct (Number testBars) as [| | |te] eqn:Ete;
    try (split; [split; [intros _; right; cbn; now rewrite andb_false_r
                        |reflexivity]|discriminate]).
  destruct (Number stepBars) as [| | |st] eqn:Est;
    try (split; [split; [intros _; right; cbn; now rewrite andb_false_r
                        |reflexivity]|discriminate]).
  cbn [isFinite negb orb andb].
  change (ofZ n) with (Fin (inject_Z n)).
  rewrite calcExpectedWindows_Fin, Qfloor_Z. js_lits.
  rewrite !ltb_Fin_ofZ. unfold windowCount. rewrite (Z.max_r 0 n) by lia.
  destruct (Z.ltb_spec (Qfloor tr) 1), (Z.ltb_spec (Qfloor te) 1),
    (Z.ltb_spec (Qfloor st) 1);
    repeat match goal with
           | |- context [Z.max 0 ?a <=? 0] =>
               destruct (Z.leb_spec (Z.max 0 a) 0); try lia
           end; cbn [negb orb andb];
    try (split; [split; [now right|reflexivity]|discriminate]).
  split.
  - split; [destruct (_ <? _); discriminate|].
    intros [Hno|Hno]; discriminate.
  - intros x. destruct (Z.ltb_spec n (Z.max 0 (Qfloor tr) + Z.max 0 (Qfloor te)));
      intros [= <-]; eexists; (split; [reflexivity|]); [lia|].
    pose proof (Z.div_pos (n - Z.max 0 (Qfloor tr) - Z.max 0 (Qfloor te))
                  (Z.max 0 (Qfloor st)) ltac:(lia) ltac:(lia)).
    lia.
Qed.

End HomeMemos.

(** ** The backtest assessment: warnings, next steps and the score *)

Section AssessorMore.
Import Js JsFacts.

(** Decide the comparisons of the goal, keeping the facts about the
    rationals. *)
Ltac decide_comparisons :=
  unfold gtb, geb;
  repeat match goal with
         | |- context [ltb (Fin ?a) (Fin ?b)] =>
             let E := fresh "E" in
             destruct (ltb (Fin a) (Fin b)) eqn:E;
             [apply ltb_Fin in E | apply ltb_Fin_false in E]
         | |- context [leb (Fin ?a) (Fin ?b)] =>
             let E := fresh "E" in
             destruct (leb (Fin a) (Fin b)) eqn:E;
             [apply leb_Fin in E | apply leb_Fin_false in E]
         end.

Ltac plain_thresholds :=
  change (norm (1 # 10)) with (Fin (1 # 10));
  change (norm (2 # 10)) with (Fin (1 # 5));
  change (norm (3 # 10)) with (Fin (3 # 10));
  change (norm (2 # 100)) with (Fin (1 # 50));
  change (norm (3 # 100)) with (Fin (3 # 100)).

Ltac by_cases x :=
  destruct x as [[| | |?]|]; try reflexivity; unfold ltOpt, gtOpt, pushIf;
  plain_thresholds; decide_comparisons; first [reflexivity | exfalso; lra].

Lemma drawdown_warning_count (d : option number) (a b c : string) :
  length (match d with
          | Some d => if (d >? norm (3 # 10))%js then [a]
                      else pushIf (d >? norm (2 # 10))%js b
          | None => []
          end)
  = length (pushIf (gtOpt d (norm (2 # 10))) c).
Proof. by_cases d. Qed.

Lemma trades_warning_count (t : option number) (a b c : string) :
  length (match t with
          | Some t => if (t <? 10)%js then [a] else pushIf (t <? 30)%js b
          | None => []
          end)
  = length (pushIf (ltOpt t 30) c).
Proof. by_cases t. Qed.

Lemma fee_warning_count (r : option number) (a b c : string) :
  length (match r with
          | Some r => if (r >? norm (1 # 10))%js then [a]
                      else pushIf (r >? norm (3 # 100))%js b
          | None => []
          end)
  = length (pushIf (gtOpt r (norm (3 # 100))) c).
Proof. by_cases r. Qed.

(** X21. Warnings and next steps go together: for every input the
    summary lists exactly as many next steps as warnings, one for the
    drawdown, one for the trade count, one for the fees and one for a
    walk-forward evaluation that produced nothing. *)
Theorem backtestSummary_next_per_warning
  (backtestStats walkForwardOverall : option JsonValue)
  (walkForwardReason walkForwardStatus : option string) (a : Assessment) :
  backtestSummary backtestStats walkForwardOverall walkForwardReason
    walkForwardStatus = Some a ->
  length (next a) = length (warnings a).
Proof.
  unfold backtestSummary. destruct backtestStats as [stats|]; [|discriminate].
  destruct (negb (jsonTruthy stats)); [discriminate|]. cbv zeta.
  set (d := toNumber (getField stats "max_drawdown")).
  set (t := toNumber (getField stats "total_trades")).
  set (r := feeRatioOf _ _).
  set (ws := (_ ++ _ ++ _)%list).
  assert (Hws : length ws
                = (length (pushIf (ltOpt t 30) "") + length (pushIf (gtOpt d (norm (2 # 10))) "")
                   + length (pushIf (gtOpt r (norm (3 # 100))) ""))%nat).
  { subst ws. rewrite !length_app.
    rewrite (drawdown_warning_count d _ _ ""), (trades_warning_count t _ _ ""),
      (fee_warning_count r _ _ ""). lia. }
  assert (Hpush : forall c m, length (pushIf c m) = length (pushIf c ""))
    by now intros [] m.
  destruct (walkForwardFailed walkForwardStatus).
  - intros [= <-]. cbn [next warnings]. rewrite !length_app, Hws.
    rewrite (Hpush (ltOpt t 30)), (Hpush (gtOpt d _)), (Hpush (gtOpt r _)).
    cbn [pushIf length]. lia.
  - set (pair := match walkForwardOverall with Some _ => _ | None => _ end).
    assert (Hpair : pair.1 = ws).
    { subst pair. destruct walkForwardOverall as [overall|]; [|reflexivity].
      destruct (jsonTruthy overall); [|reflexivity].
      destruct (toNumber (getField overall "windows")); [|reflexivity].
      destruct (toNumber (getField overall "profitable_windows")); [|reflexivity].
      now destruct (_ && _)%bool. }
    destruct pair as [ws' ts]. cbn [fst] in Hpair. subst ws'.
    intros [= <-]. cbn [next warnings]. rewrite !length_app, Hws.
    rewrite (Hpush (ltOpt t 30)), (Hpush (gtOpt d _)), (Hpush (gtOpt r _)).
    cbn [pushIf length]. lia.
Qed.

Lemma backtestSummary_next_per_warning_witness :
  exists a : Assessment,
    backtestSummary (Some weakStats) None None (Some "skipped") = Some a
    /\ length (next a) = length (warnings a).
Proof.
  destruct (Some_exists (backtestSummary (Some weakStats) None None (Some "skipped"))
              ltac:(vm_compute; reflexivity)) as [a E].
  exists a. split; [exact E|].
  exact (backtestSummary_next_per_warning _ _ _ _ a E).
Defined.

Ltac score_case :=
  intros; unfold score; cbv zeta; plain_thresholds; decide_comparisons;
  first [lia | exfalso; lra].

Lemma profit_monotone (q q' : Q) :
  (q <= q')%Q ->
  score (Some (Fin q)) None None None <= score (Some (Fin q')) None None None.
Proof. score_case. Qed.

Lemma drawdown_antitone (q q' : Q) :
  (q <= q')%Q ->
  score None (Some (Fin q')) None None <= score None (Some (Fin q)) None None.
Proof. score_case. Qed.

Lemma trades_monotone (q q' : Q) :
  (q <= q')%Q ->
  score None None (Some (Fin q)) None <= score None None (Some (Fin q')) None.
Proof. score_case. Qed.

Lemma fee_antitone (q q' : Q) :
  (q <= q')%Q ->
  score None None None (Some (Fin q')) <= score None None None (Some (Fin q)).
Proof. score_case. Qed.

Lemma score_range (p d t r : option number) : -8 <= score p d t r <= 7.
Proof.
  unfold score. destruct p, d, t, r; cbv zeta;
    repeat match goal with |- context [if ?c then _ else _] => destruct c end;
    lia.
Qed.

(** X22. The score never punishes a better result: a higher profit rate,
    a smaller drawdown, more trades or a smaller fee ratio never lower it,
    and it always lies between -8 and 7. *)
Theorem score_monotone (p p' d d' t t' r r' : Q) :
  (p <= p')%Q -> (d' <= d)%Q -> (t <= t')%Q -> (r' <= r)%Q ->
  score (Some (Fin p)) (Some (Fin d)) (Some (Fin t)) (Some (Fin r))
  <= score (Some (Fin p')) (Some (Fin d')) (Some (Fin t')) (Some (Fin r'))
  /\ forall p d t r : option number, -8 <= score p d t r <= 7.
Proof.
  intros Hp Hd Ht Hr. split; [|exact score_range].
  rewrite (score_additive (Some (Fin p))), (score_additive (Some (Fin p'))).
  pose proof (profit_monotone _ _ Hp). pose proof (drawdown_antitone _ _ Hd).
  pose proof (trades_monotone _ _ Ht). pose proof (fee_antitone _ _ Hr). lia.
Qed.

Lemma score_monotone_witness :
  score (Some (Fin (-1 # 10))) (Some (Fin (35 # 100))) (Some (Fin 5))
        (Some (Fin (5 # 100)))
  <= score (Some (Fin (1 # 10))) (Some (Fin (5 # 100))) (Some (Fin 150))
           (Some (Fin (1 # 100)))
  /\ forall p d t r : option number, -8 <= score p d t r <= 7.
Proof.
  apply (score_monotone (-1 # 10) (1 # 10) (35 # 100) (5 # 100) 5 150
           (5 # 100) (1 # 100)); vm_compute; discriminate.
Defined.

End AssessorMore.

(** ** The run-detail page: the feature ranking and the time stamps *)

Section RunDetailHelpers.
Import Text TextFacts Js JsFacts.

Section Ranking.

(** Entries with a finite importance, and their order: [a] is not below
    [b]. *)
Definition finiteEntry (a : string * number) : Prop := isFinite a.2 = true.
Definition notBelow (a b : string * number) : Prop := (b.2 <=? a.2)%js = true.

Definition byImportance (a b : string * number) : number := (b.2 - a.2)%js.

Lemma byImportance_gt (a b : string * number) :
  finiteEntry a -> finiteEntry b ->
  ((byImportance a b >? 0)%js = true -> notBelow b a /\ ~ notBelow a b)
  /\ ((byImportance a b >? 0)%js = false -> notBelow a b).
Proof.
  destruct a as [ka [| | |x]], b as [kb [| | |y]]; try discriminate.
  intros _ _. unfold byImportance, notBelow, gtb, sub, neg, add, norm.
  cbn [snd]. change 0%js with (Fin 0).
  assert (Hd : (Qred (y + Qred (- x)) == y - x)%Q)
    by (rewrite !Qred_correct; reflexivity).
  split.
  - intros H%ltb_Fin. rewrite Hd in H. split.
    + apply leb_Fin. lra.
    + intros H'%leb_Fin. lra.
  - intros H%ltb_Fin_false. rewrite Hd in H. apply leb_Fin. lra.
Qed.

Lemma notBelow_trans (a b c : string * number) :
  finiteEntry a -> finiteEntry b -> finiteEntry c ->
  notBelow a b -> notBelow b c -> notBelow a c.
Proof.
  destruct a as [ka [| | |x]], b as [kb [| | |y]], c as [kc [| | |z]];
    try discriminate.
  unfold notBelow. cbn [snd]. intros _ _ _ H1%leb_Fin H2%leb_Fin.
  apply leb_Fin. lra.
Qed.

Lemma insertSorted_perm (x : string * number) (l : list (string * number)) :
  insertSorted byImportance x l ≡ₚ x :: l.
Proof.
  induction l as [|y l IH]; [reflexivity|]. cbn [insertSorted].
  destruct (_ >? _)%js; [reflexivity|]. rewrite IH. apply Permutation_swap.
Qed.

Lemma sortWith_perm_from (l acc : list (string * number)) :
  foldl (fun sorted x => insertSorted byImportance x sorted) acc l
  ≡ₚ (acc ++ l)%list.
Proof.
  revert acc. induction l as [|x l IH]; intros acc.
  - now rewrite app_nil_r.
  - cbn [foldl]. rewrite IH, insertSorted_perm.
    apply Permutation_middle.
Qed.

Lemma sortWith_perm (l : list (string * number)) :
  sortWith byImportance l ≡ₚ l.
Proof. apply (sortWith_perm_from l []). Qed.

Lemma insertSorted_sorted (x : string * number) (l : list (string * number)) :
  finiteEntry x -> Forall finiteEntry l ->
  StronglySorted notBelow l ->
  StronglySorted notBelow (insertSorted byImportance x l).
Proof.
  intros Hx Hfin Hs. induction Hs as [|y l Hs IH Hall]; cbn [insertSorted].
  - repeat constructor.
  - apply Forall_cons in Hfin as [Hy Hfin].
    destruct (byImportance_gt y x Hy Hx) as [Hgt Hle].
    destruct (_ >? _)%js.
    + destruct (Hgt eq_refl) as [Hxy _].
      constructor; [now constructor|]. constructor; [assumption|].
      rewrite Forall_forall in Hall, Hfin |- *. intros z Hz.
      apply (notBelow_trans x y z); auto.
    + constructor; [now apply IH|].
      rewrite (insertSorted_perm x l). constructor; [now apply Hle|assumption].
Qed.

Lemma sortWith_sorted_from (l acc : list (string * number)) :
  Forall finiteEntry l -> Forall finiteEntry acc ->
  StronglySorted notBelow acc ->
  StronglySorted notBelow
    (foldl (fun sorted x => insertSorted byImportance x sorted) acc l).
Proof.
  revert acc. induction l as [|x l IH]; intros acc Hl Hacc Hs; [assumption|].
  apply Forall_cons in Hl as [Hx Hl]. cbn [foldl]. apply IH; [assumption| |].
  - rewrite (insertSorted_perm x acc). now constructor.
  - now apply insertSorted_sorted.
Qed.

Variable Object_entries : JsonValue -> list (string * JsonValue).

(** The entries that have a number, in the order of the host. *)
Definition rankedEntries (top : JsonValue) : list (string * number) :=
  omap (fun kv => pair kv.1 <$> toNumber (Some kv.2)) (Object_entries top).

Lemma toNumber_finite (v : option JsonValue) (n : number) :
  toNumber v = Some n -> isFinite n = true.
Proof.
  destruct v as [[| |m|s| |]|]; try discriminate; cbn [toNumber].
  - destruct (isFinite m) eqn:E; [|discriminate]. now intros [= <-].
  - destruct (isFinite (Number s)) eqn:E; [|discriminate]. now intros [= <-].
Qed.

Lemma rankedEntries_finite (top : JsonValue) :
  Forall finiteEntry (rankedEntries top).
Proof.
  apply Forall_forall. intros [k n] Hin.
  apply list_elem_of_omap in Hin as ([k' v] & _ & Hkv). cbn [fst snd] in Hkv.
  destruct (toNumber (Some v)) as [m|] eqn:E; [|discriminate].
  injection Hkv as <- <-. exact (toNumber_finite _ _ E).
Qed.

(** X23. The feature ranking shows the top ten: at most ten entries, all
    with a finite importance, in descending order, and every entry with a
    number that is left out is not above any entry shown. *)
Theorem shapTopFeatures_top_ten (meta top : JsonValue) :
  isObjectType meta = true ->
  getField meta "top20_importance" = Some top ->
  isObjectType top = true ->
  let shown := shapTopFeatures Object_entries (Some meta) in
  (length shown <= 10)%nat
  /\ Forall finiteEntry shown
  /\ StronglySorted notBelow shown
  /\ exists rest : list (string * number),
      (shown ++ rest)%list ≡ₚ rankedEntries top
      /\ forall a b, a ∈ shown -> b ∈ rest -> notBelow a b.
Proof.
  intros Hmeta Htop Hobj. cbv zeta. unfold shapTopFeatures.
  assert (Hm : jsonTruthy meta = true) by (destruct meta; now try discriminate).
  assert (Ht : jsonTruthy top = true) by (destruct top; now try discriminate).
  rewrite Hm, Hmeta. cbn [andb]. rewrite Htop, Ht, Hobj. cbn [negb orb].
  fold byImportance. fold (rankedEntries top).
  set (sorted := sortWith byImportance (rankedEntries top)).
  assert (Hperm : sorted ≡ₚ rankedEntries top) by apply sortWith_perm.
  assert (Hfin : Forall finiteEntry sorted)
    by (rewrite Hperm; apply rankedEntries_finite).
  assert (Hsorted : StronglySorted notBelow sorted).
  { apply sortWith_sorted_from;
      [apply rankedEntries_finite|constructor|constructor]. }
  split; [rewrite length_take; lia|].
  split; [now apply Forall_take|].
  rewrite <- (take_drop 10 sorted) in Hsorted.
  apply StronglySorted_app in Hsorted as (Hcross & Hshown & _).
  split; [assumption|].
  exists (drop 10 sorted). split; [now rewrite take_drop|].
  exact Hcross.
Qed.

End Ranking.

(** A host that lists the properties in key order, and a sample of
    importances. *)
Definition sampleEntries (value : JsonValue) : list (string * JsonValue) :=
  map_to_list (ownProperties value).

Definition sampleTop : JsonValue :=
  JObj (<["rsi_14" := JNum 3]> (<["volume" := JStr "1.5"]>
       (<["broken" := JStr "n/a"]> {[ "close" := JNum 2 ]}))).

Definition sampleMeta : JsonValue := JObj {[ "top20_importance" := sampleTop ]}.

Lemma shapTopFeatures_top_ten_witness :
  let shown := shapTopFeatures sampleEntries (Some sampleMeta) in
  (length shown <= 10)%nat
  /\ Forall finiteEntry shown
  /\ StronglySorted notBelow shown
  /\ exists rest : list (string * number),
      (shown ++ rest)%list ≡ₚ rankedEntries sampleEntries sampleTop
      /\ forall a b, a ∈ shown -> b ∈ rest -> notBelow a b.
Proof.
  apply (shapTopFeatures_top_ten sampleEntries sampleMeta sampleTop);
    reflexivity.
Defined.

Example shapTopFeatures_sample :
  shapTopFeatures sampleEntries (Some sampleMeta)
  = [("rsi_14", 3%js); ("close", 2%js); ("volume", Fin (3 # 2))].
Proof. vm_compute. reflexivity. Qed.

Lemma digit_not_T (c : ascii) : isDigit c = true -> Ascii.eqb c "T" = false.
Proof. each_char c; try discriminate; reflexivity. Qed.

Lemma append_empty_l (s : string) : "" ++ s = s.
Proof. reflexivity. Qed.

Lemma replaceFirstT_digit (c : ascii) (s : string) :
  isDigit c = true -> replaceFirstT (String c s) = String c (replaceFirstT s).
Proof. intros Hc. cbn [replaceFirstT]. now rewrite (digit_not_T c Hc). Qed.

(** X24. An ISO time stamp [YYYY-MM-DDTHH:MM...] is shown as
    [MM-DD HH:MM]: the year, the seconds and everything after them are
    dropped, and the T becomes a blank. *)
Theorem formatDatetimeCompact_iso (year month day hour minute rest : string) :
  String.length year = 4%nat -> String.length month = 2%nat ->
  String.length day = 2%nat -> String.length hour = 2%nat ->
  String.length minute = 2%nat ->
  allDigits year = true -> allDigits month = true -> allDigits day = true ->
  formatDatetimeCompact
    (Some (year ++ "-" ++ month ++ "-" ++ day ++ "T" ++ hour ++ ":" ++ minute
           ++ rest))
  = month ++ "-" ++ day ++ " " ++ hour ++ ":" ++ minute.
Proof.
  intros Ly Lm Ld Lh Lmi Dy Dm Dd.
  destruct year as [|y1 [|y2 [|y3 [|y4 [|? ?]]]]]; try discriminate.
  destruct month as [|m1 [|m2 [|? ?]]]; try discriminate.
  destruct day as [|d1 [|d2 [|? ?]]]; try discriminate.
  destruct hour as [|h1 [|h2 [|? ?]]]; try discriminate.
  destruct minute as [|n1 [|n2 [|? ?]]]; try discriminate.
  cbn [allDigits] in Dy, Dm, Dd.
  repeat match goal with
         | H : (_ && _)%bool = true |- _ => apply andb_true_iff in H as [? H]
         end.
  unfold formatDatetimeCompact. cbn [default id].
  repeat (rewrite append_cons || rewrite append_empty_l).
  rewrite !replaceFirstT_digit by assumption.
  change (replaceFirstT (String "-" ?s)) with (String "-" (replaceFirstT s)).
  rewrite !replaceFirstT_digit by assumption.
  change (replaceFirstT (String "-" ?s)) with (String "-" (replaceFirstT s)).
  rewrite !replaceFirstT_digit by assumption.
  change (replaceFirstT (String "T" ?s)) with (String " " s).
  cbn [String.length Nat.leb substring]. now destruct rest.
Qed.

Lemma formatDatetimeCompact_iso_witness :
  formatDatetimeCompact
    (Some ("2025" ++ "-" ++ "01" ++ "-" ++ "31" ++ "T" ++ "08" ++ ":" ++ "15"
           ++ ":00Z"))
  = "01" ++ "-" ++ "31" ++ " " ++ "08" ++ ":" ++ "15".
Proof.
  apply (formatDatetimeCompact_iso "2025" "01" "31" "08" "15" ":00Z");
    reflexivity.
Defined.

End RunDetailHelpers.

(** ** Module state persistence: save and restore *)

Section Persistence.

(** The nesting height of a value, through arrays and objects. *)
Fixpoint height (v : JsonValue) : nat :=
  match v with
  | JArr items => S (foldr (fun x acc => Nat.max (height x) acc) 0%nat items)
  | JObj fields =>
      S (map_fold (fun _ x acc => Nat.max (height x) acc) 0%nat fields)
  | _ => 0%nat
  end.

Lemma height_item (items : list JsonValue) (v : JsonValue) :
  v ∈ items -> (height v < height (JArr items))%nat.
Proof.
  cbn [height]. intros Hin. apply Nat.lt_succ_r.
  induction Hin as [v l|v y l Hin IH]; cbn [foldr]; lia.
Qed.

Lemma height_field (fields : JsonObject) (k : string) (v : JsonValue) :
  fields !! k = Some v -> (height v < height (JObj fields))%nat.
Proof.
  cbn [height]. intros Hk. apply Nat.lt_succ_r. revert k v Hk.
  apply (map_fold_weak_ind
           (fun (r : nat) (m : JsonObject) =>
              forall k v, m !! k = Some v -> (height v <= r)%nat)).
  - intros k v. now rewrite lookup_empty.
  - intros i x m r Hi IH k v. destruct (decide (i = k)) as [->|Hne].
    + rewrite lookup_insert_eq. intros [= ->]. apply Nat.le_max_l.
    + rewrite lookup_insert_ne by done. intros Hk.
      etransitivity; [exact (IH k v Hk)|apply Nat.le_max_r].
Qed.

Lemma cloneJson_idempotent_height (n : nat) (v : JsonValue) :
  (height v < n)%nat -> cloneJson (cloneJson v) = cloneJson v.
Proof.
  revert v. induction n as [|n IH]; intros v Hn; [lia|].
  destruct v as [| |x| |items|fields]; try reflexivity.
  - cbn [cloneJson]. destruct (Js.isFinite x) eqn:E; cbn [cloneJson];
      now rewrite ?E.
  - cbn [cloneJson]. f_equal. rewrite <- list_fmap_compose.
    apply list_fmap_ext. intros i x Hx. apply IH.
    apply list_elem_of_lookup_2 in Hx. pose proof (height_item _ _ Hx). lia.
  - cbn [cloneJson]. f_equal. rewrite <- map_fmap_compose.
    apply map_fmap_ext. intros k x Hx. apply IH.
    pose proof (height_field _ _ _ Hx). lia.
Qed.

Lemma cloneJson_idempotent (v : JsonValue) :
  cloneJson (cloneJson v) = cloneJson v.
Proof. apply (cloneJson_idempotent_height (S (height v))). lia. Qed.

(** The names under which the views keep their state. *)
Definition moduleNames : list string :=
  ["dataDownload"; "featureCalculation"; "modelTraining";
   "modelInterpretation"; "modelAnalysis"; "backtestConstruction";
   "backtestExecution"].

(** Read the names and the members of the store that the goal computes. *)
Ltac store_members :=
  repeat match goal with
         | |- context [ModuleStates.get ?s ?k] =>
             let k' := eval vm_compute in k in
             progress change k with k'
         end;
  unfold ModuleStates.get;
  repeat match goal with
         | |- context [String.eqb ?a ?b] =>
             let v := eval vm_compute in (String.eqb a b) in
             change (String.eqb a b) with v
         end;
  cbv iota.

Lemma restore_merged (stateRefs other : StateRefs) (old : JsonObject) :
  dom other = dom stateRefs ->
  map_imap (fun key value =>
              Some (match ModuleStates.merged old (cloneJson <$> stateRefs) !! key with
                    | Some saved => cloneJson saved
                    | None => value
                    end)) other
  = cloneJson <$> stateRefs.
Proof.
  intros Hdom. apply map_eq. intros k.
  rewrite map_lookup_imap, lookup_fmap. unfold ModuleStates.merged.
  destruct (other !! k) as [v'|] eqn:Ho.
  - assert (Hin : k ∈ dom stateRefs)
      by (rewrite <- Hdom; apply elem_of_dom; eauto).
    apply elem_of_dom in Hin as [v Hv]. rewrite Hv. cbn.
    rewrite (lookup_union_Some_l _ _ k (cloneJson v))
      by now rewrite lookup_fmap, Hv.
    now rewrite cloneJson_idempotent.
  - assert (Hout : stateRefs !! k = None).
    { apply not_elem_of_dom. rewrite <- Hdom. now apply not_elem_of_dom. }
    now rewrite Hout.
Qed.

(** X25. What a view saves it gets back: for each of the seven module
    names, restoring into refs with the same keys after a save yields the
    saved values as JSON writes and reads them, whatever the store held
    before; and writing and reading a value twice changes nothing more. *)
Theorem restoreState_after_saveState (moduleName : string)
  (stateRefs other : StateRefs) (moduleStore : ModuleStates.store) :
  moduleName ∈ moduleNames ->
  dom other = dom stateRefs ->
  restoreState moduleName other (saveState moduleName stateRefs moduleStore)
  = Some (cloneJson <$> stateRefs)
  /\ forall value : JsonValue, cloneJson (cloneJson value) = cloneJson value.
Proof.
  intros Hname Hdom. split; [|exact cloneJson_idempotent].
  unfold moduleNames in Hname.
  repeat (apply elem_of_cons in Hname as [->|Hname]);
    [..|now apply elem_of_nil in Hname];
    unfold restoreState, saveState; cbv zeta; store_members;
    cbv beta iota; cbn [ModuleStates.dataDownloadState
                     ModuleStates.featureCalculationState
                     ModuleStates.modelTrainingState
                     ModuleStates.modelInterpretationState
                     ModuleStates.modelAnalysisState
                     ModuleStates.backtestConstructionState
                     ModuleStates.backtestExecutionState
                     ModuleStates.saveDataDownloadState
                     ModuleStates.saveFeatureCalculationState
                     ModuleStates.saveModelTrainingState
                     ModuleStates.saveModelInterpretationState
                     ModuleStates.saveModelAnalysisState
                     ModuleStates.saveBacktestConstructionState
                     ModuleStates.saveBacktestExecutionState];
    f_equal; now apply restore_merged.
Qed.

(** A store in which model training already has a task. *)
Definition sampleStore : ModuleStates.store :=
  {| ModuleStates.dataDownloadState := ∅;
     ModuleStates.featureCalculationState := ∅;
     ModuleStates.modelTrainingState := {[ "taskId" := JStr "t-1" ]};
     ModuleStates.modelInterpretationState := ∅;
     ModuleStates.modelAnalysisState := {[ "taskId" := JStr "t-2" ]};
     ModuleStates.backtestConstructionState := ∅;
     ModuleStates.backtestExecutionState := ∅ |}.

Lemma restoreState_after_saveState_witness :
  restoreState "modelTraining" {[ "progress" := JNull ]}
    (saveState "modelTraining" {[ "progress" := JNum 40 ]} sampleStore)
  = Some (cloneJson <$> {[ "progress" := JNum 40 ]})
  /\ forall value : JsonValue, cloneJson (cloneJson value) = cloneJson value.
Proof.
  apply restoreState_after_saveState; [|reflexivity].
  apply (list_elem_of_lookup_2 _ 2%nat). reflexivity.
Defined.

Ltac each_module H :=
  unfold moduleNames in H;
  repeat (apply elem_of_cons in H as [->|H]);
  [..|now apply elem_of_nil in H].

(** X26. Modules do not disturb each other: saving the state of one
    module never changes what any other module restores. *)
Theorem saveState_isolated (saved other : string)
  (stateRefs otherRefs : StateRefs) (moduleStore : ModuleStates.store) :
  saved ∈ moduleNames -> other ∈ moduleNames -> other <> saved ->
  restoreState other otherRefs (saveState saved stateRefs moduleStore)
  = restoreState other otherRefs moduleStore.
Proof.
  intros Hsaved Hother Hne.
  each_module Hsaved; each_module Hother; try congruence;
    unfold restoreState, saveState; cbv zeta; store_members; reflexivity.
Qed.

Lemma saveState_isolated_witness :
  restoreState "modelAnalysis" {[ "taskId" := JNull ]}
    (saveState "modelTraining" {[ "taskId" := JStr "t-3" ]} sampleStore)
  = restoreState "modelAnalysis" {[ "taskId" := JNull ]} sampleStore.
Proof.
  apply saveState_isolated; [| |discriminate].
  - apply (list_elem_of_lookup_2 _ 2%nat). reflexivity.
  - apply (list_elem_of_lookup_2 _ 4%nat). reflexivity.
Defined.

Lemma toUpper_idempotent (c : ascii) : toUpper (toUpper c) = toUpper c.
Proof. TextFacts.each_char c; reflexivity. Qed.

Lemma capitalize_idempotent (text : string) :
  capitalize (capitalize text) = capitalize text.
Proof. destruct text as [|c rest]; [reflexivity|]. cbn. now rewrite toUpper_idempotent. Qed.

(** X27. The module name is case-sensitive in one direction only: a name
    with a capital first letter saves exactly like the plain name, but
    restoring under it finds no state and leaves the refs as they are. *)
Theorem capitalized_name_saves_but_does_not_restore (moduleName : string)
  (stateRefs : StateRefs) (moduleStore : ModuleStates.store) :
  saveState (capitalize moduleName) stateRefs moduleStore
  = saveState moduleName stateRefs moduleStore
  /\ (moduleName ∈ moduleNames ->
      restoreState (capitalize moduleName) stateRefs moduleStore
      = Some stateRefs).
Proof.
  split.
  - unfold saveState. now rewrite capitalize_idempotent.
  - intros Hname. each_module Hname;
      unfold restoreState; cbv zeta; store_members; reflexivity.
Qed.

End Persistence.

(** ** The rerun handler *)

Section Rerun.
Import Js JsFacts.

(** The rerun form read as a home page form with every stage switch on. *)
Definition asFormState (f : RerunForm) : FormState := {|
  symbol := rerunSymbol f; startDate := rerunStartDate f;
  endDate := rerunEndDate f; interval := rerunInterval f;
  templateChoice := TEMPLATE_NONE; defaultTemplateId := None;
  overridesText := "";
  useFeatureOverrides := true; alphaTypes := alphaTypesInput f;
  instrumentName := instrumentNameInput f;
  useLabelOverrides := true; labelWindow := labelWindowInput f;
  labelLookForward := labelLookForwardInput f;
  labelType := labelTypeInput f; labelFilterType := labelFilterTypeInput f;
  labelThreshold := labelThresholdInput f;
  useTrainingOverrides := true; numBoostRound := numBoostRoundInput f;
  numThreads := numThreadsInput f;
  useInterpretationOverrides := true; shapMaxSamples := shapMaxSamplesInput f;
  shapMaxDisplay := shapMaxDisplayInput f;
  useAnalysisOverrides := true;
  selectedFeaturesText := selectedFeaturesTextInput f;
  maxFeatures := maxFeaturesInput f; maxDepth := maxDepthInput f;
  minSamplesSplit := minSamplesSplitInput f;
  minSamplesLeaf := minSamplesLeafInput f;
  minRuleSamples := minRuleSamplesInput f;
  analysisLabelThreshold := analysisLabelThresholdInput f;
  useBacktestOverrides := true; positionFraction := positionFractionInput f;
  positionNotional := positionNotionalInput f;
  orderIntervalMinutes := orderIntervalMinutesInput f;
  lookForwardBars := lookForwardBarsInput f; pnlMode := pnlModeInput f;
  backtestType := backtestTypeInput f;
  backtestFilterType := backtestFilterTypeInput f;
  minRuleConfidence := minRuleConfidenceInput f;
  winProfit := winProfitInput f; lossCost := lossCostInput f;
  initialBalance := initialBalanceInput f; feeRate := feeRateInput f;
  slippageBps := slippageBpsInput f;
  useWalkForwardOverrides := true;
  walkForwardEnabled := walkForwardEnabledInput f;
  trainBars := trainBarsInput f; testBars := testBarsInput f;
  stepBars := stepBarsInput f; maxWindows := maxWindowsInput f
|}.

(** The checks of [onRerun] that the home page does not have: a
    configuration to start from, and a symbol, dates in order and an
    interval. *)
Definition rerunRangeOk (cfg : option JsonValue) (f : RerunForm) : bool :=
  (match cfg with
   | Some c => jsonTruthy c && isObjectType c
   | None => false
   end
   && Text.truthy (Text.trim (rerunSymbol f))
   && Text.truthy (Text.trim (rerunStartDate f))
   && Text.truthy (Text.trim (rerunEndDate f))
   && negb (String.ltb (Text.trim (rerunEndDate f)) (Text.trim (rerunStartDate f)))
   && Text.truthy (Text.trim (rerunInterval f)))%bool.

Ltac form_fields :=
  cbn [asFormState symbol startDate endDate interval templateChoice
       defaultTemplateId overridesText useFeatureOverrides alphaTypes
       instrumentName useLabelOverrides labelWindow labelLookForward labelType
       labelFilterType labelThreshold useTrainingOverrides numBoostRound
       numThreads useInterpretationOverrides shapMaxSamples shapMaxDisplay
       useAnalysisOverrides selectedFeaturesText maxFeatures maxDepth
       minSamplesSplit minSamplesLeaf minRuleSamples analysisLabelThreshold
       useBacktestOverrides positionFraction positionNotional
       orderIntervalMinutes lookForwardBars pnlMode backtestType
       backtestFilterType minRuleConfidence winProfit lossCost initialBalance
       feeRate slippageBps useWalkForwardOverrides walkForwardEnabled
       trainBars testBars stepBars maxWindows].

(** The checks of the seven stages, as the home page runs them. *)
Ltac home_checks :=
  unfold buildFormOverrides, featureOverrides, labelOverrides,
    trainingOverrides, interpretationOverrides, analysisOverrides,
    backtestOverrides, walkForwardOverrides, andThen, throwIf;
  form_fields; cbv zeta.

Ltac rerun_checks :=
  unfold onRerun, rerunLabelChecks, andThen, throwIf; cbv zeta.

(** Split on the conditions of a run of checks that succeeded. *)
Ltac passed_checks H :=
  repeat match type of H with
         | context [if ?c then inl _ else _] =>
             destruct c eqn:?; cbv beta iota in H; [discriminate H|]
         end.

Ltac replay_checks :=
  repeat match goal with
         | Hc : ?c = false |- context [if ?c then _ else _] => rewrite Hc
         end;
  cbv beta iota.

(** Keep the request aside while the checks are read. *)
Ltac hide_request :=
  match goal with
  | |- context [@inr SubmitError PipelineRunRequest ?r] =>
      let request := fresh "request" in set (request := r)
  end.

(** X28. The rerun page accepts exactly what the home page accepts with
    every stage switched on: [onRerun] submits if and only if there is a
    configuration to start from, the symbol, the dates and the interval are
    filled in with the start not after the end, and the checks of the
    seven stages of [onRun] pass on the same inputs. *)
Theorem onRerun_accepts_like_onRun (cfg : option JsonValue) (f : RerunForm) :
  (exists req, onRerun cfg f = inr req)
  <-> rerunRangeOk cfg f = true
      /\ exists form_overrides,
          buildFormOverrides (asFormState f) = inr form_overrides.
Proof.
  split.
  - intros [req H]. revert H. rerun_checks. hide_request. intros H.
    passed_checks H. split.
    + unfold rerunRangeOk, Text.isEmpty in *.
      destruct cfg as [c|]; [|discriminate].
      repeat match goal with
             | Hc : negb ?c = false |- _ => apply negb_false_iff in Hc
             | Hc : (negb _ || negb _)%bool = false |- _ =>
                 apply orb_false_iff in Hc as [?%negb_false_iff ?%negb_false_iff]
             end.
      repeat match goal with
             | Hc : ?c = _ |- context [?c] => rewrite Hc
             end. reflexivity.
    + eexists. home_checks. replay_checks. reflexivity.
  - intros [Hrange [fo Hfo]]. revert Hfo. home_checks. intros Hfo.
    passed_checks Hfo. unfold rerunRangeOk in Hrange.
    repeat (apply andb_true_iff in Hrange as [Hrange ?]).
    destruct cfg as [c|]; [|discriminate].
    apply andb_true_iff in Hrange as [? ?].
    repeat match goal with
           | Hc : negb ?c = true |- _ => apply negb_true_iff in Hc
           end.
    eexists. rerun_checks. unfold Text.isEmpty.
    repeat match goal with
           | Hc : ?c = true |- context [?c] => rewrite Hc
           end.
    cbn [negb orb]. replay_checks. reflexivity.
Qed.

Lemma assignStage_eq (key : string) (fields : JsonObject -> JsonObject)
  (config : JsonObject) :
  assignStage key fields config !! key
  = Some (JObj (fields (spread (config !! key)))).
Proof. apply lookup_insert_eq. Qed.

Lemma assignStage_ne (key k : string) (fields : JsonObject -> JsonObject)
  (config : JsonObject) :
  key <> k -> assignStage key fields config !! k = config !! k.
Proof. intros Hne. now apply lookup_insert_ne. Qed.

(** Read a stage of the request: skip the assignments of the other
    stages. *)
Ltac read_stage :=
  repeat first [rewrite assignStage_eq
               | rewrite assignStage_ne by discriminate].

(** Two objects built from the same fields, in whatever order, over the
    same rest. *)
Ltac same_fields :=
  let k := fresh "k" in
  apply map_eq; intros k; rewrite lookup_union;
  repeat match goal with
         | |- context [<[?i := ?x]> ?m !! k] =>
             destruct (decide (i = k)) as [<-|?];
             [repeat first [rewrite lookup_insert_eq
                           | rewrite lookup_insert_ne by discriminate];
              match goal with
              | |- context [union _ ?o] => now destruct o
              end
             |rewrite (lookup_insert_ne m i k x) by assumption]
         end;
  rewrite lookup_empty;
  match goal with
  | |- context [union _ ?o] => now destruct o
  end.

(** The eight keys [onRerun] assigns. *)
Definition rerunKeys : list string :=
  ["data_download"; "feature_calculation"; "label_calculation";
   "model_training"; "model_interpretation"; "model_analysis";
   "backtest_construction"; "walk_forward_evaluation"].

(** X29. What a rerun sends: never a template; under [data_download] the
    symbol, dates and interval of the form, trimmed; under each of the seven
    stages the fields the home page would send for the same inputs, laid
    over the fields that stage had in the configuration of the run; and
    every other key of that configuration as it was. *)
Theorem onRerun_payload (cfg : JsonValue) (f : RerunForm)
  (req : PipelineRunRequest) (form_overrides : JsonObject) :
  onRerun (Some cfg) f = inr req ->
  buildFormOverrides (asFormState f) = inr form_overrides ->
  let original := ownProperties (cloneJson cfg) in
  template_id req = None
  /\ config_overrides req !! "data_download"
     = Some (JObj (<["symbol" := JStr (Text.trim (rerunSymbol f))]> (
                   <["start_date" := JStr (Text.trim (rerunStartDate f))]> (
                   <["end_date" := JStr (Text.trim (rerunEndDate f))]> (
                   <["interval" := JStr (Text.trim (rerunInterval f))]> (
                   spread (original !! "data_download")))))))
  /\ (forall (stage : string) (fields : JsonObject),
        form_overrides !! stage = Some (JObj fields) ->
        config_overrides req !! stage
        = Some (JObj (fields ∪ spread (original !! stage))))
  /\ (forall k : string,
        k ∉ rerunKeys -> config_overrides req !! k = original !! k).
Proof.
  intros H Hfo. revert H. rerun_checks. hide_request. intros H.
  passed_checks H. injection H as <-.
  repeat match goal with r := _ |- _ => subst r end.
  revert Hfo. home_checks. replay_checks. intros [= <-].
  cbn [template_id config_overrides spread fmap option_fmap option_map].
  split; [reflexivity|]. split; [now read_stage|]. split.
  - intros stage fields Hstage.
    repeat (apply lookup_insert_Some in Hstage as [[<- [= <-]]|[_ Hstage]]);
      [..|now rewrite lookup_empty in Hstage];
      read_stage; do 2 f_equal; same_fields.
  - intros k Hk. unfold rerunKeys in Hk.
    repeat (apply not_elem_of_cons in Hk as [? Hk]).
    now rewrite !assignStage_ne by done.
Qed.

(** A configuration with a seed and a label stage that has a note. *)
Definition sampleConfig : JsonValue :=
  JObj (<["seed" := JNum 7]>
        {[ "label_calculation" :=
             JObj (<["window" := JNum 5]> {[ "note" := JNum 1 ]}) ]}).

Lemma onRerun_payload_witness :
  exists (req : PipelineRunRequest) (form_overrides : JsonObject),
    onRerun (Some sampleConfig) initialRerunForm = inr req
    /\ buildFormOverrides (asFormState initialRerunForm) = inr form_overrides
    /\ let original := ownProperties (cloneJson sampleConfig) in
       template_id req = None
       /\ config_overrides req !! "data_download"
          = Some (JObj (
              <["symbol" := JStr (Text.trim (rerunSymbol initialRerunForm))]> (
              <["start_date" :=
                  JStr (Text.trim (rerunStartDate initialRerunForm))]> (
              <["end_date" := JStr (Text.trim (rerunEndDate initialRerunForm))]> (
              <["interval" := JStr (Text.trim (rerunInterval initialRerunForm))]> (
              spread (original !! "data_download")))))))
       /\ (forall (stage : string) (fields : JsonObject),
             form_overrides !! stage = Some (JObj fields) ->
             config_overrides req !! stage
             = Some (JObj (fields ∪ spread (original !! stage))))
       /\ (forall k : string,
             k ∉ rerunKeys -> config_overrides req !! k = original !! k).
Proof.
  destruct (inr_exists (onRerun (Some sampleConfig) initialRerunForm)
              ltac:(vm_compute; reflexivity)) as [req E].
  destruct (inr_exists (buildFormOverrides (asFormState initialRerunForm))
              ltac:(vm_compute; reflexivity)) as [fo F].
  exists req, fo. split; [exact E|]. split; [exact F|].
  exact (onRerun_payload sampleConfig initialRerunForm req fo E F).
Defined.

End Rerun.
